(** * tyme: a plain-text todo list and time tracker

    A shallow embedding of [tyme/tyme.py]: the record types [Task] and
    [Entry], the document model [TymeSheet] with its operations, and the
    document codec ([TymeSheet.from_file], [TymeSheet.__str__]), followed
    by the properties of the specification that were checked against it.

    Conventions of the embedding.
    - A Python [str] is a list of ASCII characters ([str]).
    - A [datetime] is the record of its calendar fields; comparison and
      subtraction follow CPython's naive datetimes.
    - An [OrderedDict] is an association list in insertion order.
    - A method of [TymeSheet] is a function in the monad [M Store]: it
      threads the receiver and the wall clock, and an exception leaves the
      state as it was when it was raised.  [now()] reads the wall clock,
      one reading per call. *)

From Stdlib Require Import String Ascii.
From Stdlib Require Import List ZArith Lia Bool Arith.
From Stdlib Require DecimalString.
Import ListNotations.
Local Open Scope Z_scope.

(* ================================================================== *)
(** * Strings *)
(* ================================================================== *)

Definition str := list ascii.

(** A string literal. *)
Definition L (s : string) : str := list_ascii_of_string s.

Fixpoint str_eqb (a b : str) : bool :=
  match a, b with
  | [], [] => true
  | x :: a', y :: b' => Ascii.eqb x y && str_eqb a' b'
  | _, _ => false
  end.

(** ['{:N}'.format(s)]: left-justified in a field of [n] columns. *)
Definition ljust (n : nat) (s : str) : str :=
  s ++ repeat " "%char (n - length s).

(** ['{:^N}'.format(s)]: centred; the odd column goes to the right. *)
Definition center (n : nat) (s : str) : str :=
  let pad := (n - length s)%nat in
  repeat " "%char (pad / 2) ++ s ++ repeat " "%char (pad - pad / 2).

(** [sep.join(parts)]. *)
Fixpoint join (sep : str) (parts : list str) : str :=
  match parts with
  | [] => []
  | [p] => p
  | p :: rest => p ++ sep ++ join sep rest
  end.

(** [str.isspace] on one ASCII character: the characters [str.strip()]
    removes and the class [\s] matches. *)
Definition is_space (c : ascii) : bool :=
  let n := nat_of_ascii c in
  (n =? 32)%nat || ((9 <=? n)%nat && (n <=? 13)%nat)
  || ((28 <=? n)%nat && (n <=? 31)%nat).

Definition is_digit (c : ascii) : bool :=
  let n := nat_of_ascii c in (48 <=? n)%nat && (n <=? 57)%nat.

(** The class [\w] on ASCII: letters, digits and the underscore. *)
Definition is_word (c : ascii) : bool :=
  let n := nat_of_ascii c in
  is_digit c || ((65 <=? n)%nat && (n <=? 90)%nat)
  || ((97 <=? n)%nat && (n <=? 122)%nat) || (n =? 95)%nat.

Fixpoint lstrip (s : str) : str :=
  match s with
  | c :: s' => if is_space c then lstrip s' else s
  | [] => []
  end.

Definition rstrip (s : str) : str := rev (lstrip (rev s)).

(** [s.strip()]. *)
Definition strip (s : str) : str := rstrip (lstrip s).

Fixpoint starts_with (p s : str) : bool :=
  match p, s with
  | [], _ => true
  | x :: p', y :: s' => Ascii.eqb x y && starts_with p' s'
  | _ :: _, [] => false
  end.

(** [s.split(sep)] for a non-empty separator: [cur] holds the reversed
    text of the piece being read, [skip] the characters of a separator
    still to be passed over. *)
Fixpoint split_go (sep : str) (cur : str) (skip : nat) (s : str) : list str :=
  match s with
  | [] => [rev cur]
  | c :: s' =>
      match skip with
      | S k => split_go sep cur k s'
      | O =>
          if starts_with sep s
          then rev cur :: split_go sep [] (length sep - 1) s'
          else split_go sep (c :: cur) 0 s'
      end
  end.

Definition split (sep : str) (s : str) : list str := split_go sep [] 0 s.

(* ================================================================== *)
(** * Exceptions and the state monad *)
(* ================================================================== *)

(** [ParseError] is a subclass of [TymeError]; the other three are
    built-in exceptions that the code can let escape. *)
Inductive exn : Type :=
| TymeError (msg : str)
| ParseError (msg : str)
| ValueError (msg : str)
| StopIteration
| RuntimeError (msg : str).

(** [isinstance(e, TymeError)]. *)
Definition is_TymeError (e : exn) : bool :=
  match e with
  | TymeError _ | ParseError _ => true
  | _ => false
  end.

Inductive result (A : Type) : Type :=
| Ok (a : A)
| Raise (e : exn).
Arguments Ok {A} a.
Arguments Raise {A} e.

(** A computation over a mutable state [St] that may raise.  The state
    that comes back with [Raise] is the state at the point of the raise:
    Python does not roll mutations back. *)
Definition M (St A : Type) : Type := St -> result A * St.

Definition ret {St A} (a : A) : M St A := fun s => (Ok a, s).
Definition raise {St A} (e : exn) : M St A := fun s => (Raise e, s).
Definition bind {St A B} (c : M St A) (f : A -> M St B) : M St B :=
  fun s => match c s with
           | (Ok a, s') => f a s'
           | (Raise e, s') => (Raise e, s')
           end.
Definition gets {St A} (f : St -> A) : M St A := fun s => (Ok (f s), s).
Definition modify {St} (f : St -> St) : M St unit := fun s => (Ok tt, f s).

Declare Scope prog_scope.
Delimit Scope prog_scope with prog.
Notation "x <- c ;; k" := (bind c (fun x => k))
  (at level 61, c at next level, right associativity) : prog_scope.
Notation "c ;;; k" := (bind c (fun _ => k))
  (at level 61, right associativity) : prog_scope.

(** Monadic map, left to right: a generator consumed by [list(...)]. *)
Fixpoint mapM {St A B} (f : A -> M St B) (l : list A) : M St (list B) :=
  match l with
  | [] => ret []
  | a :: l' => (b <- f a ;; bs <- mapM f l' ;; ret (b :: bs))%prog
  end.

(* ================================================================== *)
(** * Dates and durations *)
(* ================================================================== *)

Record datetime : Type := mkDT {
  year : Z; month : Z; day : Z;
  hour : Z; minute : Z; second : Z; microsecond : Z
}.

Definition is_leap (y : Z) : bool :=
  (y mod 4 =? 0) && (negb (y mod 100 =? 0) || (y mod 400 =? 0)).

Definition days_in_month (y m : Z) : Z :=
  match m with
  | 2 => if is_leap y then 29 else 28
  | 4 | 6 | 9 | 11 => 30
  | _ => 31
  end.

(** What the [datetime] constructor accepts. *)
Definition valid_datetime (d : datetime) : bool :=
  (1 <=? year d) && (year d <=? 9999)
  && (1 <=? month d) && (month d <=? 12)
  && (1 <=? day d) && (day d <=? days_in_month (year d) (month d))
  && (0 <=? hour d) && (hour d <? 24)
  && (0 <=? minute d) && (minute d <? 60)
  && (0 <=? second d) && (second d <? 60)
  && (0 <=? microsecond d) && (microsecond d <? 1000000).

Definition days_before_year (y : Z) : Z :=
  let p := y - 1 in p * 365 + p / 4 - p / 100 + p / 400.

Fixpoint days_before_month_nat (y : Z) (m : nat) : Z :=
  match m with
  | O => 0
  | S m' => days_before_month_nat y m' + days_in_month y (Z.of_nat m)
  end.

Definition days_before_month (y m : Z) : Z :=
  days_before_month_nat y (Z.to_nat (m - 1)).

(** [date.toordinal()]. *)
Definition toordinal (d : datetime) : Z :=
  days_before_year (year d) + days_before_month (year d) (month d) + day d.

(** Microseconds since the start of the proleptic calendar. *)
Definition dt_micros (d : datetime) : Z :=
  (((toordinal d * 24 + hour d) * 60 + minute d) * 60 + second d) * 1000000
  + microsecond d.

(** A [timedelta], as its total number of microseconds. *)
Definition timedelta := Z.

(** [a - b] on datetimes. *)
Definition dt_sub (a b : datetime) : timedelta := dt_micros a - dt_micros b.

(** [a < b] on naive datetimes: field by field, most significant first. *)
Definition dt_fields (d : datetime) : list Z :=
  [year d; month d; day d; hour d; minute d; second d; microsecond d].

Fixpoint lex_ltb (a b : list Z) : bool :=
  match a, b with
  | x :: a', y :: b' => (x <? y) || ((x =? y) && lex_ltb a' b')
  | _, _ => false
  end.

Definition dt_ltb (a b : datetime) : bool := lex_ltb (dt_fields a) (dt_fields b).

(** [d.replace(year=y)]. *)
Definition replace_year (y : Z) (d : datetime) : datetime :=
  mkDT y (month d) (day d) (hour d) (minute d) (second d) (microsecond d).

(** The wall clock: the successive values of [datetime.now()]. *)
Record World : Type := mkWorld {
  wall_clock : nat -> datetime;
  tick : nat
}.

(** [now()]: [datetime.now().replace(year=2000)]. *)
Definition now : M World datetime :=
  fun w =>
    (Ok (replace_year 2000 (wall_clock w (tick w))),
     mkWorld (wall_clock w) (S (tick w))).

(** [time or now()]: a datetime is always truthy. *)
Definition or_now (time : option datetime) : M World datetime :=
  match time with
  | Some t => ret t
  | None => now
  end.

(* ================================================================== *)
(** * Ordered dictionaries *)
(* ================================================================== *)

(** [collections.OrderedDict] with string keys: the items in insertion
    order.  A dictionary holds each key once ([od_ok]). *)
Definition OrderedDict (V : Type) : Type := list (str * V).

Section OrderedDict.
Context {V : Type}.

Definition od_keys (d : OrderedDict V) : list str := map fst d.
Definition od_values (d : OrderedDict V) : list V := map snd d.

Definition od_ok (d : OrderedDict V) : Prop := NoDup (od_keys d).

(** [k in d]. *)
Definition od_mem (k : str) (d : OrderedDict V) : bool :=
  existsb (fun kv => str_eqb k (fst kv)) d.

(** [d[k]], [None] standing for [KeyError]. *)
Fixpoint od_get (k : str) (d : OrderedDict V) : option V :=
  match d with
  | [] => None
  | (k', v) :: d' => if str_eqb k k' then Some v else od_get k d'
  end.

(** [d[k] = v]: a present key keeps its place, a new one goes last. *)
Fixpoint od_set (k : str) (v : V) (d : OrderedDict V) : OrderedDict V :=
  match d with
  | [] => [(k, v)]
  | (k', v') :: d' =>
      if str_eqb k k' then (k', v) :: d' else (k', v') :: od_set k v d'
  end.

(** [del d[k]]. *)
Definition od_del (k : str) (d : OrderedDict V) : OrderedDict V :=
  filter (fun kv => negb (str_eqb k (fst kv))) d.

(** [d.pop(k)]: the value and the dictionary without the key, [None]
    standing for [KeyError]. *)
Definition od_pop (k : str) (d : OrderedDict V)
  : option (V * OrderedDict V) :=
  match od_get k d with
  | Some v => Some (v, od_del k d)
  | None => None
  end.

(** [OrderedDict(pairs)]. *)
Definition od_of_pairs (pairs : list (str * V)) : OrderedDict V :=
  fold_left (fun d kv => od_set (fst kv) (snd kv) d) pairs [].
End OrderedDict.

(* ================================================================== *)
(** * Records: Task and Entry *)
(* ================================================================== *)

Record Task : Type := mkTask {
  name : str;
  tags : list str;
  deadline : option datetime
}.

(** [Task.__init__]. *)
Definition Task_init (name : str) (tags : list str)
  (deadline : option datetime) : Task := mkTask name tags deadline.

Definition set_deadline (t : datetime) (task : Task) : Task :=
  mkTask (name task) (tags task) (Some t).

(** The attribute [end] is spelled [end_]. *)
Record Entry : Type := mkEntry {
  task : str;
  start : datetime;
  end_ : option datetime
}.

(** [Entry.__init__]. *)
Definition Entry_init {St} (task : str) (start : datetime)
  (end_ : option datetime) : M St Entry :=
  match end_ with
  | Some e =>
      if dt_ltb e start
      then raise (TymeError (L "Entry cannot end before it begins!"))
      else ret (mkEntry task start end_)
  | None => ret (mkEntry task start end_)
  end.

Definition set_end (t : datetime) (e : Entry) : Entry :=
  mkEntry (task e) (start e) (Some t).

(* ================================================================== *)
(** * The document model: TymeSheet *)
(* ================================================================== *)

Record TymeSheet : Type := mkSheet {
  todo : OrderedDict Task;
  time : list Entry;
  done : OrderedDict Task
}.

(** [TymeSheet.__init__].  Creating the sheet file when it is missing is
    an effect on the file system and is left out. *)
Definition TymeSheet_init (todo : list (str * Task)) (time : list Entry)
  (done : list (str * Task)) : TymeSheet :=
  mkSheet (od_of_pairs todo) time (od_of_pairs done).

(** The state a method runs in: its receiver and the wall clock. *)
Record Store : Type := mkStore {
  self : TymeSheet;
  world : World
}.

Definition with_todo (f : OrderedDict Task -> OrderedDict Task) (s : Store)
  : Store :=
  mkStore (mkSheet (f (todo (self s))) (time (self s)) (done (self s)))
          (world s).
Definition with_time (f : list Entry -> list Entry) (s : Store) : Store :=
  mkStore (mkSheet (todo (self s)) (f (time (self s))) (done (self s)))
          (world s).
Definition with_done (f : OrderedDict Task -> OrderedDict Task) (s : Store)
  : Store :=
  mkStore (mkSheet (todo (self s)) (time (self s)) (f (done (self s))))
          (world s).

(** Run a computation on the wall clock inside a method. *)
Definition lift {A} (c : M World A) : M Store A :=
  fun s => let (r, w) := c (world s) in (r, mkStore (self s) w).

(** The property [current_entry]. *)
Definition current_entry (sheet : TymeSheet) : option Entry :=
  match rev (time sheet) with
  | e :: _ => match end_ e with
              | None => Some e
              | Some _ => None
              end
  | [] => None
  end.

(** [self.current_entry.end = t]: the current entry is the last one. *)
Fixpoint set_last_end (t : datetime) (l : list Entry) : list Entry :=
  match l with
  | [] => []
  | [e] => [set_end t e]
  | e :: l' => e :: set_last_end t l'
  end.

Local Open Scope prog_scope.

Definition add_task (name : str) (tags : list str)
  (deadline : option datetime) : M Store unit :=
  present <- gets (fun s => od_mem name (todo (self s))) ;;
  if present then raise (TymeError (L "That task already exists."))
  else
    let task := Task_init name tags deadline in
    modify (with_todo (od_set name task)).

Definition clock_out (time : option datetime) : M Store str :=
  cur <- gets (fun s => current_entry (self s)) ;;
  match cur with
  | None => raise (TymeError (L "Not clocked in."))
  | Some e =>
      let task := task e in
      t <- lift (or_now time) ;;
      modify (with_time (set_last_end t)) ;;;
      ret task
  end.

Definition clock_in (task : str) (time : option datetime) : M Store unit :=
  time <- lift (or_now time) ;;
  cur <- gets (fun s => current_entry (self s)) ;;
  match cur with
  | Some _ => _ <- clock_out (Some time) ;; ret tt
  | None => ret tt
  end ;;;
  entry <- Entry_init task time None ;;
  modify (with_time (fun l => l ++ [entry])).

Definition complete_task (task_name : str) (time : option datetime)
  : M Store unit :=
  popped <- gets (fun s => od_pop task_name (todo (self s))) ;;
  match popped with
  | None => raise (TymeError (L "No such task."))
  | Some (popped_task, rest) =>
      modify (with_todo (fun _ => rest)) ;;;
      time <- lift (or_now time) ;;
      let completed := set_deadline time popped_task in
      modify (with_done (od_set task_name completed)) ;;;
      cur <- gets (fun s => current_entry (self s)) ;;
      match cur with
      | Some e =>
          if str_eqb (task e) task_name
          then _ <- clock_out (Some time) ;; ret tt
          else ret tt
      | None => ret tt
      end
  end.

(** [set(a) <= set(b)]. *)
Definition subset (a b : list str) : bool :=
  forallb (fun x => existsb (str_eqb x) b) a.

(** What [tag_filter] returns: the receiver itself, or a new sheet. *)
Inductive sheet_ref : Type :=
| Receiver
| Fresh (sheet : TymeSheet).

(** The test [filter_tags <= set(t.tags)] on an item [(n, t)]. *)
Definition has_tags (filter_tags : list str) (nt : str * Task) : bool :=
  subset filter_tags (tags (snd nt)).

Definition tag_filter (tags : list str) (sheet : TymeSheet) : sheet_ref :=
  match tags with
  | [] => Receiver
  | _ :: _ =>
      let filter_tags := tags in
      let todo := od_of_pairs (filter (has_tags filter_tags) (todo sheet)) in
      let done := od_of_pairs (filter (has_tags filter_tags) (done sheet)) in
      let time :=
        filter (fun e => od_mem (task e) todo || od_mem (task e) done)
               (time sheet) in
      Fresh (TymeSheet_init todo time done)
  end.

(* ================================================================== *)
(** * Regular expressions *)
(* ================================================================== *)

(** The fragment of Python's [re] the program uses, with the semantics of
    its backtracking matcher: alternatives are tried left to right,
    repetition is greedy, and the first complete match wins. *)
Inductive regex : Type :=
| Eps
| Chr (p : ascii -> bool)
| Seq (r1 r2 : regex)
| Alt (r1 r2 : regex)
| Star (r : regex)
| Group (i : nat) (r : regex).

Definition Plus (r : regex) : regex := Seq r (Star r).
Definition Opt (r : regex) : regex := Alt r Eps.
Definition Lit1 (c : ascii) : regex := Chr (Ascii.eqb c).
Fixpoint Lit (s : str) : regex :=
  match s with
  | [] => Eps
  | c :: s' => Seq (Lit1 c) (Lit s')
  end.
Fixpoint Seqs (rs : list regex) : regex :=
  match rs with
  | [] => Eps
  | r :: rs' => Seq r (Seqs rs')
  end.
(** [r{n,}]. *)
Fixpoint AtLeast (n : nat) (r : regex) : regex :=
  match n with
  | O => Star r
  | S n' => Seq r (AtLeast n' r)
  end.

(** The span of each group that took part in the match, latest first. *)
Definition caps := list (nat * (nat * nat)).

(** What remains to be matched: position, groups and remaining text in,
    the end of the match and its groups out. *)
Definition cont := nat -> caps -> str -> option (nat * caps).

(** The loop of a greedy [r*]: [body] matches [r] once.  An iteration
    has to consume text; [fuel] bounds the iterations by the length of
    the text. *)
Fixpoint star_loop (body : cont -> cont) (k : cont) (fuel : nat)
  (pos : nat) (c : caps) (s : str) {struct fuel} : option (nat * caps) :=
  match fuel with
  | O => k pos c s
  | S fuel' =>
      match body (fun pos' c' s' =>
                    if (pos <? pos')%nat
                    then star_loop body k fuel' pos' c' s'
                    else None) pos c s with
      | Some m => Some m
      | None => k pos c s
      end
  end.

Fixpoint rmatch (r : regex) (k : cont) (pos : nat) (c : caps) (s : str)
  {struct r} : option (nat * caps) :=
  match r with
  | Eps => k pos c s
  | Chr p =>
      match s with
      | a :: s' => if p a then k (S pos) c s' else None
      | [] => None
      end
  | Seq r1 r2 => rmatch r1 (fun pos' c' s' => rmatch r2 k pos' c' s') pos c s
  | Alt r1 r2 =>
      match rmatch r1 k pos c s with
      | Some m => Some m
      | None => rmatch r2 k pos c s
      end
  | Star r1 => star_loop (rmatch r1) k (length s) pos c s
  | Group i r1 =>
      rmatch r1 (fun pos' c' s' => k pos' ((i, (pos, pos')) :: c') s') pos c s
  end.

(** [re.match(r, s)]: the end of the match and the group spans. *)
Definition re_match (r : regex) (s : str) : option (nat * caps) :=
  rmatch r (fun pos c _ => Some (pos, c)) 0%nat [] s.

Fixpoint span_of (i : nat) (c : caps) : option (nat * nat) :=
  match c with
  | [] => None
  | (j, sp) :: c' => if (i =? j)%nat then Some sp else span_of i c'
  end.

(** [m.group(i)], [None] for a group that did not take part. *)
Definition group (s : str) (m : nat * caps) (i : nat) : option str :=
  match span_of i (snd m) with
  | Some (a, b) => Some (firstn (b - a) (skipn a s))
  | None => None
  end.

Definition Space : regex := Chr is_space.
Definition Digit : regex := Chr is_digit.
Definition Word : regex := Chr is_word.
(** [\s\s+]. *)
Definition Gap : regex := Seq Space (Plus Space).

(** The table [REGEX] (patterns are compiled with [re.VERBOSE], which
    drops the blanks outside character classes). *)
Definition re_total_time : regex :=
  Seqs [Lit1 "("; Digit; Digit; Lit1 ":"; Digit; Digit; Lit1 ")"]%char.
Definition re_task : regex :=
  Seq (Plus (Seq (Plus Word) (Opt (Lit1 " "%char)))) Word.
Definition re_date : regex :=
  Seqs [Plus Digit; Lit1 "-"; Plus Digit; Lit1 " "; Digit; Digit; Lit1 ":";
        Digit; Digit]%char.
Definition re_tags : regex :=
  Seq (Plus (Chr (fun c => is_word c || Ascii.eqb c " " || Ascii.eqb c ",")))
      Word.

(** [Task.regex]. *)
Definition Task_regex : regex :=
  Seqs [Opt re_total_time; Star Space; Group 1 re_task;
        Opt (Group 2 (Seq Gap re_date)); Opt (Group 3 (Seq Gap re_tags))].

(** [Entry.regex], the second of the two assignments in the class body. *)
Definition Entry_regex : regex :=
  Seqs [Opt re_total_time; Star Space; Group 1 re_task; Gap;
        Group 2 re_date; Gap; Group 3 (Alt (Lit (L "--")) re_date)].

(* ================================================================== *)
(** * Time utilities *)
(* ================================================================== *)

(** [str(n)] for an integer. *)
Definition str_of_Z (z : Z) : str :=
  list_ascii_of_string (DecimalString.NilZero.string_of_int (Z.to_int z)).

(** Zero padding to two columns, as ['%02d'] and ['{:02.0f}'] do: a sign
    counts as a column. *)
Definition pad2 (z : Z) : str :=
  match str_of_Z z with
  | [d] => ["0"%char; d]
  | s => s
  end.

(** [int(s)] on a string of digits, surrounding blanks allowed. *)
Definition int_of_str (s : str) : Z :=
  fold_left (fun acc c => acc * 10 + (Z.of_nat (nat_of_ascii c) - 48))
            (strip s) 0.

(** [fmt_time]: [strftime] with [TIME_FMT = '%m-%d %H:%M']. *)
Definition fmt_time (time : datetime) : str :=
  pad2 (month time) ++ L "-" ++ pad2 (day time) ++ L " "
  ++ pad2 (hour time) ++ L ":" ++ pad2 (minute time).

(** [fmt_delta].  [total_seconds()] is a float; its floor divisions agree
    with the integer ones below for every duration shorter than [2^33]
    seconds, which covers all dates of one year. *)
Definition fmt_delta (delta : timedelta) : str :=
  let hrs := delta / (3600 * 1000000) in
  let mins := (delta / (60 * 1000000)) mod 60 in
  L "(" ++ pad2 hrs ++ L ":" ++ pad2 mins ++ L ")".

(** The regular expressions [_strptime] builds for the directives. *)
Definition Range (a b : ascii) : regex :=
  Chr (fun c => (nat_of_ascii a <=? nat_of_ascii c)%nat
                && (nat_of_ascii c <=? nat_of_ascii b)%nat).
Definition re_pct_m : regex :=
  Alt (Seq (Lit1 "1") (Range "0" "2"))
      (Alt (Seq (Lit1 "0") (Range "1" "9")) (Range "1" "9")).
Definition re_pct_d : regex :=
  Alt (Seq (Lit1 "3") (Range "0" "1"))
      (Alt (Seq (Range "1" "2") Digit)
           (Alt (Seq (Lit1 "0") (Range "1" "9"))
                (Alt (Range "1" "9") (Seq (Lit1 " ") (Range "1" "9"))))).
Definition re_pct_H : regex :=
  Alt (Seq (Lit1 "2") (Range "0" "3"))
      (Alt (Seq (Range "0" "1") Digit) Digit).
Definition re_pct_M : regex :=
  Alt (Seq (Range "0" "5") Digit) Digit.

(** The pattern of ['%m-%d %H:%M']; a blank of the format stands for
    [\s+]. *)
Definition re_TIME_FMT : regex :=
  Seqs [Group 1 re_pct_m; Lit1 "-"; Group 2 re_pct_d; Plus Space;
        Group 3 re_pct_H; Lit1 ":"; Group 4 re_pct_M]%char.
(** The pattern of ['%H:%M']. *)
Definition re_HM : regex :=
  Seqs [Group 3 re_pct_H; Lit1 ":"; Group 4 re_pct_M]%char.

Definition group_int (s : str) (m : nat * caps) (i : nat) (default : Z) : Z :=
  match group s m i with
  | Some g => int_of_str g
  | None => default
  end.

(** [datetime.strptime(s, fmt)] for a format with pattern [r]: fields the
    format leaves out default to 1900-01-01 00:00, and the constructor
    rejects a day the month does not have in 1900. *)
Definition strptime (r : regex) (s : str) : result datetime :=
  match re_match r s with
  | None => Raise (ValueError (L "time data does not match format"))
  | Some m =>
      if negb (length s =? fst m)%nat
      then Raise (ValueError (L "unconverted data remains"))
      else
        let d := mkDT 1900 (group_int s m 1 1) (group_int s m 2 1)
                      (group_int s m 3 0) (group_int s m 4 0) 0 0 in
        if valid_datetime d then Ok d
        else Raise (ValueError (L "day is out of range for month"))
  end.

Definition replace_month_day (m d : Z) (t : datetime) : datetime :=
  mkDT (year t) m d (hour t) (minute t) (second t) (microsecond t).

Definition parse_time (string : str) : M World datetime :=
  let string := strip string in
  match strptime re_TIME_FMT string with
  | Ok t => ret (replace_year 2000 t)
  | Raise (ValueError _) =>
      now_ <- now ;;
      match strptime re_HM string with
      | Ok t =>
          ret (replace_month_day (month now_) (day now_) (replace_year 2000 t))
      | Raise e => raise e
      end
  | Raise e => raise e
  end.

(* ================================================================== *)
(** * Rendering and parsing the records *)
(* ================================================================== *)

(** The property [Entry.time]. *)
Definition Entry_time (e : Entry) : M World timedelta :=
  match end_ e with
  | None => n <- now ;; ret (dt_sub n (start e))
  | Some en => ret (dt_sub en (start e))
  end.

(** [Task.entries]. *)
Definition Task_entries (self : Task) (sheet : TymeSheet) : list Entry :=
  filter (fun e => str_eqb (task e) (name self)) (time sheet).

(** [Task.time]: [sum(..., timedelta())]. *)
Definition Task_time (self : Task) (sheet : TymeSheet) : M World timedelta :=
  ds <- mapM Entry_time (Task_entries self sheet) ;;
  ret (fold_left Z.add ds 0%Z).

Definition SEP3 : str := L "   ".

(** [Task.to_string]. *)
Definition Task_to_string (self : Task) (sheet : TymeSheet) : M World str :=
  d <- Task_time self sheet ;;
  let total := fmt_delta d in
  let name := ljust 20 (name self) in
  let deadline :=
    ljust 11 (match deadline self with
              | Some t => fmt_time t
              | None => []
              end) in
  let tags := join (L ", ") (tags self) in
  ret (strip (join SEP3 [total; name; deadline; tags])).

(** [Task.from_string]. *)
Definition Task_from_string (string : str) : M World Task :=
  match re_match Task_regex string with
  | None => raise (ParseError (L "Bad Task: " ++ string))
  | Some m =>
      let task := match group string m 1 with Some g => g | None => [] end in
      let tags :=
        match group string m 3 with
        | Some (c :: g) => split (L ", ") (strip (c :: g))
        | _ => []
        end in
      deadline <-
        match group string m 2 with
        | Some (c :: g) => t <- parse_time (c :: g) ;; ret (Some t)
        | _ => ret None
        end ;;
      ret (Task_init task tags deadline)
  end.

(** [Entry.__str__]. *)
Definition Entry_str (self : Entry) : M World str :=
  let end_ := match end_ self with
              | None => L "--"
              | Some t => fmt_time t
              end in
  d <- Entry_time self ;;
  ret (join SEP3 [fmt_delta d; ljust 20 (task self); fmt_time (start self);
                  end_]).

(** [Entry.from_string]. *)
Definition Entry_from_string (string : str) : M World Entry :=
  match re_match Entry_regex string with
  | None => raise (ParseError (L "Cannot parse entry:" ++ ["010"%char] ++ string))
  | Some m =>
      let task := match group string m 1 with Some g => g | None => [] end in
      let start := match group string m 2 with Some g => g | None => [] end in
      let end_ := match group string m 3 with Some g => g | None => [] end in
      start <- parse_time start ;;
      end_ <- (if str_eqb end_ (L "--") then ret None
               else t <- parse_time end_ ;; ret (Some t)) ;;
      Entry_init task start end_
  end.

(* ================================================================== *)
(** * The document codec *)
(* ================================================================== *)

Definition NL : ascii := "010"%char.
Definition CR : ascii := "013"%char.

(** Text mode with universal newlines: [\r\n] and [\r] read as [\n]. *)
Fixpoint universal_newlines (s : str) : str :=
  match s with
  | [] => []
  | c :: s' =>
      if Ascii.eqb c CR then
        match s' with
        | c' :: s'' =>
            if Ascii.eqb c' NL then NL :: universal_newlines s''
            else NL :: universal_newlines s'
        | [] => [NL]
        end
      else c :: universal_newlines s'
  end.

(** Iterating over a text file: the lines, each with its newline. *)
Fixpoint readlines (s : str) : list str :=
  match s with
  | [] => []
  | c :: s' =>
      if Ascii.eqb c NL then [c] :: readlines s'
      else match readlines s' with
           | [] => [[c]]
           | l :: ls => (c :: l) :: ls
           end
  end.

(** The local function [assert_match] of [from_file]. *)
Definition assert_match {St} (r : regex) (line : str) (fail_msg : str)
  : M St unit :=
  match re_match r line with
  | Some _ => ret tt
  | None => raise (ParseError (fail_msg ++ L ": " ++ line))
  end.

Definition re_rule : regex := AtLeast 10 (Lit1 "-"%char).
(** [r' {10,}%s' % break_word]. *)
Definition re_header (word : str) : regex :=
  Seq (AtLeast 10 (Lit1 " "%char)) (Lit word).

(** ['%s' % break_word], which is ['None'] for the last section. *)
Definition show_break_word (break_word : option str) : str :=
  match break_word with
  | Some w => w
  | None => L "None"
  end.

(** The local generator [parse] of [from_file], run to its end: the
    records it yields and the lines it leaves unread.  [next(file)] on an
    exhausted file raises [StopIteration], which a generator turns into
    [RuntimeError] (PEP 479). *)
Fixpoint parse {A} (from_string : str -> M World A)
  (break_word : option str) (file : list str) : M World (list A * list str) :=
  match file with
  | [] =>
      match break_word with
      | Some w => raise (ParseError (L "Missing section: " ++ w))
      | None => ret ([], [])
      end
  | line :: file' =>
      match re_match (re_header (show_break_word break_word)) line with
      | Some _ =>
          match file' with
          | [] => raise (RuntimeError (L "generator raised StopIteration"))
          | rule :: file'' =>
              assert_match re_rule rule (L "No line") ;;;
              ret ([], file'')
          end
      | None =>
          r <- from_string line ;;
          rest <- parse from_string break_word file' ;;
          ret (r :: fst rest, snd rest)
      end
  end.

(** [TymeSheet._validate]. *)
Definition check {St} (bul : bool) (msg : str) : M St unit :=
  if bul then ret tt else raise (ParseError msg).

Definition is_some {A} (o : option A) : bool :=
  match o with Some _ => true | None => false end.

Definition _validate {St} (sheet : TymeSheet) : M St unit :=
  _ <- mapM (fun t => check (is_some (end_ t)) (L "Unfinished nonfinal entry"))
            (removelast (time sheet)) ;;
  ret tt.

(** [next(file)] outside a generator. *)
Definition next_line {St} (file : list str) : M St (str * list str) :=
  match file with
  | [] => raise StopIteration
  | line :: file' => ret (line, file')
  end.

(** The three sections of a document, in the order [TymeSheet.__init__]
    consumes the generators. *)
Definition read_sections (text : str)
  : M World (list (str * Task) * list Entry * list (str * Task)) :=
  let file := filter (fun line => (2 <? length line)%nat)
                     (readlines (universal_newlines text)) in
  h <- next_line file ;;
  assert_match (re_header (L "Todo")) (fst h) (L "No Todo") ;;;
  r <- next_line (snd h) ;;
  assert_match re_rule (fst r) (L "No Todo line") ;;;
  todo <- parse Task_from_string (Some (L "Time")) (snd r) ;;
  time <- parse Entry_from_string (Some (L "Done")) (snd todo) ;;
  done <- parse Task_from_string None (snd time) ;;
  ret (map (fun t => (name t, t)) (fst todo), fst time,
       map (fun t => (name t, t)) (fst done)).

(** [TymeSheet.from_file], applied to the text of the file. *)
Definition from_file (text : str) : M World TymeSheet :=
  s <- read_sections text ;;
  let sheet := TymeSheet_init (fst (fst s)) (snd (fst s)) (snd s) in
  _validate sheet ;;;
  ret sheet.

(** [TymeSheet.__str__]. *)
Definition section (title : str) (lines : list str) : list str :=
  [center 70 title; repeat "-"%char 70] ++ lines ++ [[]].

Definition TymeSheet_str (sheet : TymeSheet) : M World str :=
  todo <- mapM (fun t => Task_to_string t sheet) (od_values (todo sheet)) ;;
  time <- mapM Entry_str (time sheet) ;;
  done <- mapM (fun t => Task_to_string t sheet) (od_values (done sheet)) ;;
  ret (join [NL] (section (L "Todo") todo ++ section (L "Time") time
                  ++ section (L "Done") done)).

(* ================================================================== *)
(** * Invariants of a sheet *)
(* ================================================================== *)

(** An entry that has ended did not end before it began. *)
Definition entry_ok (e : Entry) : bool :=
  match end_ e with
  | Some en => negb (dt_ltb en (start e))
  | None => true
  end.

Definition ends_after_starts (sheet : TymeSheet) : bool :=
  forallb entry_ok (time sheet).

(** Only the last entry may be open. *)
Definition open_only_last (sheet : TymeSheet) : bool :=
  forallb (fun e => is_some (end_ e)) (removelast (time sheet)).

(** No name is a key of both [todo] and [done]. *)
Definition todo_done_disjoint (sheet : TymeSheet) : bool :=
  forallb (fun k => negb (od_mem k (done sheet))) (od_keys (todo sheet)).

(** The methods of a sheet, as calls. *)
Inductive call : Type :=
| AddTask (name : str) (tags : list str)
| ClockIn (task : str) (time : option datetime)
| ClockOut (time : option datetime)
| CompleteTask (task_name : str) (time : option datetime).

Definition run (c : call) : M Store unit :=
  match c with
  | AddTask name tags => add_task name tags None
  | ClockIn task time => clock_in task time
  | ClockOut time => _ <- clock_out time ;; ret tt
  | CompleteTask task_name time => complete_task task_name time
  end.

(* ================================================================== *)
(** * Vocabulary of the statements *)
(* ================================================================== *)

(** The instant [time or now()] denotes, and the clock after it: an
    omitted time costs exactly one reading. *)
Definition instant (tm : option datetime) (w : World) : datetime :=
  match tm with
  | Some t => t
  | None => replace_year 2000 (wall_clock w (tick w))
  end.

Definition clock_after (tm : option datetime) (w : World) : World :=
  match tm with
  | Some _ => w
  | None => mkWorld (wall_clock w) (S (tick w))
  end.

(** Sample data. *)
Definition at_ (mo d h mi : Z) : datetime := mkDT 2000 mo d h mi 0 0.
Definition noon : World := mkWorld (fun _ => mkDT 2024 3 5 12 0 30 250) 0.

Definition report : Task := mkTask (L "write report") [L "work"] None.
Definition filed : Task := mkTask (L "file taxes") [L "home"] (Some (at_ 3 1 8 0)).

(** A sheet with one pending task, clocked in on it since 10:00. *)
Definition clocked_in : Store :=
  mkStore (mkSheet [(L "write report", report)]
                   [mkEntry (L "write report") (at_ 3 5 10 0) None]
                   [(L "file taxes", filed)])
          noon.

(** The statement of the specification about duplicate names. *)
Definition add_task_rejects_todo_or_done : Prop :=
  forall (s : Store) (name : str) (tags : list str),
    od_mem name (todo (self s)) || od_mem name (done (self s)) = true ->
    exists msg s', add_task name tags None s = (Raise (TymeError msg), s').

(** The three global invariants of a sheet. *)
Definition sheet_invariants (sheet : TymeSheet) : bool :=
  open_only_last sheet && ends_after_starts sheet && todo_done_disjoint sheet.

(** The round-trip statement of the specification. *)
Definition round_trip_for_all_sheets : Prop :=
  forall (sheet : TymeSheet) (w : World),
    od_ok (todo sheet) -> od_ok (done sheet) ->
    sheet_invariants sheet = true ->
    exists text w' w'',
      TymeSheet_str sheet w = (Ok text, w')
      /\ from_file text w' = (Ok sheet, w'').

(** A sheet as a session leaves it: the entry was begun with the time
    left out, at 12:00:30 on the wall clock, and ended at 12:45. *)
Definition morning : TymeSheet :=
  mkSheet [(L "write report", report)]
          [mkEntry (L "write report") (mkDT 2000 3 5 12 0 30 250)
                   (Some (at_ 3 5 12 45))]
          [].

Definition empty_sheet : TymeSheet := mkSheet [] [] [].

(** Two documents: an open entry buried in the log, and an open entry
    at its end. *)
Definition doc_open_first : str :=
  join [NL]
    [center 70 (L "Todo"); repeat "-"%char 70;
     L "(00:00)   write report";
     L "";
     center 70 (L "Time"); repeat "-"%char 70;
     L "(00:00)   write report           03-05 10:00   --";
     L "(00:00)   write report           03-05 11:00   --";
     L "";
     center 70 (L "Done"); repeat "-"%char 70;
     L ""].

Definition doc_open_last : str :=
  join [NL]
    [center 70 (L "Todo"); repeat "-"%char 70;
     L "(00:00)   write report";
     L "";
     center 70 (L "Time"); repeat "-"%char 70;
     L "(00:30)   write report           03-05 10:00   03-05 10:30";
     L "(00:00)   write report           03-05 11:00   --";
     L "";
     center 70 (L "Done"); repeat "-"%char 70;
     L ""].

(** The clock [w'] is the clock [w] after some readings. *)
Definition later (w w' : World) : Prop :=
  wall_clock w' = wall_clock w /\ (tick w <= tick w')%nat.

(** Vocabulary for reasoning about the matcher.  Two continuations agree
    on what can be reached from [pos] in [s]: after [n] characters the
    text left is [skipn n s]. *)
Definition agree (k1 k2 : cont) (pos : nat) (s : str) : Prop :=
  forall n c', (n <= length s)%nat ->
    k1 (pos + n)%nat c' (skipn n s) = k2 (pos + n)%nat c' (skipn n s).

(** The continuation of one turn of a loop begun at [pos]. *)
Definition guarded (pos : nat) (k : cont) : cont :=
  fun pos' c' s' => if (pos <? pos')%nat then k pos' c' s' else None.

(** The head of a text fails the test (or the text is over). *)
Definition stops_at (p : ascii -> bool) (s : str) : Prop :=
  match s with
  | [] => True
  | a :: _ => p a = false
  end.


(** ** Text that survives the round trip *)

(** What may follow a word character inside a task name: more word
    characters, or one blank and then a word character. *)
Fixpoint name_tail_ok (s : str) : bool :=
  match s with
  | [] => true
  | c :: s' =>
      if is_word c then name_tail_ok s'
      else Ascii.eqb c " "
           && match s' with
              | c' :: s'' => is_word c' && name_tail_ok s''
              | [] => false
              end
  end.

(** A name the pattern [re_task] matches as a whole: words separated by
    single blanks, two characters at least. *)
Definition is_name (s : str) : bool :=
  match s with
  | c :: s' => is_word c && negb (length s' =? 0)%nat && name_tail_ok s'
  | [] => false
  end.

(** The text after a name: no word character, nor a blank and then one. *)
Definition name_end (rest : str) : Prop :=
  match rest with
  | [] => True
  | c :: r => is_word c = false /\ stops_at is_word r
  end.

(** A tag that survives: a word. *)
Definition is_tag (s : str) : bool :=
  negb (length s =? 0)%nat && forallb is_word s.

(** The states of the matcher inside [re_task], [K] being what follows
    the pattern: before the closing [\w]; at the start of a further run
    of words; after a word character of a run. *)
Definition re_run : regex := Seq (Plus Word) (Opt (Lit1 " "%char)).
Definition task_close (K : cont) : cont := rmatch Word K.
Definition task_runs (K : cont) : cont := rmatch (Star re_run) (task_close K).
Definition task_blank (K : cont) : cont :=
  rmatch (Opt (Lit1 " "%char)) (task_runs K).
Definition task_word (K : cont) : cont := rmatch (Star Word) (task_blank K).

(** The entry of the table of two-digit numbers for [n]: [pad2 n] is two
    digits that read back as [n]. *)
Definition pad2_ok (n : Z) : bool :=
  match pad2 n with
  | [a; b] => is_digit a && is_digit b && (int_of_str [a; b] =? n)
  | _ => false
  end.

(** A timestamp the format can carry: a whole minute of the year 2000 on
    a day that also exists in 1900, the year [strptime] assumes (so not
    29 February). *)
Definition stamp_ok (t : datetime) : bool :=
  (year t =? 2000) && (second t =? 0) && (microsecond t =? 0)
  && valid_datetime (replace_year 1900 t).

(** No hyphen occurs in the text, so no date can start in it. *)
Definition no_dash (s : str) : bool :=
  forallb (fun ch => negb (Ascii.eqb "-" ch)) s.

(** The characters of the class [[\w ,]]. *)
Definition is_tagchar (ch : ascii) : bool :=
  is_word ch || Ascii.eqb ch " " || Ascii.eqb ch ",".

(** The two optional groups of [Task.regex]. *)
Definition re_deadline_group : regex := Group 2 (Seq Gap re_date).
Definition re_tags_group : regex := Group 3 (Seq Gap re_tags).

(** A duration [fmt_delta] writes as [(HH:MM)]: from zero up to a hundred
    hours. *)
Definition delta_ok (d : timedelta) : bool :=
  (0 <=? d) && (d <? 100 * 3600 * 1000000).

(** The blanks between a name and the next field: the padding to twenty
    columns and the separator. *)
Definition name_gap (nm : str) : nat := (20 - length nm + 3)%nat.

(** The line of a task, given its rendered total: the name, then the
    deadline and the tags, each with the blanks before it. *)
Definition deadline_part (nm : str) (dl : option datetime) : str :=
  match dl with
  | Some d => repeat " "%char (name_gap nm) ++ fmt_time d
  | None => []
  end.

Definition tags_gap (nm : str) (dl : option datetime) : nat :=
  match dl with
  | Some _ => 3
  | None => name_gap nm + 14
  end.

Definition tags_part (nm : str) (dl : option datetime) (tgs : list str) : str :=
  match tgs with
  | [] => []
  | _ :: _ => repeat " "%char (tags_gap nm dl) ++ join (L ", ") tgs
  end.

Definition Task_line (total : str) (t : Task) : str :=
  total ++ L "   " ++ name t
  ++ deadline_part (name t) (deadline t)
  ++ tags_part (name t) (deadline t) (tags t).

(** The line of an entry, given its rendered duration. *)
Definition Entry_line (total : str) (e : Entry) : str :=
  total ++ L "   " ++ task e
  ++ repeat " "%char (name_gap (task e)) ++ fmt_time (start e)
  ++ L "   "
  ++ match end_ e with
     | None => L "--"
     | Some t => fmt_time t
     end.

(** ** Sheets that survive the round trip *)

(** The duration of an entry and the total of a task when the clock
    reads [nw]. *)
Definition Entry_time_at (nw : datetime) (e : Entry) : timedelta :=
  match end_ e with
  | None => dt_sub nw (start e)
  | Some en => dt_sub en (start e)
  end.

Definition Task_time_at (nw : datetime) (t : Task) (sheet : TymeSheet)
  : timedelta :=
  fold_left Z.add (map (Entry_time_at nw) (Task_entries t sheet)) 0.

(** The reading [now()] takes from the clock at tick [n]. *)
Definition reading (w : World) (n : nat) : datetime :=
  replace_year 2000 (wall_clock w n).

(** Every duration the sheet shows is written as [(HH:MM)], whenever the
    clock is read from now on. *)
Definition durations_ok (sheet : TymeSheet) (w : World) : Prop :=
  forall n, (tick w <= n)%nat ->
    (forall e, In e (time sheet) ->
       delta_ok (Entry_time_at (reading w n) e) = true)
    /\ (forall t, In t (od_values (todo sheet) ++ od_values (done sheet)) ->
          delta_ok (Task_time_at (reading w n) t sheet) = true).

Definition opt_stamp_ok (o : option datetime) : bool :=
  match o with
  | Some t => stamp_ok t
  | None => true
  end.

Definition task_printable (t : Task) : bool :=
  is_name (name t) && forallb is_tag (tags t) && opt_stamp_ok (deadline t).

Definition entry_printable (e : Entry) : bool :=
  is_name (task e) && stamp_ok (start e) && opt_stamp_ok (end_ e).

(** Every task is filed under its own name. *)
Definition keyed_by_name (d : OrderedDict Task) : bool :=
  forallb (fun kt => str_eqb (fst kt) (name (snd kt))) d.

(** The text format can carry the sheet: names, tags and timestamps are
    of the shapes the line patterns read. *)
Definition printable (sheet : TymeSheet) : bool :=
  keyed_by_name (todo sheet) && keyed_by_name (done sheet)
  && forallb task_printable (od_values (todo sheet))
  && forallb task_printable (od_values (done sheet))
  && forallb entry_printable (time sheet).

(** A line is the rendering of a task, or of an entry, with some total. *)
Definition is_total (s : str) : Prop :=
  exists h1 h2 m1 m2,
    s = ["("; h1; h2; ":"; m1; m2; ")"]%char
    /\ is_digit h1 = true /\ is_digit h2 = true
    /\ is_digit m1 = true /\ is_digit m2 = true.

Definition task_line_of (t : Task) (line : str) : Prop :=
  exists total, is_total total /\ line = Task_line total t.

Definition entry_line_of (e : Entry) (line : str) : Prop :=
  exists total, is_total total /\ line = Entry_line total e.

Definition add_nl (line : str) : str := line ++ [NL].

Definition no_cr (s : str) : bool := forallb (fun ch => negb (Ascii.eqb ch CR)) s.
Definition no_nl (s : str) : bool := forallb (fun ch => negb (Ascii.eqb ch NL)) s.

(** The character starts no header and ends no line. *)
Definition plain_char (ch : ascii) : bool :=
  negb (Ascii.eqb ch NL) && negb (Ascii.eqb ch CR).

Definition rule : str := repeat "-"%char 70.

(** A line and the printable record it renders. *)
Definition task_row (t : Task) (line : str) : Prop :=
  task_printable t = true /\ task_line_of t line.

Definition entry_row (e : Entry) (line : str) : Prop :=
  (entry_printable e = true /\ entry_ok e = true) /\ entry_line_of e line.

(** A sheet the format carries, with its clock: the morning's work, the
    entry ended on the minute, and an afternoon entry still open. *)
Definition tidy : TymeSheet :=
  mkSheet [(L "write report", report)]
          [mkEntry (L "file taxes") (at_ 3 5 9 0) (Some (at_ 3 5 9 45));
           mkEntry (L "write report") (at_ 3 5 11 15) None]
          [(L "file taxes", filed)].

(** Sheets within the invariants that the format does not carry: an
    entry of a hundred and twenty hours, an entry begun on 29 February,
    and a task with a name of one letter. *)
Definition long_haul : TymeSheet :=
  mkSheet []
          [mkEntry (L "write report") (at_ 3 1 0 0) (Some (at_ 3 6 0 0))]
          [].

Definition leap_day : TymeSheet :=
  mkSheet []
          [mkEntry (L "write report") (at_ 2 29 9 0) (Some (at_ 2 29 9 45))]
          [].

Definition one_letter : TymeSheet :=
  mkSheet [(L "x", mkTask (L "x") [] None)] [] [].

(** Serialize, then parse what was written. *)
Definition there_and_back (sheet : TymeSheet) : M World TymeSheet :=
  (text <- TymeSheet_str sheet ;; from_file text)%prog.

(** ** Documents with an open entry that is not the last *)

(** The lines [from_file] iterates over. *)
Definition kept_lines (text : str) : list str :=
  filter (fun line => (2 <? length line)%nat)
         (readlines (universal_newlines text)).

(** The lines after the header [word] and its rule. *)
Fixpoint after_header (word : str) (lines : list str) : list str :=
  match lines with
  | [] => []
  | line :: rest =>
      if is_some (re_match (re_header word) line) then tl rest
      else after_header word rest
  end.

(** The lines before the header [word]. *)
Fixpoint up_to_header (word : str) (lines : list str) : list str :=
  match lines with
  | [] => []
  | line :: rest =>
      if is_some (re_match (re_header word) line) then []
      else line :: up_to_header word rest
  end.

(** The time section of a document: the lines between the header [Time]
    and the header [Done]. *)
Definition time_section (text : str) : list str :=
  up_to_header (L "Done") (after_header (L "Time") (kept_lines text)).

(** The line is an entry with a null end: [Entry.regex] matches it and
    its third group is [--]. *)
Definition is_open_entry_line (line : str) : bool :=
  match re_match Entry_regex line with
  | Some m =>
      match group line m 3 with
      | Some g => str_eqb g (L "--")
      | None => false
      end
  | None => false
  end.

(** The time section has an entry with a null end before its last line. *)
Definition open_before_last (text : str) : bool :=
  existsb is_open_entry_line (removelast (time_section text)).

(** The statement of the specification about such documents. *)
Definition open_nonfinal_always_rejected : Prop :=
  forall (text : str) (w : World),
    open_before_last text = true ->
    exists w',
      from_file text w
      = (Raise (ParseError (L "Unfinished nonfinal entry")), w').

(** Two documents with two open entries: one that stops after the time
    section, and one whose first entry is dated 29 February. *)
Definition doc_open_cut : str :=
  join [NL]
    [center 70 (L "Todo"); repeat "-"%char 70;
     L "(00:00)   write report";
     L "";
     center 70 (L "Time"); repeat "-"%char 70;
     L "(00:00)   write report           03-05 10:00   --";
     L "(00:00)   write report           03-05 11:00   --";
     L ""].

Definition doc_open_leap : str :=
  join [NL]
    [center 70 (L "Todo"); repeat "-"%char 70;
     L "(00:00)   write report";
     L "";
     center 70 (L "Time"); repeat "-"%char 70;
     L "(00:00)   write report           02-29 10:00   --";
     L "(00:00)   write report           03-05 11:00   --";
     L "";
     center 70 (L "Done"); repeat "-"%char 70;
     L ""].

(** The exception is not the one [_validate] raises: no other message of
    the reader begins with a [U]. *)
Definition before_validation (e : exn) : bool :=
  match e with
  | ParseError (c :: _) => negb (Ascii.eqb c "U")
  | _ => true
  end.

(* ================================================================== *)
(** * Vocabulary of the further properties *)
(* ================================================================== *)

(** The instant a call would write as the end of the open entry. *)
Definition closes_at (c : call) (w : World) : option datetime :=
  match c with
  | AddTask _ _ => None
  | ClockIn _ tm | ClockOut tm | CompleteTask _ tm => Some (instant tm w)
  end.

(** The sheet a call leaves behind, whether it raises or not. *)
Definition after (c : call) (s : Store) : Store := snd (run c s).

(** The part of a task's total that one closed entry contributes. *)
Definition share (n : str) (t1 t2 : datetime) (tk : Task) : timedelta :=
  if str_eqb n (name tk) then dt_sub t2 t1 else 0.

(** A sheet at rest, and a session on it. *)
Definition at_rest : Store :=
  mkStore (mkSheet [(L "write report", report)]
                   [mkEntry (L "write report") (at_ 3 5 10 0)
                            (Some (at_ 3 5 10 30))]
                   [(L "file taxes", filed)])
          noon.

(** A time of day as it is typed: [HH:MM]. *)
Definition clock_text (h m : Z) : str := pad2 h ++ L ":" ++ pad2 m.

(** The entry of the table of times of day for [h] and [m]: the text is
    no date to [strptime], and reads as the time [h]:[m] of the default
    day. *)
Definition clock_text_ok (h m : Z) : bool :=
  let s := strip (clock_text h m) in
  match strptime re_TIME_FMT s, strptime re_HM s with
  | Raise (ValueError _), Ok d =>
      (year d =? 1900) && (month d =? 1) && (day d =? 1)
      && (hour d =? h) && (minute d =? m)
      && (second d =? 0) && (microsecond d =? 0)
  | _, _ => false
  end.

(** The entry of the table for 29 February at [h]:[m]: [strptime] reads
    the text neither as a date nor as a time of day. *)
Definition leap_text_fails (h m : Z) : bool :=
  let s := strip (fmt_time (mkDT 2000 2 29 h m 0 0)) in
  match strptime re_TIME_FMT s, strptime re_HM s with
  | Raise _, Raise _ => true
  | _, _ => false
  end.

Definition is_Ok {A} (r : result A) : bool :=
  match r with Ok _ => true | Raise _ => false end.

(** A timestamp of the year 2000 on a whole minute. *)
Definition whole_minute (t : datetime) : bool :=
  (year t =? 2000) && (second t =? 0) && (microsecond t =? 0).

Definition opt_whole_minute (o : option datetime) : bool :=
  match o with
  | Some t => whole_minute t
  | None => true
  end.

(** Every deadline, start and end of the sheet is a whole minute of the
    year 2000. *)
Definition whole_minutes (sheet : TymeSheet) : bool :=
  forallb (fun t => opt_whole_minute (deadline t)) (od_values (todo sheet))
  && forallb (fun t => opt_whole_minute (deadline t)) (od_values (done sheet))
  && forallb (fun e => whole_minute (start e) && opt_whole_minute (end_ e))
             (time sheet).

(** A run of task switches: [clock_in] on each name at the time given
    with it, in order. *)
Fixpoint clock_ins (l : list (str * datetime)) : M Store unit :=
  match l with
  | [] => ret tt
  | (n, t) :: l' => (clock_in n (Some t) ;;; clock_ins l')%prog
  end.

(** The timeline of a run of switches: each entry ends when the next one
    begins, and the last one is open. *)
Fixpoint timeline (l : list (str * datetime)) : list Entry :=
  match l with
  | [] => []
  | (n, t) :: l' =>
      mkEntry n t (match l' with
                   | [] => None
                   | (_, t') :: _ => Some t'
                   end) :: timeline l'
  end.

(* ================================================================== *)
(** * More of the source *)
(* ================================================================== *)

(** [class OrderedSet(OrderedDict)], with strings as elements: every
    element is a key, with the value [None]. *)
Definition OrderedSet : Type := OrderedDict unit.

(** [OrderedSet.__init__]. *)
Definition OrderedSet_init (elts : list str) : OrderedSet :=
  od_of_pairs (map (fun elt => (elt, tt)) elts).

(** [OrderedSet.add]. *)
Definition OrderedSet_add (elt : str) : M OrderedSet unit :=
  (present <- gets (od_mem elt) ;;
   if present then raise (ValueError (L "Element already in set."))
   else modify (od_set elt tt))%prog.

(** The task name of a command line: [' '.join(args.task)] in
    [commands.py]. *)
Definition task_argument (words : list str) : str := join (L " ") words.

(** The arguments of a call are of the shapes the document carries: the
    name and the tags of a new task, the name a clock is started on, and
    the instant the call works with. *)
Definition call_printable (c : call) (w : World) : bool :=
  match c with
  | AddTask n tg => is_name n && forallb is_tag tg
  | ClockIn n tm => is_name n && stamp_ok (instant tm w)
  | ClockOut tm | CompleteTask _ tm => stamp_ok (instant tm w)
  end.

(** An entry after a call, against the entry it was: the same task and
    start, and the very same entry if it was closed. *)
Definition same_record (e e' : Entry) : Prop :=
  task e' = task e /\ start e' = start e /\ (end_ e <> None -> e' = e).

(* ================================================================== *)
(** * Basic facts *)
(* ================================================================== *)

Lemma str_eqb_eq (a b : str) : str_eqb a b = true <-> a = b.
Proof.
  revert b; induction a as [|x a IH]; intros [|y b]; simpl;
    try (split; (discriminate || reflexivity)).
  rewrite andb_true_iff, Ascii.eqb_eq, IH.
  split; [intros [-> ->]; reflexivity | intros H; inversion H; auto].
Qed.

Lemma str_eqb_refl (a : str) : str_eqb a a = true.
Proof. apply str_eqb_eq; reflexivity. Qed.

Lemma str_eqb_neq (a b : str) : str_eqb a b = false <-> a <> b.
Proof.
  rewrite <- str_eqb_eq. destruct (str_eqb a b); split; congruence.
Qed.

(** Turn the boolean tests on strings in the context into (in)equalities. *)
Ltac str_eqb_hyps :=
  repeat match goal with
         | H : str_eqb _ _ = true |- _ => apply str_eqb_eq in H
         | H : str_eqb _ _ = false |- _ => apply str_eqb_neq in H
         end.

Section OrderedDictFacts.
Context {V : Type}.
Implicit Types (d : OrderedDict V) (k : str) (v : V).

Lemma od_mem_In k d : od_mem k d = true <-> In k (od_keys d).
Proof.
  unfold od_mem, od_keys. rewrite existsb_exists, in_map_iff.
  split.
  - intros [kv [Hin Heq]]. apply str_eqb_eq in Heq. exists kv; auto.
  - intros [kv [Heq Hin]]. exists kv. split; auto.
    apply str_eqb_eq; auto.
Qed.

Lemma od_mem_false k d : od_mem k d = false <-> ~ In k (od_keys d).
Proof.
  rewrite <- od_mem_In. destruct (od_mem k d); split; congruence.
Qed.

Lemma od_get_mem k d : od_mem k d = is_some (od_get k d).
Proof.
  induction d as [|[k' v'] d IH]; simpl; auto.
  destruct (str_eqb k k'); simpl; auto.
Qed.

Lemma od_get_None k d : od_get k d = None <-> od_mem k d = false.
Proof. rewrite od_get_mem. destruct (od_get k d); simpl; split; congruence. Qed.

(** Setting a new key appends the item. *)
Lemma od_set_fresh k v d :
  od_mem k d = false -> od_set k v d = d ++ [(k, v)].
Proof.
  induction d as [|[k' v'] d IH]; simpl; auto.
  destruct (str_eqb k k'); simpl; [discriminate|].
  intros H. rewrite IH; auto.
Qed.

Lemma od_get_set_same k v d : od_get k (od_set k v d) = Some v.
Proof.
  induction d as [|[k' v'] d IH]; simpl.
  - rewrite str_eqb_refl; reflexivity.
  - destruct (str_eqb k k') eqn:E; simpl; rewrite E; auto.
Qed.

(** Deleting removes the key and nothing else. *)
Lemma od_mem_del k k' d :
  od_mem k' (od_del k d) = negb (str_eqb k k') && od_mem k' d.
Proof.
  unfold od_del. induction d as [|[k0 v0] d IH]; simpl.
  - rewrite andb_false_r; reflexivity.
  - destruct (str_eqb k k0) eqn:E; simpl; rewrite ?IH;
      destruct (str_eqb k' k0) eqn:E'; destruct (str_eqb k k') eqn:E'';
      simpl; auto; exfalso; str_eqb_hyps; congruence.
Qed.

Lemma od_of_pairs_fold (l acc : list (str * V)) :
  NoDup (od_keys (acc ++ l)) ->
  fold_left (fun d kv => od_set (fst kv) (snd kv) d) l acc = acc ++ l.
Proof.
  revert acc; induction l as [|[k v] l IH]; intros acc Hnd; simpl.
  - rewrite app_nil_r; reflexivity.
  - rewrite od_set_fresh.
    + rewrite IH; rewrite <- app_assoc; auto.
    + apply od_mem_false. unfold od_keys in *. rewrite map_app in Hnd.
      simpl in Hnd. apply NoDup_remove_2 in Hnd.
      intros Hin. apply Hnd. apply in_or_app; auto.
Qed.

(** Building a dictionary from items with distinct keys keeps them. *)
Lemma od_of_pairs_id d : od_ok d -> od_of_pairs d = d.
Proof. intros H. unfold od_of_pairs. rewrite od_of_pairs_fold; auto. Qed.

Lemma od_ok_filter (p : str * V -> bool) d : od_ok d -> od_ok (filter p d).
Proof.
  unfold od_ok, od_keys. induction d as [|kv d IH]; simpl; auto.
  intros H. inversion H as [|? ? Hnotin Hnd]; subst.
  destruct (p kv); simpl; auto.
  constructor; auto.
  intros Hin. apply Hnotin. apply in_map_iff in Hin.
  destruct Hin as [x [Hx Hin]]. apply filter_In in Hin.
  apply in_map_iff. exists x; tauto.
Qed.
End OrderedDictFacts.

(** [subset a b] says every element of [a] occurs in [b]. *)
Lemma subset_spec (a b : list str) :
  subset a b = true <-> forall x, In x a -> In x b.
Proof.
  unfold subset. rewrite forallb_forall. split; intros H x Hx.
  - specialize (H x Hx). apply existsb_exists in H.
    destruct H as [y [Hy E]]. apply str_eqb_eq in E; subst; auto.
  - apply existsb_exists. exists x. split; auto. apply str_eqb_refl.
Qed.

Lemma set_last_end_app (t : datetime) (init : list Entry) (e : Entry) :
  set_last_end t (init ++ [e]) = init ++ [set_end t e].
Proof.
  induction init as [|x init IH]; simpl; auto.
  rewrite IH. destruct init; reflexivity.
Qed.

(** The current entry, when there is one, is the last entry and is open. *)
Lemma current_entry_Some sheet e :
  current_entry sheet = Some e <->
  exists init, time sheet = init ++ [e] /\ end_ e = None.
Proof.
  unfold current_entry. split.
  - destruct (rev (time sheet)) as [|x l] eqn:E; [discriminate|].
    destruct (end_ x) eqn:Ex; [discriminate|]. intros [= <-].
    exists (rev l). split; auto.
    rewrite <- (rev_involutive (time sheet)), E. reflexivity.
  - intros [init [-> He]]. rewrite rev_app_distr; simpl. rewrite He; auto.
Qed.

(* ================================================================== *)
(** * The operations of a sheet, run *)
(* ================================================================== *)

Lemma or_now_run tm w :
  or_now tm w = (Ok (instant tm w), clock_after tm w).
Proof. destruct tm; reflexivity. Qed.

(** What [clock_out] does when there is a current entry. *)
Lemma clock_out_open (tm : option datetime) (s : Store) (e : Entry) :
  current_entry (self s) = Some e ->
  clock_out tm s =
  (Ok (task e),
   mkStore (mkSheet (todo (self s))
                    (set_last_end (instant tm (world s)) (time (self s)))
                    (done (self s)))
           (clock_after tm (world s))).
Proof.
  intros H. unfold clock_out, bind, gets, lift, modify, ret. rewrite H.
  destruct s as [sh w]; simpl. destruct tm as [t|]; reflexivity.
Qed.

Lemma clock_out_closed (tm : option datetime) (s : Store) :
  current_entry (self s) = None ->
  clock_out tm s = (Raise (TymeError (L "Not clocked in.")), s).
Proof.
  intros H. unfold clock_out, bind, gets, raise. rewrite H. reflexivity.
Qed.

(** [clock_in] in one step: close the current entry, if any, at the
    instant, then append the new open entry. *)
Lemma clock_in_run (name : str) (tm : option datetime) (s : Store) :
  clock_in name tm s =
  (Ok tt,
   mkStore
     (mkSheet (todo (self s))
        ((match current_entry (self s) with
          | Some _ => set_last_end (instant tm (world s)) (time (self s))
          | None => time (self s)
          end) ++ [mkEntry name (instant tm (world s)) None])
        (done (self s)))
     (clock_after tm (world s))).
Proof.
  destruct s as [[td ti dn] w].
  unfold clock_in, bind at 1, lift. simpl world. rewrite or_now_run.
  unfold bind at 1, gets. simpl self.
  destruct (current_entry (mkSheet td ti dn)) as [e|] eqn:Hc.
  - unfold bind at 1. unfold bind at 1.
    rewrite (clock_out_open _ _ e) by exact Hc. simpl.
    unfold ret, bind, Entry_init, ret, modify, with_time. simpl. reflexivity.
  - unfold bind, ret, Entry_init, modify, with_time. simpl. reflexivity.
Qed.

(* ================================================================== *)
(** * Entry construction *)
(* ================================================================== *)

Lemma lex_ltb_irrefl (a : list Z) : lex_ltb a a = false.
Proof.
  induction a as [|x a IH]; simpl; auto.
  rewrite Z.ltb_irrefl, Z.eqb_refl, IH. reflexivity.
Qed.

Lemma lex_ltb_asym (a b : list Z) :
  lex_ltb a b = true -> lex_ltb b a = false.
Proof.
  revert b; induction a as [|x a IH]; intros [|y b]; simpl; auto.
  intros H. apply orb_true_iff in H. destruct H as [H|H].
  - apply Z.ltb_lt in H.
    assert ((y <? x) = false) as -> by (apply Z.ltb_ge; lia).
    assert ((y =? x) = false) as -> by (apply Z.eqb_neq; lia).
    reflexivity.
  - apply andb_true_iff in H. destruct H as [E H]. apply Z.eqb_eq in E.
    subst y. rewrite Z.ltb_irrefl, Z.eqb_refl. simpl. auto.
Qed.

Lemma dt_ltb_irrefl (a : datetime) : dt_ltb a a = false.
Proof. apply lex_ltb_irrefl. Qed.

Lemma dt_ltb_asym (a b : datetime) : dt_ltb a b = true -> dt_ltb b a = false.
Proof. apply lex_ltb_asym. Qed.

(** C9.  Constructing an Entry whose end is strictly earlier than its
    start raises TymeError; construction succeeds when the end equals the
    start, when it is later than the start, and when there is no end. *)
Theorem Entry_init_guard (St : Type) (name : str) (st : datetime) (s : St) :
  (forall e, dt_ltb e st = true ->
     Entry_init name st (Some e) s =
     (Raise (TymeError (L "Entry cannot end before it begins!")), s))
  /\ Entry_init name st (Some st) s = (Ok (mkEntry name st (Some st)), s)
  /\ (forall e, dt_ltb st e = true ->
        Entry_init name st (Some e) s = (Ok (mkEntry name st (Some e)), s))
  /\ Entry_init name st None s = (Ok (mkEntry name st None), s).
Proof.
  unfold Entry_init. repeat split.
  - intros e H. rewrite H. reflexivity.
  - rewrite dt_ltb_irrefl. reflexivity.
  - intros e H. rewrite (dt_ltb_asym _ _ H). reflexivity.
Qed.

Lemma Entry_init_guard_witness :
  Entry_init (L "write report") (at_ 3 5 10 0) (Some (at_ 3 5 9 0)) tt =
    (Raise (TymeError (L "Entry cannot end before it begins!")), tt)
  /\ Entry_init (L "write report") (at_ 3 5 9 0) (Some (at_ 3 5 10 0)) tt =
     (Ok (mkEntry (L "write report") (at_ 3 5 9 0) (Some (at_ 3 5 10 0))), tt).
Proof.
  split.
  - apply (Entry_init_guard unit (L "write report") (at_ 3 5 10 0) tt).
    reflexivity.
  - apply (Entry_init_guard unit (L "write report") (at_ 3 5 9 0) tt).
    reflexivity.
Defined.

(* ================================================================== *)
(** * Clocking in *)
(* ================================================================== *)

(** C10.  [clock_in] never raises, whatever the task name: the todo and
    done collections are neither consulted nor changed, and the new open
    entry, which carries the name as given, is appended to the time log.
    With nothing open the log is the old one followed by the new entry;
    with an open entry [e] last, it is the old one with [e] closed at the
    instant of the call, followed by the new entry.  Nothing else of the
    log changes, and it grows by exactly one entry. *)
Theorem clock_in_never_raises (name : str) (tm : option datetime) (s : Store) :
  let t := instant tm (world s) in
  exists s',
    clock_in name tm s = (Ok tt, s')
    /\ todo (self s') = todo (self s)
    /\ done (self s') = done (self s)
    /\ world s' = clock_after tm (world s)
    /\ (current_entry (self s) = None ->
          time (self s') = time (self s) ++ [mkEntry name t None])
    /\ (forall init e,
          time (self s) = init ++ [e] -> end_ e = None ->
          time (self s') =
          init ++ [mkEntry (task e) (start e) (Some t); mkEntry name t None])
    /\ length (time (self s')) = S (length (time (self s)))
    /\ current_entry (self s') = Some (mkEntry name t None).
Proof.
  cbv zeta. eexists. split; [apply clock_in_run|]. cbn [self world todo done time].
  split; [reflexivity|]. split; [reflexivity|]. split; [reflexivity|].
  split; [|split; [|split]].
  - intros Hc. rewrite Hc. reflexivity.
  - intros init e Ht He.
    assert (Hc : current_entry (self s) = Some e)
      by (apply current_entry_Some; exists init; auto).
    rewrite Hc, Ht, set_last_end_app, <- app_assoc. reflexivity.
  - rewrite length_app. cbn [length].
    destruct (current_entry (self s)) as [e|] eqn:Hc; [|lia].
    apply current_entry_Some in Hc. destruct Hc as [init [Ht He]].
    rewrite Ht, set_last_end_app, !length_app. cbn [length]. lia.
  - apply current_entry_Some. eexists; split; reflexivity.
Qed.

(** On a sheet that knows no task at all. *)
Lemma clock_in_never_raises_witness :
  exists s',
    clock_in (L "walk the dog") (Some (at_ 3 5 9 0)) (mkStore empty_sheet noon)
    = (Ok tt, s')
    /\ time (self s') = [mkEntry (L "walk the dog") (at_ 3 5 9 0) None]
    /\ todo (self s') = [] /\ done (self s') = [].
Proof.
  destruct (clock_in_never_raises (L "walk the dog") (Some (at_ 3 5 9 0))
              (mkStore empty_sheet noon))
    as [s' [E [Ht [Hd [_ [Hl _]]]]]].
  exists s'. split; [exact E|]. split; [|split].
  - apply (Hl eq_refl).
  - exact Ht.
  - exact Hd.
Defined.

(** C4.  With an open entry [e] at the end of the time log, [clock_in]
    at time [t] sets the end of [e] to [t] and appends an open entry
    starting at [t]: the boundary times are equal.  With the time left
    out, one reading of the clock serves for both. *)
Theorem clock_in_closes_current (name : str) (s : Store)
  (init : list Entry) (e : Entry) :
  time (self s) = init ++ [e] -> end_ e = None ->
  (forall t,
     clock_in name (Some t) s =
     (Ok tt,
      mkStore (mkSheet (todo (self s))
                 (init ++ [mkEntry (task e) (start e) (Some t);
                           mkEntry name t None])
                 (done (self s)))
              (world s)))
  /\ (let w := world s in
      let t := replace_year 2000 (wall_clock w (tick w)) in
      clock_in name None s =
      (Ok tt,
       mkStore (mkSheet (todo (self s))
                  (init ++ [mkEntry (task e) (start e) (Some t);
                            mkEntry name t None])
                  (done (self s)))
               (mkWorld (wall_clock w) (S (tick w))))).
Proof.
  intros Ht He.
  assert (Hc : current_entry (self s) = Some e)
    by (apply current_entry_Some; exists init; auto).
  split; [intros t|]; cbv zeta; rewrite clock_in_run, Hc, Ht,
    set_last_end_app, <- app_assoc; reflexivity.
Qed.

Lemma clock_in_closes_current_witness :
  clock_in (L "file taxes") (Some (at_ 3 5 11 30)) clocked_in =
  (Ok tt,
   mkStore (mkSheet [(L "write report", report)]
              [mkEntry (L "write report") (at_ 3 5 10 0) (Some (at_ 3 5 11 30));
               mkEntry (L "file taxes") (at_ 3 5 11 30) None]
              [(L "file taxes", filed)])
           noon).
Proof.
  apply (clock_in_closes_current (L "file taxes") clocked_in []
           (mkEntry (L "write report") (at_ 3 5 10 0) None));
    reflexivity.
Defined.

(* ================================================================== *)
(** * Adding a task *)
(* ================================================================== *)

(** C2, as stated: a name held by [done] alone is accepted. *)
Lemma add_task_accepts_done_name : ~ add_task_rejects_todo_or_done.
Proof.
  intros H.
  destruct (H clocked_in (L "file taxes") []) as [msg [s' E]];
    [reflexivity | discriminate E].
Qed.

Lemma add_task_present (name : str) (tgs : list str) (s : Store) :
  od_mem name (todo (self s)) = true ->
  add_task name tgs None s =
  (Raise (TymeError (L "That task already exists.")), s).
Proof.
  intros H. unfold add_task, bind, gets, raise. rewrite H. reflexivity.
Qed.

Lemma add_task_absent (name : str) (tgs : list str) (s : Store) :
  od_mem name (todo (self s)) = false ->
  add_task name tgs None s =
  (Ok tt,
   mkStore (mkSheet (todo (self s) ++ [(name, mkTask name tgs None)])
                    (time (self s)) (done (self s)))
           (world s)).
Proof.
  intros H. unfold add_task, bind, gets, modify, with_todo, Task_init.
  rewrite H. rewrite od_set_fresh by exact H. reflexivity.
Qed.

(** C2, amended.  [add_task] raises TymeError exactly when the name is a
    key of [todo]; otherwise, also when [done] holds the name, it puts a
    new pending task with the given tags and no deadline at the end of
    [todo] and changes nothing else. *)
Theorem add_task_spec (name : str) (tgs : list str) (s : Store) :
  (od_mem name (todo (self s)) = true ->
     add_task name tgs None s =
     (Raise (TymeError (L "That task already exists.")), s))
  /\ (od_mem name (todo (self s)) = false ->
        add_task name tgs None s =
        (Ok tt,
         mkStore (mkSheet (todo (self s) ++ [(name, mkTask name tgs None)])
                          (time (self s)) (done (self s)))
                 (world s))).
Proof.
  split; [apply add_task_present | apply add_task_absent].
Qed.

Lemma add_task_spec_witness :
  add_task (L "write report") [] None clocked_in =
    (Raise (TymeError (L "That task already exists.")), clocked_in)
  /\ add_task (L "file taxes") [L "home"] None clocked_in =
     (Ok tt,
      mkStore (mkSheet [(L "write report", report);
                        (L "file taxes", mkTask (L "file taxes") [L "home"] None)]
                       [mkEntry (L "write report") (at_ 3 5 10 0) None]
                       [(L "file taxes", filed)])
              noon).
Proof.
  split.
  - apply (add_task_spec (L "write report") [] clocked_in). reflexivity.
  - apply (add_task_spec (L "file taxes") [L "home"] clocked_in). reflexivity.
Defined.

(* ================================================================== *)
(** * Clocking out *)
(* ================================================================== *)

(** [clock_out] does not compare the time with the start of the entry:
    any earlier time is taken, and the invariant is lost. *)
Lemma clock_out_unchecked (s : Store) (e : Entry) (t : datetime) :
  current_entry (self s) = Some e -> dt_ltb t (start e) = true ->
  exists s',
    clock_out (Some t) s = (Ok (task e), s')
    /\ ends_after_starts (self s') = false.
Proof.
  intros Hc Hlt. eexists. split; [apply (clock_out_open _ _ e Hc)|].
  apply current_entry_Some in Hc. destruct Hc as [init [Ht He]].
  unfold ends_after_starts. simpl. rewrite Ht, set_last_end_app.
  rewrite forallb_app. simpl. unfold entry_ok at 2. simpl.
  rewrite Hlt. simpl. apply andb_false_r.
Qed.

(** C3, at the failing input: clocking out at 09:00 of an entry begun at
    10:00 succeeds and leaves an entry that ends before it begins. *)
Lemma clock_out_before_start :
  ends_after_starts (self clocked_in) = true
  /\ clock_out (Some (at_ 3 5 9 0)) clocked_in =
     (Ok (L "write report"),
      mkStore (mkSheet [(L "write report", report)]
                 [mkEntry (L "write report") (at_ 3 5 10 0) (Some (at_ 3 5 9 0))]
                 [(L "file taxes", filed)])
              noon)
  /\ ends_after_starts
       (self (snd (clock_out (Some (at_ 3 5 9 0)) clocked_in))) = false.
Proof. repeat split. Qed.

(* ================================================================== *)
(** * Completing a task *)
(* ================================================================== *)

Lemma complete_task_missing (task_name : str) (tm : option datetime)
  (s : Store) :
  od_mem task_name (todo (self s)) = false ->
  complete_task task_name tm s = (Raise (TymeError (L "No such task.")), s).
Proof.
  intros H. apply od_get_None in H.
  unfold complete_task, bind, gets, od_pop. rewrite H. reflexivity.
Qed.

Lemma complete_task_present (task_name : str) (tm : option datetime)
  (s : Store) (tk : Task) :
  od_get task_name (todo (self s)) = Some tk ->
  complete_task task_name tm s =
  (Ok tt,
   mkStore
     (mkSheet (od_del task_name (todo (self s)))
        (match current_entry (self s) with
         | Some e => if str_eqb (task e) task_name
                     then set_last_end (instant tm (world s)) (time (self s))
                     else time (self s)
         | None => time (self s)
         end)
        (od_set task_name (set_deadline (instant tm (world s)) tk)
                (done (self s))))
     (clock_after tm (world s))).
Proof.
  intros H. destruct s as [[td ti dn] w]. simpl in *.
  unfold complete_task, bind at 1, gets, od_pop. simpl. rewrite H.
  unfold bind at 1, modify, with_todo. simpl.
  unfold bind at 1, lift. simpl. rewrite or_now_run.
  unfold bind at 1, with_done. simpl.
  unfold bind at 1. simpl.
  change (current_entry
            (mkSheet (od_del task_name td) ti
               (od_set task_name (set_deadline (instant tm w) tk) dn)))
    with (current_entry (mkSheet td ti dn)).
  destruct (current_entry (mkSheet td ti dn)) as [e|] eqn:Hc;
    [|reflexivity].
  destruct (str_eqb (task e) task_name); [|reflexivity].
  unfold bind. rewrite (clock_out_open _ _ e) by exact Hc. reflexivity.
Qed.

(** C5.  [complete_task] raises TymeError ("No such task.") exactly when
    the name is not a key of [todo], and then changes nothing.  Otherwise
    it succeeds: the name leaves [todo], [done] maps it to the task with
    its deadline set to the instant [t]; an open entry for this task gets
    [t] as its end, and in every other case the time log is untouched. *)
Theorem complete_task_spec (task_name : str) (tm : option datetime)
  (s : Store) :
  let t := instant tm (world s) in
  ((exists e, fst (complete_task task_name tm s) = Raise e)
     <-> od_mem task_name (todo (self s)) = false)
  /\ (od_mem task_name (todo (self s)) = false ->
        complete_task task_name tm s =
        (Raise (TymeError (L "No such task.")), s))
  /\ (forall tk, od_get task_name (todo (self s)) = Some tk ->
        exists s',
          complete_task task_name tm s = (Ok tt, s')
          /\ todo (self s') = od_del task_name (todo (self s))
          /\ od_mem task_name (todo (self s')) = false
          /\ done (self s') =
             od_set task_name (mkTask (name tk) (tags tk) (Some t))
                    (done (self s))
          /\ od_get task_name (done (self s')) =
             Some (mkTask (name tk) (tags tk) (Some t))
          /\ (forall init e,
                time (self s) = init ++ [e] -> end_ e = None ->
                task e = task_name ->
                time (self s') = init ++ [mkEntry (task e) (start e) (Some t)])
          /\ (forall init e,
                time (self s) = init ++ [e] -> end_ e = None ->
                task e <> task_name ->
                time (self s') = time (self s))
          /\ (current_entry (self s) = None -> time (self s') = time (self s))).
Proof.
  cbv zeta. split; [|split].
  - split.
    + intros [e He]. destruct (od_get task_name (todo (self s))) as [tk|] eqn:G.
      * rewrite (complete_task_present _ _ _ tk G) in He. discriminate He.
      * apply od_get_None; exact G.
    + intros H. rewrite (complete_task_missing _ _ _ H). eexists; reflexivity.
  - apply complete_task_missing.
  - intros tk G. eexists. split; [apply (complete_task_present _ _ _ tk G)|].
    simpl. repeat split.
    + rewrite od_mem_del, str_eqb_refl. reflexivity.
    + apply od_get_set_same.
    + intros init e Ht He Hn.
      assert (Hc : current_entry (self s) = Some e)
        by (apply current_entry_Some; exists init; auto).
      rewrite Hc, Ht, set_last_end_app. subst task_name.
      rewrite str_eqb_refl. reflexivity.
    + intros init e Ht He Hn.
      assert (Hc : current_entry (self s) = Some e)
        by (apply current_entry_Some; exists init; auto).
      rewrite Hc. apply str_eqb_neq in Hn. rewrite Hn. reflexivity.
    + intros Hc. rewrite Hc. reflexivity.
Qed.

Lemma complete_task_spec_witness :
  complete_task (L "file taxes") (Some (at_ 3 5 11 0)) clocked_in =
    (Raise (TymeError (L "No such task.")), clocked_in)
  /\ exists s',
       complete_task (L "write report") (Some (at_ 3 5 11 0)) clocked_in =
         (Ok tt, s')
       /\ time (self s') =
          [mkEntry (L "write report") (at_ 3 5 10 0) (Some (at_ 3 5 11 0))].
Proof.
  split.
  - apply (complete_task_spec (L "file taxes") (Some (at_ 3 5 11 0)) clocked_in).
    reflexivity.
  - destruct (complete_task_spec (L "write report") (Some (at_ 3 5 11 0))
                clocked_in) as [_ [_ H]].
    destruct (H report eq_refl) as [s' [E [_ [_ [_ [_ [Ht _]]]]]]].
    exists s'. split; [exact E|].
    apply (Ht [] (mkEntry (L "write report") (at_ 3 5 10 0) None));
      reflexivity.
Defined.

(* ================================================================== *)
(** * Failed calls *)
(* ================================================================== *)

(** C8.  A call that raises leaves the sheet (and the clock) exactly as it
    was, and what it raises is a TymeError: no failed [add_task],
    [clock_in], [clock_out] or [complete_task] changes todo, time or
    done. *)
Theorem failed_call_leaves_sheet (c : call) (s s' : Store) (e : exn) :
  run c s = (Raise e, s') ->
  s' = s /\ todo (self s') = todo (self s) /\ time (self s') = time (self s)
  /\ done (self s') = done (self s) /\ is_TymeError e = true.
Proof.
  intros H.
  assert (G : s' = s /\ is_TymeError e = true).
  { destruct c as [n tg | n tm | tm | n tm]; simpl in H.
    - destruct (od_mem n (todo (self s))) eqn:E.
      + rewrite (add_task_present n tg s E) in H.
        inversion H; subst; auto.
      + rewrite (add_task_absent n tg s E) in H. discriminate H.
    - rewrite clock_in_run in H. discriminate H.
    - unfold bind in H.
      destruct (current_entry (self s)) as [en|] eqn:E.
      + rewrite (clock_out_open _ _ en E) in H. discriminate H.
      + rewrite (clock_out_closed _ _ E) in H. inversion H; subst; auto.
    - destruct (od_get n (todo (self s))) as [tk|] eqn:E.
      + rewrite (complete_task_present _ _ _ tk E) in H. discriminate H.
      + apply od_get_None in E. rewrite (complete_task_missing _ _ _ E) in H.
        inversion H; subst; auto. }
  destruct G as [-> G]. auto.
Qed.

Lemma failed_call_leaves_sheet_witness :
  self (snd (run (CompleteTask (L "file taxes") None) clocked_in)) =
  self clocked_in.
Proof.
  assert (H := failed_call_leaves_sheet
                 (CompleteTask (L "file taxes") None) clocked_in clocked_in
                 (TymeError (L "No such task.")) eq_refl).
  destruct H as [_ _]. reflexivity.
Defined.

(* ================================================================== *)
(** * Filtering by tags *)
(* ================================================================== *)

Lemma filter_idem {A} (p : A -> bool) (l : list A) :
  filter p (filter p l) = filter p l.
Proof.
  induction l as [|x l IH]; simpl; auto.
  destruct (p x) eqn:E; simpl; rewrite ?E, IH; reflexivity.
Qed.

(** C7.  Without tags [tag_filter] returns the receiver itself.  With a
    non-empty tag list [a] it returns a new sheet that keeps, in order,
    exactly the pending and the completed tasks whose tags include all of
    [a], and exactly the entries whose task name is still a key of one of
    the two; filtering the result by [a] again gives a sheet with the same
    contents. *)
Theorem tag_filter_spec (sheet : TymeSheet) :
  tag_filter [] sheet = Receiver
  /\ forall a, a <> [] -> od_ok (todo sheet) -> od_ok (done sheet) ->
       exists sheet',
         tag_filter a sheet = Fresh sheet'
         /\ todo sheet' = filter (has_tags a) (todo sheet)
         /\ done sheet' = filter (has_tags a) (done sheet)
         /\ (forall n t, In (n, t) (todo sheet') <->
               In (n, t) (todo sheet) /\ forall x, In x a -> In x (tags t))
         /\ (forall n t, In (n, t) (done sheet') <->
               In (n, t) (done sheet) /\ forall x, In x a -> In x (tags t))
         /\ time sheet' =
            filter (fun e => od_mem (task e) (todo sheet')
                             || od_mem (task e) (done sheet'))
                   (time sheet)
         /\ tag_filter a sheet' = Fresh sheet'.
Proof.
  split; [reflexivity|].
  intros a Ha Ht Hd. destruct a as [|x a]; [congruence|].
  set (fa := x :: a) in *.
  assert (Et : od_of_pairs (filter (has_tags fa) (todo sheet)) =
               filter (has_tags fa) (todo sheet))
    by (apply od_of_pairs_id, od_ok_filter, Ht).
  assert (Ed : od_of_pairs (filter (has_tags fa) (done sheet)) =
               filter (has_tags fa) (done sheet))
    by (apply od_of_pairs_id, od_ok_filter, Hd).
  set (td := filter (has_tags fa) (todo sheet)) in *.
  set (dn := filter (has_tags fa) (done sheet)) in *.
  set (keep := fun e : Entry => od_mem (task e) td || od_mem (task e) dn).
  assert (E1 : tag_filter fa sheet = Fresh (mkSheet td (filter keep (time sheet)) dn)).
  { unfold tag_filter, fa, TymeSheet_init. fold fa. fold td. fold dn.
    rewrite !Et, !Ed. reflexivity. }
  exists (mkSheet td (filter keep (time sheet)) dn).
  split; [exact E1|]. simpl.
  assert (In_spec : forall d n t,
             In (n, t) (filter (has_tags fa) d) <->
             In (n, t) d /\ forall y, In y fa -> In y (tags t)).
  { intros d n t. rewrite filter_In. unfold has_tags. simpl snd.
    split; intros [H1 H2]; split; auto; apply subset_spec; exact H2. }
  split; [reflexivity|]. split; [reflexivity|].
  split; [intros; apply In_spec|]. split; [intros; apply In_spec|].
  split; [reflexivity|].
  unfold tag_filter, fa, TymeSheet_init. fold fa. simpl.
  unfold td at 1 2, dn at 1 2. rewrite !filter_idem. fold td. fold dn.
  rewrite !Et, !Ed. fold keep. rewrite filter_idem. reflexivity.
Qed.

Lemma tag_filter_spec_witness :
  exists sheet',
    tag_filter [L "work"] (self clocked_in) = Fresh sheet'
    /\ todo sheet' = [(L "write report", report)]
    /\ done sheet' = [].
Proof.
  destruct (tag_filter_spec (self clocked_in)) as [_ H].
  destruct (H [L "work"]) as [sheet' [E [Ht [Hd _]]]].
  - discriminate.
  - unfold od_ok. simpl. constructor; [simpl; tauto | constructor].
  - unfold od_ok. simpl. constructor; [simpl; tauto | constructor].
  - exists sheet'. split; [exact E|]. split.
    + rewrite Ht. reflexivity.
    + rewrite Hd. reflexivity.
Defined.

(* ================================================================== *)
(** * Validation of a parsed document *)
(* ================================================================== *)

Lemma validate_open_nonfinal {St} (sheet : TymeSheet) (s : St) :
  forallb (fun e => is_some (end_ e)) (removelast (time sheet)) = false ->
  _validate sheet s = (Raise (ParseError (L "Unfinished nonfinal entry")), s).
Proof.
  unfold _validate. generalize (removelast (time sheet)) as l.
  induction l as [|e l IH]; simpl; [discriminate|].
  unfold bind, check. destruct (end_ e); simpl.
  - intros H. specialize (IH H). unfold bind, check in IH.
    destruct (mapM _ l s) as [[v|x] s0] eqn:E; simpl in *.
    + discriminate IH.
    + exact IH.
  - reflexivity.
Qed.

Lemma validate_pass {St} (sheet : TymeSheet) (s : St) :
  forallb (fun e => is_some (end_ e)) (removelast (time sheet)) = true ->
  _validate sheet s = (Ok tt, s).
Proof.
  unfold _validate. generalize (removelast (time sheet)) as l.
  induction l as [|e l IH]; simpl; [reflexivity|].
  unfold bind, check. destruct (end_ e); simpl; [|discriminate].
  intros H. specialize (IH H). unfold bind, check in IH.
  destruct (mapM _ l s) as [[v|x] s0] eqn:E; simpl in *.
  - inversion IH; subst. reflexivity.
  - discriminate IH.
Qed.

Lemma removelast_mid {A} (init : list A) (e : A) (rest : list A) :
  rest <> [] -> In e (removelast (init ++ e :: rest)).
Proof.
  intros H. rewrite removelast_app by discriminate.
  apply in_or_app. right. destruct rest; [congruence|]. left; reflexivity.
Qed.

(** C6, as stated: the document [doc_open_cut] has two open entries in
    its time section and stops there; the reader misses the header
    [Done] and never comes to the validation. *)
Lemma open_nonfinal_other_error : ~ open_nonfinal_always_rejected.
Proof.
  intros H. destruct (H doc_open_cut noon) as [w' E].
  - vm_compute. reflexivity.
  - vm_compute in E. discriminate E.
Qed.

(** The same with all three sections in place, when a line of the time
    section carries a date [strptime] rejects. *)
Lemma open_nonfinal_leap_day :
  open_before_last doc_open_leap = true
  /\ exists msg, fst (from_file doc_open_leap noon) = Raise (ValueError msg).
Proof. split; [|eexists]; vm_compute; reflexivity. Qed.

Lemma bind_Raise {St A B} (c : M St A) (f : A -> M St B) s e s' :
  bind c f s = (Raise e, s') ->
  c s = (Raise e, s') \/ exists a s1, c s = (Ok a, s1) /\ f a s1 = (Raise e, s').
Proof.
  unfold bind. destruct (c s) as [[a|e0] s1]; intros H;
    [right; eauto | left; injection H as <- <-; reflexivity].
Qed.

Lemma strptime_raise r s e :
  strptime r s = Raise e -> before_validation e = true.
Proof.
  unfold strptime. destruct (re_match r s) as [m|].
  - destruct (negb _); [intros H; injection H as <-; reflexivity|].
    destruct (valid_datetime _); [discriminate|].
    intros H; injection H as <-; reflexivity.
  - intros H; injection H as <-; reflexivity.
Qed.

Lemma parse_time_raise s w e w' :
  parse_time s w = (Raise e, w') -> before_validation e = true.
Proof.
  unfold parse_time.
  destruct (strptime re_TIME_FMT (strip s)) as [d|e1] eqn:E1; [discriminate|].
  assert (B1 := strptime_raise _ _ _ E1).
  destruct e1;
    try (unfold raise; intros H; injection H as <- <-; exact B1).
  unfold bind, now. cbv beta iota.
  destruct (strptime re_HM (strip s)) as [d|e2] eqn:E2;
    [unfold ret; discriminate|].
  unfold raise. intros H. injection H as <- <-.
  apply (strptime_raise _ _ _ E2).
Qed.

Lemma Task_from_string_raise line w e w' :
  Task_from_string line w = (Raise e, w') -> before_validation e = true.
Proof.
  unfold Task_from_string.
  destruct (re_match Task_regex line) as [m|];
    [|intros H; injection H as <- <-; reflexivity].
  intros H. apply bind_Raise in H.
  destruct H as [H | [a [s1 [_ H]]]]; [|discriminate H].
  destruct (group line m 2) as [[|c g]|]; try discriminate H.
  apply bind_Raise in H.
  destruct H as [H | [a [s1 [_ H]]]]; [|discriminate H].
  apply (parse_time_raise _ _ _ _ H).
Qed.

Lemma Entry_from_string_raise line w e w' :
  Entry_from_string line w = (Raise e, w') -> before_validation e = true.
Proof.
  unfold Entry_from_string.
  destruct (re_match Entry_regex line) as [m|];
    [|intros H; injection H as <- <-; reflexivity].
  intros H. apply bind_Raise in H.
  destruct H as [H | [st [s1 [_ H]]]]; [apply (parse_time_raise _ _ _ _ H)|].
  apply bind_Raise in H. destruct H as [H | [en [s2 [_ H]]]].
  - destruct (str_eqb _ (L "--")); [discriminate H|].
    apply bind_Raise in H.
    destruct H as [H | [a [s3 [_ H]]]]; [|discriminate H].
    apply (parse_time_raise _ _ _ _ H).
  - unfold Entry_init in H. destruct en as [t|]; [|discriminate H].
    destruct (dt_ltb t st); [|discriminate H].
    injection H as <- <-. reflexivity.
Qed.

Lemma assert_match_raise {St} r line msg (s s' : St) e :
  assert_match r line msg s = (Raise e, s') ->
  e = ParseError (msg ++ L ": " ++ line).
Proof.
  unfold assert_match. destruct (re_match r line); [discriminate|].
  intros H. injection H as <- <-. reflexivity.
Qed.

Lemma parse_raise {A} (from_string : str -> M World A) :
  (forall line w e w',
     from_string line w = (Raise e, w') -> before_validation e = true) ->
  forall bw file w e w',
    parse from_string bw file w = (Raise e, w') -> before_validation e = true.
Proof.
  intros Hf bw. induction file as [|line file IH]; intros w e w' H.
  - cbn [parse] in H. destruct bw; [|discriminate H].
    injection H as <- <-. reflexivity.
  - cbn [parse] in H.
    destruct (re_match (re_header (show_break_word bw)) line).
    + destruct file as [|rl file''].
      * injection H as <- <-. reflexivity.
      * apply bind_Raise in H.
        destruct H as [H | [a [s1 [_ H]]]]; [|discriminate H].
        apply assert_match_raise in H. subst e. reflexivity.
    + apply bind_Raise in H.
      destruct H as [H | [r [s1 [_ H]]]]; [apply (Hf _ _ _ _ H)|].
      apply bind_Raise in H.
      destruct H as [H | [rs [s2 [_ H]]]]; [apply (IH _ _ _ H)|].
      discriminate H.
Qed.

(** The reader never raises the exception of the validation. *)
Lemma read_sections_raise text w e w' :
  read_sections text w = (Raise e, w') -> before_validation e = true.
Proof.
  unfold read_sections. intros H.
  apply bind_Raise in H. destruct H as [H | [h [w1 [_ H]]]].
  { unfold next_line in H. destruct (filter _ _); [|discriminate H].
    injection H as <- <-. reflexivity. }
  apply bind_Raise in H. destruct H as [H | [[] [w2 [_ H]]]].
  { apply assert_match_raise in H. subst e. reflexivity. }
  apply bind_Raise in H. destruct H as [H | [r [w3 [_ H]]]].
  { unfold next_line in H. destruct (snd h); [|discriminate H].
    injection H as <- <-. reflexivity. }
  apply bind_Raise in H. destruct H as [H | [[] [w4 [_ H]]]].
  { apply assert_match_raise in H. subst e. reflexivity. }
  apply bind_Raise in H. destruct H as [H | [t1 [w5 [_ H]]]].
  { apply (parse_raise _ Task_from_string_raise _ _ _ _ _ H). }
  apply bind_Raise in H. destruct H as [H | [t2 [w6 [_ H]]]].
  { apply (parse_raise _ Entry_from_string_raise _ _ _ _ _ H). }
  apply bind_Raise in H. destruct H as [H | [t3 [w7 [_ H]]]].
  { apply (parse_raise _ Task_from_string_raise _ _ _ _ _ H). }
  discriminate H.
Qed.

Lemma In_removelast {A} (e : A) (l : list A) :
  In e (removelast l) ->
  exists init rest, l = init ++ e :: rest /\ rest <> [].
Proof.
  intros H. destruct l as [|a l]; [destruct H|].
  assert (N : a :: l <> []) by discriminate.
  rewrite (app_removelast_last a N).
  apply in_split in H. destruct H as [l1 [l2 H]].
  exists l1, (l2 ++ [last (a :: l) a]). rewrite H, <- app_assoc.
  split; [reflexivity|]. destruct l2; discriminate.
Qed.

(** C6, amended.  [from_file] raises ParseError "Unfinished nonfinal
    entry" exactly when the three sections of the document read as
    records and some entry other than the last has no end (as always when
    two entries that read have none).  When the sections read and every
    entry but the last has an end, validation passes and [from_file]
    returns the sheet built from the records.  When the sections do not
    read, [from_file] raises the error of the reader, and the validation
    is not reached. *)
Theorem from_file_validates (text : str) (w w' : World) :
  ((exists tds ents dns init e rest,
      read_sections text w = (Ok (tds, ents, dns), w')
      /\ ents = init ++ e :: rest /\ rest <> [] /\ end_ e = None)
   <-> from_file text w
       = (Raise (ParseError (L "Unfinished nonfinal entry")), w'))
  /\ (forall tds ents dns,
        read_sections text w = (Ok (tds, ents, dns), w') ->
        (forall e, In e (removelast ents) -> end_ e <> None) ->
        from_file text w = (Ok (TymeSheet_init tds ents dns), w'))
  /\ (forall e,
        read_sections text w = (Raise e, w') ->
        from_file text w = (Raise e, w')
        /\ e <> ParseError (L "Unfinished nonfinal entry")).
Proof.
  split; [split|split].
  - intros [tds [ents [dns [init [e [rest [R [E [Hr He]]]]]]]]].
    unfold from_file, bind at 1. rewrite R. cbn [fst snd].
    unfold bind. rewrite validate_open_nonfinal; [reflexivity|].
    simpl time. apply not_true_is_false. intros H.
    rewrite forallb_forall in H.
    specialize (H e). rewrite E in H.
    specialize (H (removelast_mid init e rest Hr)).
    rewrite He in H. discriminate H.
  - unfold from_file. intros H. apply bind_Raise in H.
    destruct H as [H | [[[tds ents] dns] [w1 [R H]]]].
    + apply read_sections_raise in H. discriminate H.
    + cbn [fst snd] in H.
      destruct (forallb (fun e => is_some (end_ e))
                  (removelast (time (TymeSheet_init tds ents dns)))) eqn:F.
      * unfold bind in H. rewrite (validate_pass _ _ F) in H. discriminate H.
      * unfold bind in H. rewrite (validate_open_nonfinal _ _ F) in H.
        injection H as <-.
        simpl time in F.
        assert (X : exists e, In e (removelast ents) /\ end_ e = None).
        { clear R. induction (removelast ents) as [|a l IH];
            [discriminate F|].
          simpl in F. destruct (end_ a) eqn:Ea.
          - destruct (IH F) as [e [Hin He]]. exists e. split; [right|]; auto.
          - exists a. split; [left; reflexivity | exact Ea]. }
        destruct X as [e [Hin He]].
        destruct (In_removelast e ents Hin) as [init [rest [E Hr]]].
        exists tds, ents, dns, init, e, rest. auto.
  - intros tds ents dns R Hyp.
    unfold from_file, bind at 1. rewrite R. cbn [fst snd].
    unfold bind. rewrite validate_pass; [reflexivity|].
    simpl time. apply forallb_forall. intros e Hin.
    specialize (Hyp e Hin). destruct (end_ e); [reflexivity|congruence].
  - intros e R. split.
    + unfold from_file, bind at 1. rewrite R. reflexivity.
    + apply read_sections_raise in R. intros ->. discriminate R.
Qed.

Lemma from_file_validates_witness :
  from_file doc_open_first noon =
    (Raise (ParseError (L "Unfinished nonfinal entry")), noon)
  /\ from_file doc_open_last noon =
     (Ok (mkSheet [(L "write report", mkTask (L "write report") [] None)]
            [mkEntry (L "write report") (at_ 3 5 10 0) (Some (at_ 3 5 10 30));
             mkEntry (L "write report") (at_ 3 5 11 0) None]
            []),
      noon)
  /\ from_file doc_open_cut noon =
     (Raise (ParseError (L "Missing section: Done")), noon).
Proof.
  split; [|split].
  - apply (proj1 (proj1 (from_file_validates doc_open_first noon noon))).
    exists [(L "write report", mkTask (L "write report") [] None)],
      [mkEntry (L "write report") (at_ 3 5 10 0) None;
       mkEntry (L "write report") (at_ 3 5 11 0) None],
      [], [], (mkEntry (L "write report") (at_ 3 5 10 0) None),
      [mkEntry (L "write report") (at_ 3 5 11 0) None].
    split; [vm_compute; reflexivity|]. repeat split. discriminate.
  - refine (proj1 (proj2 (from_file_validates doc_open_last noon noon))
             [(L "write report", mkTask (L "write report") [] None)]
             [mkEntry (L "write report") (at_ 3 5 10 0) (Some (at_ 3 5 10 30));
              mkEntry (L "write report") (at_ 3 5 11 0) None]
             [] _ _).
    + vm_compute. reflexivity.
    + intros e [<-|[]]. discriminate.
  - refine (proj1 (proj2 (proj2 (from_file_validates doc_open_cut noon noon))
                     (ParseError (L "Missing section: Done")) _)).
    vm_compute. reflexivity.
Defined.

(* ================================================================== *)
(** * The round trip, as stated *)
(* ================================================================== *)

(** The sheet [morning] is what a session produces. *)
Lemma morning_session :
  let run_all :=
    (add_task (L "write report") [L "work"] None ;;;
     clock_in (L "write report") None ;;;
     _ <- clock_out (Some (at_ 3 5 12 45)) ;; ret tt)%prog in
  fst (run_all (mkStore empty_sheet noon)) = Ok tt
  /\ self (snd (run_all (mkStore empty_sheet noon))) = morning.
Proof. split; reflexivity. Qed.

(** C1, as stated: [morning] satisfies the invariants, and reading back
    its text gives an entry that began at 12:00:00, not 12:00:30. *)
Lemma round_trip_loses_seconds : ~ round_trip_for_all_sheets.
Proof.
  intros H.
  destruct (H morning noon) as [text [w' [w'' [E1 E2]]]].
  - unfold od_ok. simpl. constructor; [simpl; tauto | constructor].
  - unfold od_ok. simpl. constructor.
  - reflexivity.
  - vm_compute in E1. injection E1 as <- <-.
    vm_compute in E2. discriminate E2.
Qed.

(* ================================================================== *)
(** * The matcher *)
(* ================================================================== *)

(** The equations of [rmatch], for rewriting. *)
Lemma rmatch_seq r1 r2 k pos c s :
  rmatch (Seq r1 r2) k pos c s =
  rmatch r1 (fun pos' c' s' => rmatch r2 k pos' c' s') pos c s.
Proof. reflexivity. Qed.

Lemma rmatch_eps k pos c s : rmatch Eps k pos c s = k pos c s.
Proof. reflexivity. Qed.

Lemma rmatch_alt r1 r2 k pos c s :
  rmatch (Alt r1 r2) k pos c s =
  match rmatch r1 k pos c s with
  | Some m => Some m
  | None => rmatch r2 k pos c s
  end.
Proof. reflexivity. Qed.

Lemma rmatch_chr_cons p k pos c a s :
  rmatch (Chr p) k pos c (a :: s) = if p a then k (S pos) c s else None.
Proof. reflexivity. Qed.

Lemma rmatch_chr_nil p k pos c : rmatch (Chr p) k pos c [] = None.
Proof. reflexivity. Qed.

Lemma rmatch_group i r k pos c s :
  rmatch (Group i r) k pos c s =
  rmatch r (fun pos' c' s' => k pos' ((i, (pos, pos')) :: c') s') pos c s.
Proof. reflexivity. Qed.

Lemma rmatch_opt r k pos c s :
  rmatch (Opt r) k pos c s =
  match rmatch r k pos c s with
  | Some m => Some m
  | None => k pos c s
  end.
Proof. reflexivity. Qed.

Section StarLoop.
Variable body : cont -> cont.
Hypothesis body_ext : forall k1 k2 pos c s,
  agree k1 k2 pos s -> body k1 pos c s = body k2 pos c s.
Hypothesis body_dead : forall pos c s, body (fun _ _ _ => None) pos c s = None.

Lemma agree_skip k1 k2 pos s n :
  agree k1 k2 pos s -> (n <= length s)%nat ->
  agree k1 k2 (pos + n)%nat (skipn n s).
Proof.
  intros H Hn m c' Hm. rewrite length_skipn in Hm.
  rewrite <- Nat.add_assoc, skipn_skipn, (Nat.add_comm m n).
  apply H. lia.
Qed.

Lemma body_none k pos c s :
  agree k (fun _ _ _ => None) pos s -> body k pos c s = None.
Proof. intros H. rewrite (body_ext _ _ _ _ _ H). apply body_dead. Qed.

Lemma star_loop_ext k1 k2 fuel : forall pos c s,
  agree k1 k2 pos s ->
  star_loop body k1 fuel pos c s = star_loop body k2 fuel pos c s.
Proof.
  induction fuel as [|f IH]; intros pos c s H; simpl.
  - specialize (H 0%nat c). rewrite Nat.add_0_r in H. apply H. lia.
  - rewrite (body_ext _ (guarded pos (star_loop body k2 f))).
    + specialize (H 0%nat c). rewrite Nat.add_0_r in H. simpl in H.
      rewrite H by lia. reflexivity.
    + intros n c' Hn. unfold guarded. destruct (pos <? pos + n)%nat; auto.
      apply IH. apply agree_skip; auto.
Qed.

Lemma star_loop_dead fuel : forall pos c s,
  star_loop body (fun _ _ _ => None) fuel pos c s = None.
Proof.
  induction fuel as [|f IH]; intros pos c s; simpl; auto.
  rewrite body_none; auto.
  intros n c' Hn. destruct (pos <? pos + n)%nat; auto.
Qed.

Lemma guarded_here pos k : forall s, (length s = 0)%nat ->
  agree (guarded pos k) (fun _ _ _ => None) pos s.
Proof.
  intros s Hs n c' Hn. assert (n = 0)%nat as -> by lia.
  unfold guarded. rewrite Nat.add_0_r, Nat.ltb_irrefl. reflexivity.
Qed.

(** More fuel than the text is long changes nothing. *)
Lemma star_loop_spare k fuel : forall pos c s,
  (length s <= fuel)%nat ->
  star_loop body k (S fuel) pos c s = star_loop body k fuel pos c s.
Proof.
  induction fuel as [|f IH]; intros pos c s H.
  - simpl. fold (guarded pos k).
    rewrite body_none; [reflexivity|]. apply guarded_here. lia.
  - change (star_loop body k (S (S f)) pos c s)
      with (match body (guarded pos (star_loop body k (S f))) pos c s with
            | Some m => Some m
            | None => k pos c s
            end).
    change (star_loop body k (S f) pos c s)
      with (match body (guarded pos (star_loop body k f)) pos c s with
            | Some m => Some m
            | None => k pos c s
            end).
    rewrite (body_ext _ (guarded pos (star_loop body k f))); [reflexivity|].
    intros n c' Hn. unfold guarded.
    destruct (pos <? pos + n)%nat eqn:E; auto.
    apply IH. rewrite length_skipn. apply Nat.ltb_lt in E. lia.
Qed.

Lemma star_loop_fuel k : forall fuel pos c s,
  (length s <= fuel)%nat ->
  star_loop body k fuel pos c s = star_loop body k (length s) pos c s.
Proof.
  induction fuel as [|f IH]; intros pos c s H.
  - assert (length s = 0)%nat as -> by lia. reflexivity.
  - destruct (Nat.eq_dec (length s) (S f)) as [E|E].
    + rewrite E. reflexivity.
    + rewrite star_loop_spare by lia. apply IH. lia.
Qed.

(** One turn of the loop, fuel out of sight. *)
Lemma star_loop_unfold k pos c s :
  star_loop body k (length s) pos c s =
  match body (guarded pos (fun pos' c' s' =>
                             star_loop body k (length s') pos' c' s'))
             pos c s with
  | Some m => Some m
  | None => k pos c s
  end.
Proof.
  destruct s as [|a s].
  - simpl. rewrite body_none; [reflexivity|]. apply guarded_here. reflexivity.
  - change (star_loop body k (length (a :: s)) pos c (a :: s))
      with (match body (guarded pos (star_loop body k (length s))) pos c
                    (a :: s) with
            | Some m => Some m
            | None => k pos c (a :: s)
            end).
    rewrite (body_ext _ (guarded pos (fun pos' c' s' =>
                           star_loop body k (length s') pos' c' s')));
      [reflexivity|].
    intros n c' Hn. unfold guarded.
    destruct (pos <? pos + n)%nat eqn:E; auto.
    apply star_loop_fuel. rewrite length_skipn. apply Nat.ltb_lt in E.
    simpl length. lia.
Qed.
End StarLoop.

Lemma rmatch_ext r : forall k1 k2 pos c s,
  agree k1 k2 pos s -> rmatch r k1 pos c s = rmatch r k2 pos c s.
Proof.
  induction r as [|p|r1 IH1 r2 IH2|r1 IH1 r2 IH2|r IH|i r IH];
    intros k1 k2 pos c s H; simpl.
  - specialize (H 0%nat c). rewrite Nat.add_0_r in H. apply H. lia.
  - destruct s as [|a s]; auto. destruct (p a); auto.
    specialize (H 1%nat c). rewrite Nat.add_1_r in H. apply H. simpl. lia.
  - apply IH1. intros n c' Hn. apply IH2. apply agree_skip; auto.
  - rewrite (IH1 k1 k2), (IH2 k1 k2); auto.
  - apply star_loop_ext; auto.
  - apply IH. intros n c' Hn. apply H. auto.
Qed.

Lemma rmatch_dead r : forall pos c s,
  rmatch r (fun _ _ _ => None) pos c s = None.
Proof.
  induction r as [|p|r1 IH1 r2 IH2|r1 IH1 r2 IH2|r IH|i r IH];
    intros pos c s; simpl.
  - reflexivity.
  - destruct s as [|a s]; auto. destruct (p a); auto.
  - rewrite (rmatch_ext r1 _ (fun _ _ _ => None)); auto.
    intros n c' Hn. apply IH2.
  - rewrite IH1, IH2. reflexivity.
  - apply star_loop_dead; auto. apply rmatch_ext.
  - apply IH.
Qed.

(** A continuation that fails wherever it can be reached is never
    rescued by the pattern before it. *)
Lemma rmatch_none r k pos c s :
  agree k (fun _ _ _ => None) pos s -> rmatch r k pos c s = None.
Proof. intros H. rewrite (rmatch_ext r _ _ _ _ _ H). apply rmatch_dead. Qed.

(** The greedy star: one more [r] if that leads to a match, else stop. *)
Lemma rmatch_star r k pos c s :
  rmatch (Star r) k pos c s =
  match rmatch r (guarded pos (rmatch (Star r) k)) pos c s with
  | Some m => Some m
  | None => k pos c s
  end.
Proof.
  exact (star_loop_unfold (rmatch r) (rmatch_ext r) (rmatch_dead r) k pos c s).
Qed.

Arguments rmatch : simpl never.
Arguments star_loop : simpl never.

Lemma star_chr_cons p k pos c a s :
  rmatch (Star (Chr p)) k pos c (a :: s) =
  if p a
  then match rmatch (Star (Chr p)) k (S pos) c s with
       | Some m => Some m
       | None => k pos c (a :: s)
       end
  else k pos c (a :: s).
Proof.
  rewrite rmatch_star, rmatch_chr_cons. unfold guarded.
  assert ((pos <? S pos)%nat = true) as -> by (apply Nat.ltb_lt; lia).
  destruct (p a); reflexivity.
Qed.

Lemma star_chr_nil p k pos c : rmatch (Star (Chr p)) k pos c [] = k pos c [].
Proof. reflexivity. Qed.

Lemma star_chr_stop p k pos c s :
  stops_at p s -> rmatch (Star (Chr p)) k pos c s = k pos c s.
Proof.
  destruct s as [|a s]; simpl; intros H; [reflexivity|].
  rewrite star_chr_cons, H. reflexivity.
Qed.

(** A greedy run takes all of [run] when that leads to a match. *)
Lemma star_chr_run p k c m run : forall pos rest,
  forallb p run = true ->
  k (pos + length run)%nat c rest = Some m ->
  stops_at p rest ->
  rmatch (Star (Chr p)) k pos c (run ++ rest) = Some m.
Proof.
  induction run as [|a run IH]; intros pos rest Hp Hk Hs; simpl in *.
  - rewrite Nat.add_0_r in Hk. rewrite star_chr_stop; auto.
  - apply andb_true_iff in Hp. destruct Hp as [Ha Hp].
    rewrite star_chr_cons, Ha, IH; auto.
    rewrite <- Hk. f_equal. lia.
Qed.

(** It gives back the last character when all of the run leads nowhere
    and one less leads to a match. *)
Lemma star_chr_back p k c m body z : forall pos rest,
  forallb p body = true -> p z = true ->
  stops_at p rest ->
  k (S (pos + length body)) c rest = None ->
  k (pos + length body)%nat c (z :: rest) = Some m ->
  rmatch (Star (Chr p)) k pos c (body ++ z :: rest) = Some m.
Proof.
  induction body as [|a body IH]; intros pos rest Hp Hz Hs Hn Hk;
    simpl in *.
  - rewrite Nat.add_0_r in *. rewrite star_chr_cons, Hz, star_chr_stop, Hn; auto.
  - apply andb_true_iff in Hp. destruct Hp as [Ha Hp].
    rewrite star_chr_cons, Ha, IH; auto.
    + rewrite <- Hn. f_equal. lia.
    + rewrite <- Hk. f_equal. lia.
Qed.


(* ================================================================== *)
(** * Matching a task name *)
(* ================================================================== *)

Lemma agree_guarded pos k pos' s :
  (pos < pos')%nat -> agree (guarded pos k) k pos' s.
Proof.
  intros H n c' Hn. unfold guarded.
  assert ((pos <? pos' + n)%nat = true) as -> by (apply Nat.ltb_lt; lia).
  reflexivity.
Qed.

Lemma word_not_blank a : is_word a = true -> Ascii.eqb " " a = false.
Proof.
  intros H. destruct (Ascii.eqb " " a) eqn:E; auto.
  apply Ascii.eqb_eq in E. subst a. discriminate H.
Qed.

(** Close a goal [k pos c s = Some m] with a hypothesis that differs in
    the way the position is written. *)
Lemma cont_eq (K : cont) p p' c c' s :
  p = p' -> c = c' -> K p c s = K p' c' s.
Proof. intros -> ->. reflexivity. Qed.

Ltac caps_eq :=
  cbn [length app]; rewrite ?length_app, ?repeat_length; cbn [length app];
  repeat match goal with
         | |- @eq nat _ _ => lia
         | |- (_ :: _) = (_ :: _) => f_equal
         | |- (_, _) = (_, _) => f_equal
         | |- Some _ = Some _ => f_equal
         | |- _ => reflexivity
         end.
Ltac pos_tac := first [ reflexivity | apply cont_eq; caps_eq | caps_eq ].
Ltac by_pos H := rewrite <- H; pos_tac.

Section TaskName.
Variable K : cont.

Lemma re_task_cons pos c a s :
  rmatch re_task K pos c (a :: s) =
  if is_word a then task_word K (S pos) c s else None.
Proof. reflexivity. Qed.

Lemma task_close_cons pos c a s :
  task_close K pos c (a :: s) = if is_word a then K (S pos) c s else None.
Proof. reflexivity. Qed.

Lemma re_run_cons k pos c a s :
  rmatch re_run k pos c (a :: s) =
  if is_word a
  then rmatch (Star Word) (rmatch (Opt (Lit1 " "%char)) k) (S pos) c s
  else None.
Proof. reflexivity. Qed.

Lemma task_runs_cons pos c a s :
  task_runs K pos c (a :: s) =
  match (if is_word a then task_word K (S pos) c s else None) with
  | Some m => Some m
  | None => task_close K pos c (a :: s)
  end.
Proof.
  unfold task_runs at 1. rewrite rmatch_star.
  replace (rmatch re_run (guarded pos (rmatch (Star re_run) (task_close K)))
             pos c (a :: s))
    with (if is_word a then task_word K (S pos) c s else None);
    [reflexivity|].
  rewrite re_run_cons.
  destruct (is_word a); [|reflexivity].
  unfold task_word, task_blank, task_runs. symmetry.
  apply rmatch_ext. intros n c' Hn.
  apply rmatch_ext. apply agree_guarded. lia.
Qed.

Lemma task_blank_eq pos c s :
  task_blank K pos c s =
  match rmatch (Lit1 " "%char) (task_runs K) pos c s with
  | Some m => Some m
  | None => task_runs K pos c s
  end.
Proof. reflexivity. Qed.

Lemma task_word_cons pos c a s :
  task_word K pos c (a :: s) =
  if is_word a
  then match task_word K (S pos) c s with
       | Some m => Some m
       | None => task_blank K pos c (a :: s)
       end
  else task_blank K pos c (a :: s).
Proof. unfold task_word. apply star_chr_cons. Qed.

Lemma task_word_nil pos c : task_word K pos c [] = None.
Proof. reflexivity. Qed.

(** At the end of the name the run of words cannot go on. *)
Lemma task_word_end pos c rest :
  name_end rest -> task_word K pos c rest = None.
Proof.
  destruct rest as [|a r]; [intros _; apply task_word_nil|].
  intros [Ha Hr]. rewrite task_word_cons, Ha, task_blank_eq.
  unfold Lit1 at 1. rewrite rmatch_chr_cons, task_runs_cons, Ha.
  rewrite task_close_cons, Ha.
  destruct (Ascii.eqb " " a); [|reflexivity].
  destruct r as [|b r']; [reflexivity|]. simpl in Hr.
  rewrite task_runs_cons, Hr, task_close_cons, Hr. reflexivity.
Qed.

(** Inside a name, after a word character: the rest of the name is
    taken, up to its last character. *)
Lemma task_word_tail c m rest (Hend : name_end rest) : forall n tail pos,
  (length tail <= n)%nat -> tail <> [] -> name_tail_ok tail = true ->
  K (pos + length tail)%nat c rest = Some m ->
  task_word K pos c (tail ++ rest) = Some m.
Proof.
  induction n as [|n IH]; intros tail pos Hn Hne Hok HK.
  - destruct tail; [congruence | simpl in Hn; lia].
  - destruct tail as [|a tail]; [congruence|]. simpl in Hn, Hok, HK.
    rewrite <- app_comm_cons, task_word_cons.
    destruct (is_word a) eqn:Ha.
    + destruct tail as [|b tail].
      * simpl. rewrite task_word_end by exact Hend.
        rewrite task_blank_eq. unfold Lit1 at 1.
        rewrite rmatch_chr_cons, (word_not_blank a Ha).
        rewrite task_runs_cons, Ha, task_word_end by exact Hend.
        rewrite task_close_cons, Ha. by_pos HK.
      * rewrite IH; auto; try discriminate; try lia.
        by_pos HK.
    + apply andb_true_iff in Hok. destruct Hok as [Esp Hok].
      apply Ascii.eqb_eq in Esp. subst a.
      destruct tail as [|b tail]; [discriminate Hok|].
      apply andb_true_iff in Hok. destruct Hok as [Hb Hok].
      rewrite task_blank_eq. unfold Lit1 at 1.
      rewrite rmatch_chr_cons. simpl Ascii.eqb. cbv iota.
      rewrite <- app_comm_cons, task_runs_cons, Hb.
      destruct tail as [|b' tail].
      * simpl. rewrite task_word_end by exact Hend.
        rewrite task_close_cons, Hb.
        simpl in HK. rewrite !Nat.add_succ_r, Nat.add_0_r in HK.
        rewrite HK. reflexivity.
      * rewrite IH; auto; try discriminate; try (simpl in *; lia).
        by_pos HK.
Qed.

(** [re_task] takes the whole of a name. *)
Lemma re_task_name c m nm rest pos :
  is_name nm = true -> name_end rest ->
  K (pos + length nm)%nat c rest = Some m ->
  rmatch re_task K pos c (nm ++ rest) = Some m.
Proof.
  intros Hn Hend HK. destruct nm as [|a tail]; [discriminate Hn|].
  simpl in Hn. apply andb_true_iff in Hn. destruct Hn as [Hn Hok].
  apply andb_true_iff in Hn. destruct Hn as [Ha Hlen].
  rewrite <- app_comm_cons, re_task_cons, Ha.
  apply (task_word_tail c m rest Hend (length tail)); auto.
  - intros ->. discriminate Hlen.
  - by_pos HK.
Qed.
End TaskName.

(* ================================================================== *)
(** * Two-digit fields *)
(* ================================================================== *)

Lemma Z_in_range (lo len : nat) (n : Z) :
  Z.of_nat lo <= n < Z.of_nat (lo + len) -> In n (map Z.of_nat (seq lo len)).
Proof.
  intros H. apply in_map_iff. exists (Z.to_nat n). split; [lia|].
  apply in_seq. lia.
Qed.

(** Case analysis on an integer of a small range. *)
Ltac enum_Z n lo len :=
  let H := fresh "Hin" in
  assert (H : In n (map Z.of_nat (seq lo len)))
    by (apply Z_in_range; simpl; lia);
  simpl in H;
  repeat (destruct H as [H|H]; [subst n|]); [..|destruct H].

Lemma pad2_table : forallb (fun i => pad2_ok (Z.of_nat i)) (seq 0 100) = true.
Proof. vm_compute. reflexivity. Qed.

Lemma pad2_digits (n : Z) :
  0 <= n < 100 ->
  exists a b, pad2 n = [a; b] /\ is_digit a = true /\ is_digit b = true
              /\ int_of_str [a; b] = n.
Proof.
  intros H. assert (T := pad2_table). rewrite forallb_forall in T.
  specialize (T (Z.to_nat n)). rewrite Z2Nat.id in T by lia.
  assert (Hin : In (Z.to_nat n) (seq 0 100)) by (apply in_seq; lia).
  specialize (T Hin). unfold pad2_ok in T.
  destruct (pad2 n) as [|a [|b [|x l]]]; try discriminate T.
  apply andb_true_iff in T. destruct T as [T E].
  apply andb_true_iff in T. destruct T as [Ha Hb].
  exists a, b. repeat split; auto. apply Z.eqb_eq. exact E.
Qed.

Lemma digit_not_space a : is_digit a = true -> is_space a = false.
Proof.
  unfold is_digit, is_space. intros H.
  apply andb_true_iff in H. destruct H as [H1 H2].
  apply Nat.leb_le in H1. apply Nat.leb_le in H2.
  repeat (apply orb_false_iff; split); try apply andb_false_iff.
  - apply Nat.eqb_neq. lia.
  - right. apply Nat.leb_gt. lia.
  - right. apply Nat.leb_gt. lia.
Qed.

Lemma digit_is_word a : is_digit a = true -> is_word a = true.
Proof. unfold is_word. intros ->. reflexivity. Qed.

Lemma word_not_space a : is_word a = true -> is_space a = false.
Proof.
  unfold is_word, is_digit, is_space. intros H.
  repeat (apply orb_false_iff; split); try apply andb_false_iff.
  - apply Nat.eqb_neq. intros E. rewrite E in H. discriminate H.
  - destruct (9 <=? nat_of_ascii a)%nat eqn:E1; auto. right.
    apply Nat.leb_gt. apply Nat.leb_le in E1.
    destruct (nat_of_ascii a <=? 13)%nat eqn:E2; [|apply Nat.leb_gt in E2; lia].
    apply Nat.leb_le in E2. exfalso.
    assert (G : forall x y, (x <=? y)%nat = true -> (x <= y)%nat)
      by (intros; apply Nat.leb_le; auto).
    repeat (apply orb_true_iff in H; destruct H as [H|H]);
      try (apply andb_true_iff in H; destruct H as [H3 H4];
           apply G in H3; apply G in H4; lia).
    apply Nat.eqb_eq in H. lia.
  - destruct (28 <=? nat_of_ascii a)%nat eqn:E1; auto. right.
    apply Nat.leb_gt. apply Nat.leb_le in E1.
    destruct (nat_of_ascii a <=? 31)%nat eqn:E2; [|apply Nat.leb_gt in E2; lia].
    apply Nat.leb_le in E2. exfalso.
    assert (G : forall x y, (x <=? y)%nat = true -> (x <= y)%nat)
      by (intros; apply Nat.leb_le; auto).
    repeat (apply orb_true_iff in H; destruct H as [H|H]);
      try (apply andb_true_iff in H; destruct H as [H3 H4];
           apply G in H3; apply G in H4; lia).
    apply Nat.eqb_eq in H. lia.
Qed.

Lemma pad2_stops n rest : 0 <= n < 100 -> stops_at is_space (pad2 n ++ rest).
Proof.
  intros H. destruct (pad2_digits n H) as [a [b [-> [Ha _]]]]. simpl.
  apply digit_not_space. exact Ha.
Qed.

(** The patterns of the directives take the two digits [strftime]
    writes. *)
Lemma pct_m_field (n : Z) K pos c rest x :
  1 <= n <= 12 ->
  K (2 + pos)%nat ((1, (pos, 2 + pos)) :: c)%nat rest = Some x ->
  rmatch (Group 1 re_pct_m) K pos c (pad2 n ++ rest) = Some x.
Proof.
  intros Hn HK. cbv in HK.
  enum_Z n 1%nat 12%nat; cbv; rewrite HK; reflexivity.
Qed.

Lemma pct_d_field (n : Z) K pos c rest x :
  1 <= n <= 31 ->
  K (2 + pos)%nat ((2, (pos, 2 + pos)) :: c)%nat rest = Some x ->
  rmatch (Group 2 re_pct_d) K pos c (pad2 n ++ rest) = Some x.
Proof.
  intros Hn HK. cbv in HK.
  enum_Z n 1%nat 31%nat; cbv; rewrite HK; reflexivity.
Qed.

Lemma pct_H_field (n : Z) K pos c rest x :
  0 <= n < 24 ->
  K (2 + pos)%nat ((3, (pos, 2 + pos)) :: c)%nat rest = Some x ->
  rmatch (Group 3 re_pct_H) K pos c (pad2 n ++ rest) = Some x.
Proof.
  intros Hn HK. cbv in HK.
  enum_Z n 0%nat 24%nat; cbv; rewrite HK; reflexivity.
Qed.

Lemma pct_M_field (n : Z) K pos c rest x :
  0 <= n < 60 ->
  K (2 + pos)%nat ((4, (pos, 2 + pos)) :: c)%nat rest = Some x ->
  rmatch (Group 4 re_pct_M) K pos c (pad2 n ++ rest) = Some x.
Proof.
  intros Hn HK. cbv in HK.
  enum_Z n 0%nat 60%nat; cbv; rewrite HK; reflexivity.
Qed.

Lemma stamp_ok_fields t :
  stamp_ok t = true ->
  year t = 2000 /\ second t = 0 /\ microsecond t = 0
  /\ 1 <= month t <= 12 /\ 1 <= day t <= 31
  /\ 0 <= hour t < 24 /\ 0 <= minute t < 60.
Proof.
  unfold stamp_ok, valid_datetime. destruct t as [y mo d h mi s us]. simpl.
  intros H. repeat (apply andb_true_iff in H; destruct H as [H ?]).
  repeat match goal with
         | H : (_ =? _) = true |- _ => apply Z.eqb_eq in H
         | H : (_ <=? _) = true |- _ => apply Z.leb_le in H
         | H : (_ <? _) = true |- _ => apply Z.ltb_lt in H
         end.
  assert (days_in_month 1900 mo <= 31).
  { unfold days_in_month.
    destruct mo as [|p|p]; try lia.
    repeat (destruct p as [p|p|]; simpl; try lia). }
  repeat split; lia.
Qed.

Lemma fmt_time_eq t :
  fmt_time t =
  pad2 (month t) ++ "-"%char :: pad2 (day t) ++ " "%char
    :: pad2 (hour t) ++ ":"%char :: pad2 (minute t) ++ [].
Proof. unfold fmt_time. rewrite app_nil_r. reflexivity. Qed.

Lemma re_TIME_FMT_fmt_time t :
  stamp_ok t = true ->
  re_match re_TIME_FMT (fmt_time t) =
  Some (11%nat, [(4, (9, 11)); (3, (6, 8)); (2, (3, 5)); (1, (0, 2))]%nat).
Proof.
  intros H. apply stamp_ok_fields in H.
  destruct H as (_ & _ & _ & Hmo & Hd & Hh & Hmi).
  rewrite fmt_time_eq. unfold re_match, re_TIME_FMT, Seqs.
  rewrite rmatch_seq. apply pct_m_field; auto.
  rewrite rmatch_seq. unfold Lit1 at 1. rewrite rmatch_chr_cons.
  simpl Ascii.eqb. cbv iota.
  rewrite rmatch_seq. apply pct_d_field; auto.
  rewrite rmatch_seq. unfold Plus. rewrite rmatch_seq.
  unfold Space at 1. rewrite rmatch_chr_cons.
  change (is_space " ") with true. cbv iota.
  unfold Space. rewrite star_chr_stop by (apply pad2_stops; lia).
  rewrite rmatch_seq. apply pct_H_field; auto.
  rewrite rmatch_seq. unfold Lit1 at 1. rewrite rmatch_chr_cons.
  simpl Ascii.eqb. cbv iota.
  rewrite rmatch_seq. apply pct_M_field; auto.
Qed.

(** Reading back what [fmt_time] wrote: the same month, day, hour and
    minute, in 1900. *)
Lemma strptime_fmt_time t :
  stamp_ok t = true ->
  strptime re_TIME_FMT (fmt_time t) = Ok (replace_year 1900 t).
Proof.
  intros H. unfold strptime. rewrite (re_TIME_FMT_fmt_time t H).
  assert (F := stamp_ok_fields t H).
  destruct F as (Hy & Hs & Hus & Hmo & Hd & Hh & Hmi).
  rewrite fmt_time_eq.
  destruct (pad2_digits (month t)) as [a1 [a2 [E1 [_ [_ I1]]]]]; [lia|].
  destruct (pad2_digits (day t)) as [b1 [b2 [E2 [_ [_ I2]]]]]; [lia|].
  destruct (pad2_digits (hour t)) as [h1 [h2 [E3 [_ [_ I3]]]]]; [lia|].
  destruct (pad2_digits (minute t)) as [n1 [n2 [E4 [_ [_ I4]]]]]; [lia|].
  rewrite E1, E2, E3, E4.
  cbn [app length fst Nat.eqb negb group_int group span_of snd firstn skipn
       Nat.sub].
  rewrite I1, I2, I3, I4.
  unfold stamp_ok in H. apply andb_true_iff in H. destruct H as [_ V].
  unfold replace_year in *. rewrite Hs, Hus in *. rewrite V. reflexivity.
Qed.

(* ================================================================== *)
(** * Matching dates, gaps and tags *)
(* ================================================================== *)

Lemma first_some {A} (x y : option A) (m : A) :
  x = Some m ->
  match x with Some m' => Some m' | None => y end = Some m.
Proof. intros ->. reflexivity. Qed.

Lemma digit_cons K pos c a s :
  is_digit a = true -> rmatch Digit K pos c (a :: s) = K (S pos) c s.
Proof. intros H. unfold Digit. rewrite rmatch_chr_cons, H. reflexivity. Qed.

Lemma lit1_cons ch K pos c s :
  rmatch (Lit1 ch) K pos c (ch :: s) = K (S pos) c s.
Proof.
  unfold Lit1. rewrite rmatch_chr_cons, Ascii.eqb_refl. reflexivity.
Qed.

Lemma plus_digit2 K pos c a b s x :
  is_digit a = true -> is_digit b = true -> stops_at is_digit s ->
  K (2 + pos)%nat c s = Some x ->
  rmatch (Plus Digit) K pos c (a :: b :: s) = Some x.
Proof.
  intros Ha Hb Hs HK. unfold Plus. rewrite rmatch_seq, digit_cons by exact Ha.
  apply (star_chr_run is_digit K c x [b] (S pos) s); auto.
  - simpl. rewrite Hb. reflexivity.
  - by_pos HK.
Qed.

(** The eleven characters of a timestamp. *)
Lemma fmt_time_shape t :
  stamp_ok t = true ->
  exists a1 a2 b1 b2 h1 h2 n1 n2,
    fmt_time t =
      [a1; a2; "-"; b1; b2; " "; h1; h2; ":"; n1; n2]%char
    /\ is_digit a1 = true /\ is_digit a2 = true
    /\ is_digit b1 = true /\ is_digit b2 = true
    /\ is_digit h1 = true /\ is_digit h2 = true
    /\ is_digit n1 = true /\ is_digit n2 = true.
Proof.
  intros H. apply stamp_ok_fields in H.
  destruct H as (_ & _ & _ & Hmo & Hd & Hh & Hmi).
  destruct (pad2_digits (month t)) as [a1 [a2 [E1 [? [? _]]]]]; [lia|].
  destruct (pad2_digits (day t)) as [b1 [b2 [E2 [? [? _]]]]]; [lia|].
  destruct (pad2_digits (hour t)) as [h1 [h2 [E3 [? [? _]]]]]; [lia|].
  destruct (pad2_digits (minute t)) as [n1 [n2 [E4 [? [? _]]]]]; [lia|].
  exists a1, a2, b1, b2, h1, h2, n1, n2.
  rewrite fmt_time_eq, E1, E2, E3, E4. simpl. repeat split; assumption.
Qed.

Lemma fmt_time_length t : stamp_ok t = true -> length (fmt_time t) = 11%nat.
Proof.
  intros H. destruct (fmt_time_shape t H) as (? & ? & ? & ? & ? & ? & ? & ? & E & _).
  rewrite E. reflexivity.
Qed.

Lemma fmt_time_stops t rest :
  stamp_ok t = true -> stops_at is_space (fmt_time t ++ rest).
Proof.
  intros H.
  destruct (fmt_time_shape t H) as (? & ? & ? & ? & ? & ? & ? & ? & E & Ha & _).
  rewrite E. simpl. apply digit_not_space. exact Ha.
Qed.

(** [re_date] takes a timestamp as [fmt_time] writes it. *)
Lemma re_date_stamp K pos c t rest x :
  stamp_ok t = true ->
  K (11 + pos)%nat c rest = Some x ->
  rmatch re_date K pos c (fmt_time t ++ rest) = Some x.
Proof.
  intros H HK.
  destruct (fmt_time_shape t H)
    as (a1 & a2 & b1 & b2 & h1 & h2 & n1 & n2 & E & ? & ? & ? & ? & ? & ? & ? & ?).
  rewrite E. simpl app. unfold re_date, Seqs.
  rewrite rmatch_seq. apply plus_digit2; auto; [reflexivity|].
  rewrite rmatch_seq, lit1_cons.
  rewrite rmatch_seq. apply plus_digit2; auto; [reflexivity|].
  rewrite rmatch_seq, lit1_cons.
  rewrite rmatch_seq, digit_cons by assumption.
  rewrite rmatch_seq, digit_cons by assumption.
  rewrite rmatch_seq, lit1_cons.
  rewrite rmatch_seq, digit_cons by assumption.
  rewrite rmatch_seq, digit_cons by assumption.
  exact HK.
Qed.

Lemma no_dash_skipn s n : no_dash s = true -> no_dash (skipn n s) = true.
Proof.
  unfold no_dash. rewrite !forallb_forall. intros H a Ha. apply H.
  rewrite <- (firstn_skipn n s). apply in_or_app. right. exact Ha.
Qed.

(** Without a hyphen there is no date. *)
Lemma re_date_no_dash K pos c s :
  no_dash s = true -> rmatch re_date K pos c s = None.
Proof.
  intros H. unfold re_date, Seqs. rewrite rmatch_seq.
  apply rmatch_none. intros n c' Hn.
  apply (no_dash_skipn s n) in H.
  destruct (skipn n s) as [|a l]; rewrite rmatch_seq; unfold Lit1.
  - apply rmatch_chr_nil.
  - rewrite rmatch_chr_cons. unfold no_dash in H. cbn [forallb] in H.
    apply andb_true_iff in H. destruct H as [H _].
    apply negb_true_iff in H. rewrite H. reflexivity.
Qed.

(** A gap takes all the blanks before a text that does not start with
    one. *)
Lemma gap_run K pos c g rest x :
  forallb is_space g = true -> (2 <= length g)%nat ->
  stops_at is_space rest ->
  K (pos + length g)%nat c rest = Some x ->
  rmatch Gap K pos c (g ++ rest) = Some x.
Proof.
  intros Hg Hl Hs HK. destruct g as [|a [|b g]]; simpl in Hl; try lia.
  simpl in Hg. apply andb_true_iff in Hg. destruct Hg as [Ha Hg].
  apply andb_true_iff in Hg. destruct Hg as [Hb Hg].
  unfold Gap, Plus, Space. simpl app.
  rewrite rmatch_seq, rmatch_chr_cons, Ha.
  rewrite rmatch_seq, rmatch_chr_cons, Hb.
  apply star_chr_run; auto. by_pos HK.
Qed.

(** It gives back its last blank when that is the only way on. *)
Lemma gap_back K pos c body z rest x :
  forallb is_space body = true -> is_space z = true ->
  (2 <= length body)%nat -> stops_at is_space rest ->
  K (S (pos + length body)) c rest = None ->
  K (pos + length body)%nat c (z :: rest) = Some x ->
  rmatch Gap K pos c (body ++ z :: rest) = Some x.
Proof.
  intros Hg Hz Hl Hs Hn HK. destruct body as [|a [|b g]]; simpl in Hl; try lia.
  simpl in Hg. apply andb_true_iff in Hg. destruct Hg as [Ha Hg].
  apply andb_true_iff in Hg. destruct Hg as [Hb Hg].
  unfold Gap, Plus, Space. simpl app.
  rewrite rmatch_seq, rmatch_chr_cons, Ha.
  rewrite rmatch_seq, rmatch_chr_cons, Hb.
  apply star_chr_back; auto.
  - by_pos Hn.
  - by_pos HK.
Qed.

(** The deadline group: a gap and a timestamp. *)
Lemma deadline_present K pos c g t rest x :
  forallb is_space g = true -> (2 <= length g)%nat -> stamp_ok t = true ->
  K (pos + length g + 11)%nat
    ((2, (pos, pos + length g + 11)) :: c)%nat rest = Some x ->
  rmatch (Opt re_deadline_group) K pos c (g ++ fmt_time t ++ rest) = Some x.
Proof.
  intros Hg Hl Ht HK. rewrite rmatch_opt. apply first_some.
  unfold re_deadline_group. rewrite rmatch_group, rmatch_seq.
  apply gap_run; auto; [apply fmt_time_stops; assumption|].
  apply re_date_stamp; auto.
  by_pos HK.
Qed.

Lemma deadline_absent K pos c s :
  no_dash s = true ->
  rmatch (Opt re_deadline_group) K pos c s = K pos c s.
Proof.
  intros H. rewrite rmatch_opt.
  unfold re_deadline_group. rewrite rmatch_group, rmatch_seq.
  rewrite rmatch_none; [reflexivity|].
  intros n c' Hn. apply re_date_no_dash. apply no_dash_skipn. exact H.
Qed.

Lemma re_tags_cons K pos c a s :
  rmatch re_tags K pos c (a :: s) =
  if is_tagchar a
  then rmatch (Star (Chr is_tagchar)) (rmatch Word K) (S pos) c s
  else None.
Proof. reflexivity. Qed.

Lemma word_is_tagchar a : is_word a = true -> is_tagchar a = true.
Proof. unfold is_tagchar. intros ->. reflexivity. Qed.

(** [re_tags] takes a text of tag characters that ends in a word
    character, when it is two characters at least... *)
Lemma re_tags_run K pos c a body z rest x :
  is_tagchar a = true -> forallb is_tagchar body = true ->
  is_word z = true ->
  stops_at is_tagchar rest -> stops_at is_word rest ->
  K (S (S (pos + length body))) c rest = Some x ->
  rmatch re_tags K pos c (a :: body ++ z :: rest) = Some x.
Proof.
  intros Ha Hb Hz Hs1 Hs2 HK. rewrite re_tags_cons, Ha.
  apply star_chr_back; auto.
  - apply word_is_tagchar. exact Hz.
  - destruct rest as [|r rest]; [reflexivity|]. simpl in Hs2.
    unfold Word. rewrite rmatch_chr_cons, Hs2. reflexivity.
  - unfold Word. rewrite rmatch_chr_cons, Hz. by_pos HK.
Qed.

(** ... and fails on a single character. *)
Lemma re_tags_single K pos c z rest :
  stops_at is_tagchar rest -> stops_at is_word rest ->
  rmatch re_tags K pos c (z :: rest) = None.
Proof.
  intros Hs1 Hs2. rewrite re_tags_cons.
  destruct (is_tagchar z); [|reflexivity].
  rewrite star_chr_stop by exact Hs1.
  destruct rest as [|r rest]; [reflexivity|]. simpl in Hs2.
  unfold Word. rewrite rmatch_chr_cons, Hs2. reflexivity.
Qed.

Lemma forallb_repeat {A} (p : A -> bool) (a : A) (n : nat) :
  p a = true -> forallb p (repeat a n) = true.
Proof. intros H. induction n; simpl; rewrite ?H; auto. Qed.

Lemma repeat_snoc {A} (a : A) (n : nat) : repeat a (S n) = repeat a n ++ [a].
Proof. induction n; simpl; auto. simpl in IHn. rewrite <- IHn. reflexivity. Qed.

(** The tags group: a gap of three blanks or more, and a tag text that
    starts and ends with a word character. *)
Lemma tags_present K pos c n ts rest x :
  (3 <= n)%nat ->
  forallb is_tagchar ts = true ->
  (exists a ts', ts = a :: ts' /\ is_word a = true) ->
  (exists body z, ts = body ++ [z] /\ is_word z = true) ->
  stops_at is_tagchar rest -> stops_at is_word rest ->
  K (pos + n + length ts)%nat
    ((3, (pos, pos + n + length ts)) :: c)%nat rest = Some x ->
  rmatch (Opt re_tags_group) K pos c (repeat " "%char n ++ ts ++ rest)
  = Some x.
Proof.
  intros Hl Hts [a [ts' [Ea Ha]]] [body [z [Ez Hz]]] Hs1 Hs2 HK.
  rewrite rmatch_opt. apply first_some.
  unfold re_tags_group. rewrite rmatch_group, rmatch_seq.
  assert (Hsp : forall k, forallb is_space (repeat " "%char k) = true)
    by (intros k; apply forallb_repeat; reflexivity).
  destruct body as [|b body].
  - (* a single character: the gap gives back a blank *)
    simpl in Ez. assert (Eaz : a = z) by congruence.
    assert (Ets : ts' = []) by congruence. subst a ts' ts.
    destruct n as [|n]; [lia|]. rewrite repeat_snoc, <- app_assoc.
    simpl app.
    apply gap_back; auto; rewrite ?repeat_length; try lia.
    + simpl. apply word_not_space. exact Ha.
    + apply re_tags_single; auto.
    + apply (re_tags_run _ _ _ " "%char [] z); auto.
      by_pos HK.
  - rewrite Ez in Ea. simpl in Ea. injection Ea as E1 E2.
    subst b ts' ts.
    simpl in Hts. apply andb_true_iff in Hts. destruct Hts as [Hb Hts].
    rewrite forallb_app in Hts. apply andb_true_iff in Hts.
    destruct Hts as [Hbody _].
    rewrite <- app_assoc. simpl app.
    apply gap_run; auto; rewrite ?repeat_length; try lia.
    + simpl. apply word_not_space. exact Ha.
    + apply re_tags_run; auto.
      by_pos HK.
Qed.

Lemma tags_absent K pos c :
  rmatch (Opt re_tags_group) K pos c [NL] = K pos c [NL].
Proof. reflexivity. Qed.

(* ================================================================== *)
(** * Stripping, joining and splitting *)
(* ================================================================== *)

Lemma lstrip_stop s : stops_at is_space s -> lstrip s = s.
Proof. destruct s as [|a s]; simpl; auto. intros ->. reflexivity. Qed.

Lemma lstrip_spaces g s :
  forallb is_space g = true -> lstrip (g ++ s) = lstrip s.
Proof.
  induction g as [|a g IH]; simpl; auto. intros H.
  apply andb_true_iff in H. destruct H as [-> H]. auto.
Qed.

Lemma rstrip_last s z : is_space z = false -> rstrip (s ++ [z]) = s ++ [z].
Proof.
  intros H. unfold rstrip. rewrite rev_app_distr. simpl. rewrite H.
  simpl. rewrite rev_involutive. reflexivity.
Qed.

Lemma rstrip_spaces s g :
  forallb is_space g = true -> rstrip (s ++ g) = rstrip s.
Proof.
  intros H. unfold rstrip. rewrite rev_app_distr, lstrip_spaces; auto.
  rewrite forallb_forall in *. intros x Hx. apply H. apply in_rev. exact Hx.
Qed.

Lemma strip_core g1 s z g2 :
  forallb is_space g1 = true -> forallb is_space g2 = true ->
  stops_at is_space (s ++ [z]) -> is_space z = false ->
  strip (g1 ++ (s ++ [z]) ++ g2) = s ++ [z].
Proof.
  intros H1 H2 Hs Hz. unfold strip.
  rewrite lstrip_spaces by exact H1.
  rewrite lstrip_stop.
  - rewrite rstrip_spaces by exact H2. apply rstrip_last. exact Hz.
  - destruct s; simpl in *; auto.
Qed.

Lemma spaces_are_space n : forallb is_space (repeat " "%char n) = true.
Proof. apply forallb_repeat. reflexivity. Qed.

(** Names. *)
Lemma name_tail_last : forall n s c,
  (length s <= n)%nat -> is_word c = true -> name_tail_ok s = true ->
  exists body z, c :: s = body ++ [z] /\ is_word z = true.
Proof.
  induction n as [|n IH]; intros s c Hn Hc Hok.
  - destruct s; [|simpl in Hn; lia]. exists [], c. auto.
  - destruct s as [|a s]; [exists [], c; auto|]. simpl in Hn, Hok.
    destruct (is_word a) eqn:Ha.
    + destruct (IH s a) as [body [z [E Hz]]]; auto; try lia.
      exists (c :: body), z. rewrite E. auto.
    + apply andb_true_iff in Hok. destruct Hok as [_ Hok].
      destruct s as [|b s]; [discriminate Hok|].
      apply andb_true_iff in Hok. destruct Hok as [Hb Hok].
      destruct (IH s b) as [body [z [E Hz]]]; auto; try (simpl in Hn; lia).
      exists (c :: a :: body), z. rewrite E. auto.
Qed.

Lemma name_last nm :
  is_name nm = true -> exists body z, nm = body ++ [z] /\ is_word z = true.
Proof.
  destruct nm as [|c s]; [discriminate|]. simpl. intros H.
  apply andb_true_iff in H. destruct H as [H Hok].
  apply andb_true_iff in H. destruct H as [Hc _].
  apply (name_tail_last (length s)); auto.
Qed.

Lemma name_first nm :
  is_name nm = true -> exists a tl, nm = a :: tl /\ is_word a = true.
Proof.
  destruct nm as [|c s]; [discriminate|]. simpl. intros H.
  apply andb_true_iff in H. destruct H as [H _].
  apply andb_true_iff in H. destruct H as [Hc _]. eauto.
Qed.

Lemma name_tail_chars : forall n s,
  (length s <= n)%nat -> name_tail_ok s = true ->
  forallb is_tagchar s = true.
Proof.
  induction n as [|n IH]; intros s Hn Hok.
  - destruct s; [reflexivity | simpl in Hn; lia].
  - destruct s as [|a s]; [reflexivity|]. simpl in Hn, Hok.
    cbn [forallb]. destruct (is_word a) eqn:Ha.
    + rewrite (word_is_tagchar a Ha), IH; auto. lia.
    + apply andb_true_iff in Hok. destruct Hok as [Esp Hok].
      apply Ascii.eqb_eq in Esp. subst a.
      destruct s as [|b s]; [discriminate Hok|].
      apply andb_true_iff in Hok. destruct Hok as [Hb Hok].
      cbn [forallb]. rewrite (word_is_tagchar b Hb), IH; auto.
      simpl in Hn. lia.
Qed.

Lemma name_chars nm : is_name nm = true -> forallb is_tagchar nm = true.
Proof.
  destruct nm as [|c s]; [discriminate|]. simpl. intros H.
  apply andb_true_iff in H. destruct H as [H Hok].
  apply andb_true_iff in H. destruct H as [Hc _].
  rewrite (word_is_tagchar c Hc). apply (name_tail_chars (length s)); auto.
Qed.

(** Tag texts. *)
Lemma tag_chars t : is_tag t = true -> forallb is_tagchar t = true.
Proof.
  unfold is_tag. intros H. apply andb_true_iff in H. destruct H as [_ H].
  rewrite forallb_forall in *. intros x Hx. apply word_is_tagchar. auto.
Qed.

Lemma join_cons2 sep a b l :
  join sep (a :: b :: l) = a ++ sep ++ join sep (b :: l).
Proof. reflexivity. Qed.

Lemma join_tags_chars ts :
  forallb is_tag ts = true ->
  forallb is_tagchar (join (L ", ") ts) = true.
Proof.
  induction ts as [|t ts IH]; [reflexivity|]. cbn [forallb]. intros H.
  apply andb_true_iff in H. destruct H as [Ht H].
  destruct ts as [|t' ts]; [simpl; apply tag_chars; exact Ht|].
  rewrite join_cons2, !forallb_app, (tag_chars t Ht), IH by exact H.
  reflexivity.
Qed.

Lemma tag_first t :
  is_tag t = true -> exists a tl, t = a :: tl /\ is_word a = true.
Proof.
  unfold is_tag. destruct t as [|a tl]; [discriminate|]. simpl. intros H.
  apply andb_true_iff in H. destruct H as [H _]. eauto.
Qed.

Lemma tag_last t :
  is_tag t = true -> exists body z, t = body ++ [z] /\ is_word z = true.
Proof.
  unfold is_tag. intros H. apply andb_true_iff in H. destruct H as [Hn H].
  destruct (exists_last (l := t)) as [body [z E]].
  - intros ->. discriminate Hn.
  - exists body, z. split; auto. subst t.
    rewrite forallb_app in H. apply andb_true_iff in H.
    destruct H as [_ H]. simpl in H. rewrite andb_true_r in H. exact H.
Qed.

Lemma join_tags_first ts :
  ts <> [] -> forallb is_tag ts = true ->
  exists a tl, join (L ", ") ts = a :: tl /\ is_word a = true.
Proof.
  destruct ts as [|t ts]; [congruence|]. intros _ H. cbn [forallb] in H.
  apply andb_true_iff in H. destruct H as [Ht _].
  destruct (tag_first t Ht) as [a [tl [-> Ha]]].
  destruct ts; simpl; eauto.
Qed.

Lemma join_tags_last ts :
  ts <> [] -> forallb is_tag ts = true ->
  exists body z, join (L ", ") ts = body ++ [z] /\ is_word z = true.
Proof.
  induction ts as [|t ts IH]; [congruence|]. intros _ H. cbn [forallb] in H.
  apply andb_true_iff in H. destruct H as [Ht H].
  destruct ts as [|t' ts].
  - simpl. apply tag_last. exact Ht.
  - destruct IH as [body [z [E Hz]]]; [discriminate | exact H |].
    rewrite join_cons2, E. exists (t ++ L ", " ++ body), z.
    rewrite <- !app_assoc. auto.
Qed.

Lemma starts_with_word a s :
  is_word a = true -> starts_with (L ", ") (a :: s) = false.
Proof.
  intros H. unfold L. cbn [list_ascii_of_string starts_with].
  destruct (Ascii.eqb "," a) eqn:E; [|reflexivity].
  apply Ascii.eqb_eq in E. subst a. discriminate H.
Qed.

Lemma split_go_word w : forall cur rest,
  forallb is_word w = true ->
  split_go (L ", ") cur 0 (w ++ rest) =
  split_go (L ", ") (rev w ++ cur) 0 rest.
Proof.
  induction w as [|a w IH]; intros cur rest H; [reflexivity|].
  cbn [forallb] in H. apply andb_true_iff in H. destruct H as [Ha H].
  rewrite <- app_comm_cons. cbn [split_go].
  rewrite (starts_with_word a _ Ha), IH by exact H.
  simpl. rewrite <- app_assoc. reflexivity.
Qed.

Lemma split_go_sep cur rest :
  split_go (L ", ") cur 0 (","%char :: " "%char :: rest) =
  rev cur :: split_go (L ", ") [] 0 rest.
Proof. reflexivity. Qed.

(** Splitting the joined tags gives the tags back. *)
Lemma split_join_tags ts :
  ts <> [] -> forallb is_tag ts = true ->
  split (L ", ") (join (L ", ") ts) = ts.
Proof.
  unfold split.
  induction ts as [|t ts IH]; [congruence|]. intros _ H. cbn [forallb] in H.
  apply andb_true_iff in H. destruct H as [Ht H].
  assert (Hw : forallb is_word t = true).
  { unfold is_tag in Ht. apply andb_true_iff in Ht. tauto. }
  destruct ts as [|t' ts].
  - simpl join. rewrite <- (app_nil_r t) at 1.
    rewrite split_go_word by exact Hw. simpl.
    rewrite app_nil_r, rev_involutive. reflexivity.
  - rewrite join_cons2, split_go_word by exact Hw.
    change (L ", " ++ join (L ", ") (t' :: ts))
      with (","%char :: " "%char :: join (L ", ") (t' :: ts)).
    rewrite split_go_sep, app_nil_r, rev_involutive, IH; auto. discriminate.
Qed.

(* ================================================================== *)
(** * Durations and timestamps as text *)
(* ================================================================== *)

Lemma fmt_delta_shape d :
  delta_ok d = true ->
  exists h1 h2 m1 m2,
    fmt_delta d = ["("; h1; h2; ":"; m1; m2; ")"]%char
    /\ is_digit h1 = true /\ is_digit h2 = true
    /\ is_digit m1 = true /\ is_digit m2 = true.
Proof.
  unfold delta_ok. intros H. apply andb_true_iff in H. destruct H as [H1 H2].
  apply Z.leb_le in H1. apply Z.ltb_lt in H2. unfold fmt_delta.
  destruct (pad2_digits (d / (3600 * 1000000))) as [h1 [h2 [E1 [? [? _]]]]].
  { split; [apply Z.div_pos; lia | apply Z.div_lt_upper_bound; lia]. }
  destruct (pad2_digits ((d / (60 * 1000000)) mod 60))
    as [m1 [m2 [E2 [? [? _]]]]].
  { assert (0 <= (d / (60 * 1000000)) mod 60 < 60)
      by (apply Z.mod_pos_bound; lia). lia. }
  exists h1, h2, m1, m2. rewrite E1, E2. simpl. auto.
Qed.

Lemma strip_stamp n t :
  stamp_ok t = true -> strip (repeat " "%char n ++ fmt_time t) = fmt_time t.
Proof.
  intros H.
  destruct (fmt_time_shape t H)
    as (a1 & a2 & b1 & b2 & h1 & h2 & n1 & n2 & E & Ha & _ & _ & _ & _ & _ & _ & Hn).
  rewrite E.
  change [a1; a2; "-"; b1; b2; " "; h1; h2; ":"; n1; n2]%char
    with ([a1; a2; "-"; b1; b2; " "; h1; h2; ":"; n1]%char ++ [n2]).
  rewrite <- (app_nil_r (_ ++ [n2])) at 1.
  apply strip_core; auto using spaces_are_space, digit_not_space.
  simpl. apply digit_not_space. exact Ha.
Qed.

(** [parse_time] reads a timestamp back, blanks in front or not, without
    looking at the clock. *)
Lemma parse_time_stamp n t w :
  stamp_ok t = true ->
  parse_time (repeat " "%char n ++ fmt_time t) w = (Ok t, w).
Proof.
  intros H. unfold parse_time. rewrite strip_stamp by exact H.
  rewrite strptime_fmt_time by exact H.
  unfold ret. f_equal. f_equal.
  apply stamp_ok_fields in H. destruct H as (Hy & _).
  destruct t; simpl in *. subst. reflexivity.
Qed.

(* ================================================================== *)
(** * Reading a task line back *)
(* ================================================================== *)

Lemma substr (pre mid post : str) (a b : nat) :
  a = length pre -> (b - a)%nat = length mid ->
  firstn (b - a) (skipn a (pre ++ mid ++ post)) = mid.
Proof.
  intros -> ->. rewrite skipn_app, skipn_all, Nat.sub_diag. simpl.
  rewrite firstn_app, firstn_all, Nat.sub_diag. simpl.
  apply app_nil_r.
Qed.

Lemma group_at (line : str) (m : nat * caps) (i a b : nat)
  (pre mid post : str) :
  span_of i (snd m) = Some (a, b) ->
  line = pre ++ mid ++ post ->
  a = length pre -> (b - a)%nat = length mid ->
  group line m i = Some mid.
Proof.
  intros Hs -> Ha Hb. unfold group. rewrite Hs, substr; auto.
Qed.

Lemma total_time_opt K pos c h1 h2 m1 m2 rest x :
  is_digit h1 = true -> is_digit h2 = true ->
  is_digit m1 = true -> is_digit m2 = true ->
  K (7 + pos)%nat c rest = Some x ->
  rmatch (Opt re_total_time) K pos c
         ("(" :: h1 :: h2 :: ":" :: m1 :: m2 :: ")" :: rest)%char = Some x.
Proof.
  intros H1 H2 H3 H4 HK. rewrite rmatch_opt. apply first_some.
  unfold re_total_time, Seqs.
  rewrite rmatch_seq, lit1_cons.
  rewrite rmatch_seq, digit_cons by assumption.
  rewrite rmatch_seq, digit_cons by assumption.
  rewrite rmatch_seq, lit1_cons.
  rewrite rmatch_seq, digit_cons by assumption.
  rewrite rmatch_seq, digit_cons by assumption.
  rewrite rmatch_seq, lit1_cons.
  exact HK.
Qed.

Lemma tagchar_no_dash s : forallb is_tagchar s = true -> no_dash s = true.
Proof.
  unfold no_dash. rewrite !forallb_forall. intros H a Ha.
  specialize (H a Ha). apply negb_true_iff.
  destruct (Ascii.eqb "-" a) eqn:E; auto.
  apply Ascii.eqb_eq in E. subst a. discriminate H.
Qed.

Lemma tags_part_chars nm dl tgs :
  forallb is_tag tgs = true ->
  forallb is_tagchar (tags_part nm dl tgs) = true.
Proof.
  intros H. unfold tags_part. destruct tgs as [|t ts]; [reflexivity|].
  rewrite forallb_app, join_tags_chars by exact H.
  rewrite forallb_repeat by reflexivity. reflexivity.
Qed.

Lemma tags_part_no_dash nm dl tgs :
  forallb is_tag tgs = true -> no_dash (tags_part nm dl tgs ++ [NL]) = true.
Proof.
  intros H. unfold no_dash. rewrite forallb_app.
  fold (no_dash (tags_part nm dl tgs)).
  rewrite tagchar_no_dash by (apply tags_part_chars; exact H). reflexivity.
Qed.

Lemma name_stops nm rest : is_name nm = true -> stops_at is_space (nm ++ rest).
Proof.
  intros H. destruct (name_first nm H) as [a [tl [-> Ha]]]. simpl.
  apply word_not_space. exact Ha.
Qed.

Lemma name_end_parts nm dl tgs :
  name_end (deadline_part nm dl ++ tags_part nm dl tgs ++ [NL]).
Proof.
  unfold deadline_part, tags_part, tags_gap, name_gap.
  destruct dl as [d|].
  - rewrite Nat.add_comm. simpl. auto.
  - destruct tgs as [|tg tgs]; [simpl; auto|].
    rewrite (Nat.add_comm _ 14). simpl. auto.
Qed.

Lemma group_none (line : str) (m : nat * caps) (i : nat) :
  span_of i (snd m) = None -> group line m i = None.
Proof. intros H. unfold group. rewrite H. reflexivity. Qed.

Section TaskLine.
Variables (h1 h2 m1 m2 : ascii) (t : Task).
Hypothesis Hh1 : is_digit h1 = true.
Hypothesis Hh2 : is_digit h2 = true.
Hypothesis Hm1 : is_digit m1 = true.
Hypothesis Hm2 : is_digit m2 = true.
Hypothesis Hname : is_name (name t) = true.
Hypothesis Htags : forallb is_tag (tags t) = true.
Hypothesis Hdl : forall d, deadline t = Some d -> stamp_ok d = true.

Let total : str := ["("; h1; h2; ":"; m1; m2; ")"]%char.

(** The groups [Task.regex] finds in the line of a task. *)
Lemma Task_regex_line :
  exists m,
    re_match Task_regex (Task_line total t ++ [NL]) = Some m
    /\ group (Task_line total t ++ [NL]) m 1 = Some (name t)
    /\ group (Task_line total t ++ [NL]) m 2 =
       match deadline t with
       | Some d => Some (deadline_part (name t) (deadline t))
       | None => None
       end
    /\ group (Task_line total t ++ [NL]) m 3 =
       match tags t with
       | [] => None
       | _ :: _ => Some (tags_part (name t) (deadline t) (tags t))
       end.
Proof.
  destruct t as [nm tgs dl]. simpl in Hname, Htags, Hdl.
  unfold Task_line. simpl name; simpl tags; simpl deadline.
  assert (Hnd := tags_part_no_dash nm dl tgs Htags).
  assert (Hend := name_end_parts nm dl tgs).
  assert (Hgap : (3 <= name_gap nm)%nat) by (unfold name_gap; lia).
  assert (Hstart :
    forall K x,
      rmatch (Seq (Opt re_deadline_group) (Seq (Opt re_tags_group) Eps)) K
        (10 + length nm)%nat [(1, (10, 10 + length nm))]%nat
        (deadline_part nm dl ++ tags_part nm dl tgs ++ [NL]) = Some x ->
      rmatch Task_regex K 0 []
        ((total ++ L "   " ++ nm ++ deadline_part nm dl
          ++ tags_part nm dl tgs) ++ [NL]) = Some x).
  { intros K x HK. unfold Task_regex, Seqs, total.
    rewrite <- !app_assoc. simpl app.
    rewrite rmatch_seq. apply total_time_opt; auto.
    rewrite rmatch_seq.
    apply (star_chr_run is_space _ _ _ [" "; " "; " "]%char);
      [reflexivity | | apply name_stops; exact Hname].
    rewrite rmatch_seq, rmatch_group.
    apply re_task_name; auto. }
  assert (Htxt : forall tg ts, tgs = tg :: ts ->
            forallb is_tagchar (join (L ", ") tgs) = true
            /\ (exists a ts', join (L ", ") tgs = a :: ts' /\ is_word a = true)
            /\ (exists body z, join (L ", ") tgs = body ++ [z]
                               /\ is_word z = true)).
  { intros tg ts E. repeat split.
    - apply join_tags_chars; exact Htags.
    - apply join_tags_first; [rewrite E; discriminate | exact Htags].
    - apply join_tags_last; [rewrite E; discriminate | exact Htags]. }
  unfold re_match.
  destruct dl as [d|]; destruct tgs as [|tg ts];
    try (destruct (Htxt tg ts eq_refl) as [Hc [Hf Hl]]);
    (eexists; split;
     [ apply Hstart; rewrite rmatch_seq;
       first [ unfold deadline_part at 1; rewrite <- app_assoc;
               apply deadline_present;
               [ apply spaces_are_space | rewrite repeat_length; lia
               | apply Hdl; reflexivity | ]
             | simpl deadline_part; simpl app;
               rewrite deadline_absent by exact Hnd ];
       rewrite rmatch_seq;
       first [ unfold tags_part; rewrite <- app_assoc;
               apply tags_present;
               [ unfold tags_gap; lia | exact Hc | exact Hf | exact Hl
               | reflexivity | reflexivity | ]
             | simpl tags_part; simpl app; rewrite tags_absent ];
       reflexivity
     | ]).
  all: split;
    [ eapply (group_at _ _ 1 10%nat (10 + length nm)%nat
                (total ++ L "   ") nm);
      [ reflexivity | rewrite <- !app_assoc; reflexivity | reflexivity | lia ]
    | split ].
  all: try (apply group_none; reflexivity).
  all: try (assert (Hlen := fmt_time_length d (Hdl d eq_refl))).
  - eapply (group_at _ _ 2 _ _ (total ++ L "   " ++ nm)
              (deadline_part nm (Some d)));
      [ reflexivity | rewrite <- !app_assoc; reflexivity | | ];
      unfold deadline_part, tags_part;
      rewrite ?length_app, ?repeat_length, ?Hlen; simpl; lia.
  - eapply (group_at _ _ 2 _ _ (total ++ L "   " ++ nm)
              (deadline_part nm (Some d)));
      [ reflexivity | rewrite <- !app_assoc; reflexivity | | ];
      unfold deadline_part, tags_part;
      rewrite ?length_app, ?repeat_length, ?Hlen; simpl; lia.
  - eapply (group_at _ _ 3 _ _
              (total ++ L "   " ++ nm ++ deadline_part nm (Some d))
              (tags_part nm (Some d) (tg :: ts)) [NL]);
      [ reflexivity | rewrite <- !app_assoc; reflexivity | | ];
      unfold deadline_part, tags_part;
      rewrite ?length_app, ?repeat_length, ?Hlen; simpl; lia.
  - eapply (group_at _ _ 3 _ _
              (total ++ L "   " ++ nm ++ deadline_part nm None)
              (tags_part nm None (tg :: ts)) [NL]);
      [ reflexivity | rewrite <- !app_assoc; reflexivity | | ];
      unfold deadline_part, tags_part;
      rewrite ?length_app, ?repeat_length; simpl; lia.
Qed.
Lemma strip_tags_part nm dl tg ts :
  forallb is_tag (tg :: ts) = true ->
  strip (tags_part nm dl (tg :: ts)) = join (L ", ") (tg :: ts).
Proof.
  intros H. unfold tags_part.
  destruct (join_tags_last (tg :: ts)) as [body [z [E Hz]]];
    [discriminate | exact H |].
  destruct (join_tags_first (tg :: ts)) as [a [tl [E' Ha]]];
    [discriminate | exact H |].
  rewrite E. rewrite <- (app_nil_r (body ++ [z])) at 1.
  apply strip_core; auto using spaces_are_space, word_not_space.
  rewrite <- E, E'. simpl. apply word_not_space. exact Ha.
Qed.

(** [Task.from_string] gives the task back from its line. *)
Lemma Task_from_string_line w :
  Task_from_string (Task_line total t ++ [NL]) w = (Ok t, w).
Proof.
  destruct Task_regex_line as [m [Em [G1 [G2 G3]]]].
  destruct t as [nm tgs dl]. cbn [name tags deadline] in *.
  unfold Task_from_string. rewrite Em, G1, G2, G3. clear Em G1 G2 G3.
  assert (Etags : forall tg ts, tgs = tg :: ts ->
            exists c g, tags_part nm dl tgs = c :: g
                        /\ split (L ", ") (strip (c :: g)) = tgs).
  { intros tg ts ->.
    destruct (tags_part nm dl (tg :: ts)) as [|c g] eqn:E.
    - exfalso. apply (f_equal (@length ascii)) in E.
      unfold tags_part, tags_gap in E. rewrite length_app, repeat_length in E.
      simpl in E. destruct dl; lia.
    - exists c, g. split; [reflexivity|].
      rewrite <- E, strip_tags_part by exact Htags.
      apply split_join_tags; [discriminate | exact Htags]. }
  assert (Edl : forall d, dl = Some d ->
            exists c g, deadline_part nm dl = c :: g
                        /\ parse_time (c :: g) w = (Ok d, w)).
  { intros d ->.
    destruct (deadline_part nm (Some d)) as [|c g] eqn:E.
    - exfalso. apply (f_equal (@length ascii)) in E.
      unfold deadline_part, name_gap in E.
      rewrite length_app, repeat_length in E. simpl in E. lia.
    - exists c, g. split; [reflexivity|]. rewrite <- E.
      unfold deadline_part. apply parse_time_stamp. apply Hdl. reflexivity. }
  destruct tgs as [|tg ts]; destruct dl as [d|];
    try (destruct (Etags tg ts eq_refl) as [c [g [-> ->]]]);
    try (destruct (Edl d eq_refl) as [c' [g' [-> Ep]]]);
    unfold bind; rewrite ?Ep; reflexivity.
Qed.
End TaskLine.

(* ================================================================== *)
(** * Reading an entry line back *)
(* ================================================================== *)

Lemma dashes_not_stamp K pos c t rest :
  stamp_ok t = true ->
  rmatch (Lit (L "--")) K pos c (fmt_time t ++ rest) = None.
Proof.
  intros H.
  destruct (fmt_time_shape t H)
    as (a1 & a2 & b1 & b2 & h1 & h2 & n1 & n2 & E & Ha & _).
  rewrite E. simpl app. unfold L. cbn [list_ascii_of_string Lit].
  rewrite rmatch_seq. unfold Lit1 at 1. rewrite rmatch_chr_cons.
  destruct (Ascii.eqb "-" a1) eqn:E1; [|reflexivity].
  apply Ascii.eqb_eq in E1. subst a1. discriminate Ha.
Qed.

Lemma stamp_not_dashes t : stamp_ok t = true -> str_eqb (fmt_time t) (L "--") = false.
Proof.
  intros H.
  destruct (fmt_time_shape t H)
    as (a1 & a2 & b1 & b2 & h1 & h2 & n1 & n2 & E & Ha & _).
  rewrite E. unfold L. cbn [list_ascii_of_string str_eqb].
  destruct (Ascii.eqb a1 "-") eqn:E1; [|reflexivity].
  apply Ascii.eqb_eq in E1. subst a1. discriminate Ha.
Qed.

Section EntryLine.
Variables (h1 h2 m1 m2 : ascii) (e : Entry).
Hypothesis Hh1 : is_digit h1 = true.
Hypothesis Hh2 : is_digit h2 = true.
Hypothesis Hm1 : is_digit m1 = true.
Hypothesis Hm2 : is_digit m2 = true.
Hypothesis Hname : is_name (task e) = true.
Hypothesis Hstart : stamp_ok (start e) = true.
Hypothesis Hend : forall t, end_ e = Some t -> stamp_ok t = true.
Hypothesis Hord : entry_ok e = true.

Let total : str := ["("; h1; h2; ":"; m1; m2; ")"]%char.
Let end_text : str :=
  match end_ e with
  | None => L "--"
  | Some t => fmt_time t
  end.

(** The groups [Entry.regex] finds in the line of an entry. *)
Lemma Entry_regex_line :
  exists m,
    re_match Entry_regex (Entry_line total e ++ [NL]) = Some m
    /\ group (Entry_line total e ++ [NL]) m 1 = Some (task e)
    /\ group (Entry_line total e ++ [NL]) m 2 = Some (fmt_time (start e))
    /\ group (Entry_line total e ++ [NL]) m 3 = Some end_text.
Proof.
  destruct e as [nm st en]. cbn [task start end_] in *.
  unfold Entry_line. cbn [task start end_].
  assert (Hgap : (3 <= name_gap nm)%nat) by (unfold name_gap; lia).
  assert (Hl := fmt_time_length st Hstart).
  assert (Hne : name_end (repeat " "%char (name_gap nm) ++ fmt_time st
                          ++ L "   " ++ end_text ++ [NL])).
  { destruct (name_gap nm) as [|[|g]]; try lia. simpl. auto. }
  assert (Hes : stops_at is_space (end_text ++ [NL])).
  { unfold end_text. destruct en as [t|]; [|reflexivity].
    apply fmt_time_stops. apply Hend. reflexivity. }
  assert (Hel : length end_text = match en with Some _ => 11 | None => 2 end%nat).
  { unfold end_text. destruct en as [t|]; [|reflexivity].
    apply fmt_time_length. apply Hend. reflexivity. }
  assert (Hmatch : forall x,
    rmatch (Group 3 (Alt (Lit (L "--")) re_date))
      (fun pos' c' s' => rmatch Eps (fun pos c _ => Some (pos, c)) pos' c' s')
      (24 + length nm + name_gap nm)%nat
      [(2, (10 + length nm + name_gap nm, 21 + length nm + name_gap nm));
       (1, (10, 10 + length nm))]%nat
      (end_text ++ [NL]) = Some x ->
    re_match Entry_regex
      ((total ++ L "   " ++ nm ++ repeat " "%char (name_gap nm)
        ++ fmt_time st ++ L "   " ++ end_text) ++ [NL]) = Some x).
  { intros x Hx.
    unfold re_match, Entry_regex, Seqs, total.
    rewrite <- !app_assoc. simpl app.
    rewrite rmatch_seq. apply total_time_opt; auto.
    rewrite rmatch_seq.
    apply (star_chr_run is_space _ _ _ [" "; " "; " "]%char);
      [reflexivity | | apply name_stops; exact Hname].
    rewrite rmatch_seq, rmatch_group.
    apply re_task_name; auto.
    rewrite rmatch_seq.
    apply gap_run;
      [ apply spaces_are_space | rewrite repeat_length; lia
      | apply fmt_time_stops; exact Hstart | ].
    rewrite rmatch_seq, rmatch_group. apply re_date_stamp; [exact Hstart|].
    rewrite rmatch_seq.
    apply (gap_run _ _ _ [" "; " "; " "]%char);
      [reflexivity | simpl; lia | exact Hes | ].
    rewrite rmatch_seq. rewrite repeat_length. simpl length.
    by_pos Hx. }
  fold end_text.
  assert (Hgroups : forall b x,
    x = (b, [(3, ((24 + length nm + name_gap nm),
                  (24 + length nm + name_gap nm + length end_text)));
             (2, (10 + length nm + name_gap nm, 21 + length nm + name_gap nm));
             (1, (10, 10 + length nm))]%nat) ->
    group ((total ++ L "   " ++ nm ++ repeat " "%char (name_gap nm)
            ++ fmt_time st ++ L "   " ++ end_text) ++ [NL]) x 1 = Some nm
    /\ group ((total ++ L "   " ++ nm ++ repeat " "%char (name_gap nm)
               ++ fmt_time st ++ L "   " ++ end_text) ++ [NL]) x 2
       = Some (fmt_time st)
    /\ group ((total ++ L "   " ++ nm ++ repeat " "%char (name_gap nm)
               ++ fmt_time st ++ L "   " ++ end_text) ++ [NL]) x 3
       = Some end_text).
  { intros b x ->. repeat split.
    - eapply (group_at _ _ 1 _ _ (total ++ L "   ") nm);
        [ reflexivity | rewrite <- !app_assoc; reflexivity | reflexivity | lia ].
    - eapply (group_at _ _ 2 _ _
                (total ++ L "   " ++ nm ++ repeat " "%char (name_gap nm))
                (fmt_time st));
        [ reflexivity | rewrite <- !app_assoc; reflexivity | | ];
        unfold total; rewrite ?length_app, ?repeat_length, ?Hl;
        cbn [length L list_ascii_of_string]; lia.
    - eapply (group_at _ _ 3 _ _
                (total ++ L "   " ++ nm ++ repeat " "%char (name_gap nm)
                 ++ fmt_time st ++ L "   ")
                end_text [NL]);
        [ reflexivity | rewrite <- !app_assoc; reflexivity | | ];
        unfold total; rewrite ?length_app, ?repeat_length, ?Hl;
        cbn [length L list_ascii_of_string]; lia. }
  exists ((24 + length nm + name_gap nm + length end_text)%nat,
          [(3, ((24 + length nm + name_gap nm),
                (24 + length nm + name_gap nm + length end_text)));
           (2, (10 + length nm + name_gap nm, 21 + length nm + name_gap nm));
           (1, (10, 10 + length nm))]%nat).
  split; [apply Hmatch | eapply Hgroups; reflexivity].
  rewrite rmatch_group, rmatch_alt.
  unfold end_text in *. destruct en as [t|].
  - rewrite dashes_not_stamp by (apply Hend; reflexivity).
    apply re_date_stamp; [apply Hend; reflexivity|].
    rewrite rmatch_eps, Hel. pos_tac.
  - apply first_some. rewrite Hel. unfold L.
    cbn [list_ascii_of_string Lit app].
    rewrite rmatch_seq, lit1_cons, rmatch_seq, lit1_cons.
    rewrite !rmatch_eps. pos_tac.
Qed.
(** [Entry.from_string] gives the entry back from its line. *)
Lemma Entry_from_string_line w :
  Entry_from_string (Entry_line total e ++ [NL]) w = (Ok e, w).
Proof.
  destruct Entry_regex_line as [m [Em [G1 [G2 G3]]]].
  unfold Entry_from_string. rewrite Em, G1, G2, G3. clear Em G1 G2 G3.
  unfold end_text. destruct e as [nm st en]. cbn [task start end_] in *.
  unfold bind at 1.
  rewrite (parse_time_stamp 0 st w Hstart : parse_time (fmt_time st) w = _).
  unfold bind at 1. destruct en as [t|].
  - rewrite stamp_not_dashes by (apply Hend; reflexivity).
    unfold bind at 1.
    rewrite (parse_time_stamp 0 t w (Hend t eq_refl)
             : parse_time (fmt_time t) w = _).
    unfold ret, Entry_init. unfold entry_ok in Hord. simpl in Hord.
    apply negb_true_iff in Hord. rewrite Hord. reflexivity.
  - reflexivity.
Qed.
End EntryLine.

(* ================================================================== *)
(** * Rendering a task and an entry *)
(* ================================================================== *)

Lemma spaces_plus a b :
  repeat " "%char (a + b) = repeat " "%char a ++ repeat " "%char b.
Proof. apply repeat_app. Qed.

Lemma is_total_fmt_delta d : delta_ok d = true -> is_total (fmt_delta d).
Proof.
  intros H. destruct (fmt_delta_shape d H) as (h1 & h2 & m1 & m2 & E & ?).
  exists h1, h2, m1, m2. auto.
Qed.

Lemma is_total_stops total s : is_total total -> stops_at is_space (total ++ s).
Proof. intros (h1 & h2 & m1 & m2 & -> & _). reflexivity. Qed.

(** The line [Entry.__str__] builds. *)
Lemma Entry_str_line e d :
  stamp_ok (start e) = true ->
  join SEP3 [fmt_delta d; ljust 20 (task e); fmt_time (start e);
             match end_ e with None => L "--" | Some t => fmt_time t end]
  = Entry_line (fmt_delta d) e.
Proof.
  intros _. unfold Entry_line, join, ljust, name_gap, SEP3.
  rewrite spaces_plus. rewrite <- !app_assoc. reflexivity.
Qed.

(** The line [Task.to_string] builds, stripped. *)
Lemma Task_to_string_line t total :
  is_total total -> task_printable t = true ->
  strip (join SEP3 [total; ljust 20 (name t);
                    ljust 11 (match deadline t with
                              | Some d => fmt_time d
                              | None => []
                              end);
                    join (L ", ") (tags t)])
  = Task_line total t.
Proof.
  intros Htot Hp. unfold task_printable in Hp.
  apply andb_true_iff in Hp. destruct Hp as [Hp Hdl].
  apply andb_true_iff in Hp. destruct Hp as [Hname Htags].
  destruct t as [nm tgs dl]. cbn [name tags deadline] in *.
  unfold Task_line, deadline_part, tags_part, tags_gap, join, ljust,
    name_gap, SEP3.
  cbn [name tags deadline].
  fold (join (L ", ") tgs).
  generalize (20 - length nm)%nat as pad. intros pad.
  destruct tgs as [|tg ts].
  - (* no tags: the blanks at the end go *)
    destruct dl as [d|].
    + simpl in Hdl. rewrite (fmt_time_length d Hdl), Nat.sub_diag. cbn [repeat].
      destruct (fmt_time_shape d Hdl)
        as (a1 & a2 & b1 & b2 & x1 & x2 & n1 & n2 & E & _ & _ & _ & _ & _ & _ & _ & Hn).
      rewrite spaces_plus, !app_nil_r.
      match goal with
      | |- strip ?X = _ =>
          replace X with ([] ++ ((total ++ L "   " ++ nm ++ repeat " "%char pad
                      ++ repeat " "%char 3
                      ++ [a1; a2; "-"; b1; b2; " "; x1; x2; ":"; n1]%char)
                     ++ [n2]) ++ L "   ")
            by (rewrite ?E, ?app_nil_r, <- ?app_assoc; cbn [app];
                rewrite ?app_nil_r; reflexivity)
      end.
      rewrite strip_core; auto using digit_not_space.
      * rewrite E, <- !app_assoc. reflexivity.
      * rewrite <- !app_assoc. apply is_total_stops. exact Htot.
    + destruct (name_last nm Hname) as [body [z [E Hz]]].
      cbn [length Nat.sub]. rewrite !app_nil_r.
      match goal with
      | |- strip ?X = _ =>
          replace X with ([] ++ ((total ++ L "   " ++ body) ++ [z])
              ++ (repeat " "%char pad ++ L "   "
                  ++ repeat " "%char 11 ++ L "   "))
            by (rewrite ?E, ?app_nil_r, <- ?app_assoc; cbn [app];
                rewrite ?app_nil_r; reflexivity)
      end.
      rewrite strip_core; auto using word_not_space.
      * rewrite E, <- !app_assoc. reflexivity.
      * rewrite !forallb_app, !spaces_are_space. reflexivity.
      * rewrite <- !app_assoc. apply is_total_stops. exact Htot.
  - (* tags: nothing to strip *)
    destruct (join_tags_last (tg :: ts)) as [body [z [E Hz]]];
      [discriminate | exact Htags |].
    assert (Hcore : forall pre,
              stops_at is_space (pre ++ join (L ", ") (tg :: ts)) ->
              strip (pre ++ join (L ", ") (tg :: ts))
              = pre ++ join (L ", ") (tg :: ts)).
    { intros pre Hs. rewrite E in *.
      transitivity (strip ([] ++ ((pre ++ body) ++ [z]) ++ [])).
      - f_equal. rewrite app_nil_r, <- !app_assoc. reflexivity.
      - rewrite strip_core; auto using word_not_space.
        + rewrite <- !app_assoc. reflexivity.
        + rewrite <- !app_assoc. exact Hs. }
    destruct dl as [d|].
    + simpl in Hdl. rewrite (fmt_time_length d Hdl), Nat.sub_diag. cbn [repeat].
      rewrite spaces_plus.
      match goal with
      | |- strip ?X = _ =>
          replace X with ((total ++ L "   " ++ nm ++ repeat " "%char pad
               ++ repeat " "%char 3 ++ fmt_time d ++ repeat " "%char 3)
              ++ join (L ", ") (tg :: ts))
            by (rewrite ?E, ?app_nil_r, <- ?app_assoc; cbn [app];
                rewrite ?app_nil_r; reflexivity)
      end.
      rewrite Hcore.
      * rewrite <- !app_assoc. reflexivity.
      * rewrite <- !app_assoc. apply is_total_stops. exact Htot.
    + cbn [length Nat.sub]. rewrite !spaces_plus.
      match goal with
      | |- strip ?X = _ =>
          replace X with ((total ++ L "   " ++ nm ++ repeat " "%char pad
               ++ repeat " "%char 3 ++ repeat " "%char 14)
              ++ join (L ", ") (tg :: ts))
            by (rewrite ?E, ?app_nil_r, <- ?app_assoc; cbn [app];
                rewrite ?app_nil_r; reflexivity)
      end.
      rewrite Hcore.
      * rewrite <- !app_assoc. reflexivity.
      * rewrite <- !app_assoc. apply is_total_stops. exact Htot.
Qed.

(* ================================================================== *)
(** * Rendering under the clock *)
(* ================================================================== *)

Lemma later_refl w : later w w.
Proof. split; auto. Qed.

Lemma later_trans w1 w2 w3 : later w1 w2 -> later w2 w3 -> later w1 w3.
Proof. intros [E1 L1] [E2 L2]. split; [congruence | lia]. Qed.

Lemma Entry_time_run e w :
  exists w',
    Entry_time e w = (Ok (Entry_time_at (reading w (tick w)) e), w')
    /\ later w w'.
Proof.
  unfold Entry_time, Entry_time_at. destruct (end_ e).
  - exists w. split; [reflexivity | apply later_refl].
  - eexists. split; [reflexivity|]. split; simpl; auto.
Qed.

Lemma Entry_time_closed e w t :
  end_ e = Some t ->
  forall nw, Entry_time e w = (Ok (Entry_time_at nw e), w).
Proof. intros H nw. unfold Entry_time, Entry_time_at. rewrite H. reflexivity. Qed.

(** With only the last entry open, the durations of a list of entries
    are all taken at one reading of the clock. *)
Lemma mapM_Entry_time : forall l w,
  forallb (fun e => is_some (end_ e)) (removelast l) = true ->
  exists w',
    mapM Entry_time l w = (Ok (map (Entry_time_at (reading w (tick w))) l), w')
    /\ later w w'.
Proof.
  induction l as [|e l IH]; intros w H.
  - exists w. split; [reflexivity | apply later_refl].
  - destruct l as [|e' l].
    + destruct (Entry_time_run e w) as [w' [E Hw]].
      exists w'. split; auto. simpl. unfold bind. rewrite E. reflexivity.
    + change (removelast (e :: e' :: l)) with (e :: removelast (e' :: l)) in H.
      cbn [forallb] in H. apply andb_true_iff in H. destruct H as [He H].
      destruct (end_ e) as [t|] eqn:Ee; [|discriminate He].
      destruct (IH w H) as [w' [E Hw]]. exists w'. split; auto.
      change (mapM Entry_time (e :: e' :: l) w)
        with (bind (Entry_time e)
                (fun b => bind (mapM Entry_time (e' :: l))
                            (fun bs => ret (b :: bs))) w).
      unfold bind at 1.
      rewrite (Entry_time_closed e w t Ee (reading w (tick w))).
      unfold bind. rewrite E. reflexivity.
Qed.

Lemma forallb_removelast {A} (q : A -> bool) : forall l,
  forallb q l = true -> forallb q (removelast l) = true.
Proof.
  induction l as [|a l IH]; [reflexivity|]. cbn [forallb]. intros H.
  apply andb_true_iff in H. destruct H as [Ha H].
  destruct l as [|b l]; [reflexivity|].
  change (removelast (a :: b :: l)) with (a :: removelast (b :: l)).
  cbn [forallb]. rewrite Ha. apply IH. exact H.
Qed.

Lemma forallb_filter {A} (p q : A -> bool) (l : list A) :
  forallb q l = true -> forallb q (filter p l) = true.
Proof.
  rewrite !forallb_forall. intros H x Hx. apply filter_In in Hx. apply H. tauto.
Qed.

Lemma removelast_filter {A} (p q : A -> bool) : forall l,
  forallb q (removelast l) = true ->
  forallb q (removelast (filter p l)) = true.
Proof.
  induction l as [|x l _] using rev_ind; [reflexivity|].
  rewrite removelast_last, filter_app. intros H. simpl.
  destruct (p x).
  - rewrite removelast_last. apply forallb_filter. exact H.
  - rewrite app_nil_r. apply forallb_removelast, forallb_filter. exact H.
Qed.

(** What [Task.time] computes: the total at one reading of the clock. *)
Lemma Task_time_run t sheet w :
  open_only_last sheet = true ->
  exists w',
    Task_time t sheet w = (Ok (Task_time_at (reading w (tick w)) t sheet), w')
    /\ later w w'.
Proof.
  intros H. unfold Task_time, Task_time_at, Task_entries.
  destruct (mapM_Entry_time
              (filter (fun e => str_eqb (task e) (name t)) (time sheet)) w)
    as [w' [E Hw]].
  - apply removelast_filter. exact H.
  - exists w'. split; auto. unfold bind. rewrite E. reflexivity.
Qed.

Lemma reading_later w w' n : later w w' -> reading w' n = reading w n.
Proof. unfold reading. intros [-> _]. reflexivity. Qed.

(** [Task.to_string] writes the line of the task. *)
Lemma Task_to_string_run t sheet w0 w :
  open_only_last sheet = true -> task_printable t = true ->
  (forall n, (tick w0 <= n)%nat ->
             delta_ok (Task_time_at (reading w0 n) t sheet) = true) ->
  later w0 w ->
  exists line w',
    Task_to_string t sheet w = (Ok line, w')
    /\ task_line_of t line /\ later w0 w'.
Proof.
  intros Ho Hp Hd Hw.
  destruct (Task_time_run t sheet w Ho) as [w' [E Hw']].
  assert (Hok : delta_ok (Task_time_at (reading w (tick w)) t sheet) = true).
  { rewrite (reading_later w0 w) by exact Hw. apply Hd. apply Hw. }
  eexists. exists w'. split; [|split].
  - unfold Task_to_string, bind. rewrite E. unfold ret.
    rewrite Task_to_string_line; [reflexivity | | exact Hp].
    apply is_total_fmt_delta. exact Hok.
  - eexists. split; [|reflexivity]. apply is_total_fmt_delta. exact Hok.
  - apply (later_trans w0 w w'); assumption.
Qed.

(** [Entry.__str__] writes the line of the entry. *)
Lemma Entry_str_run e w0 w :
  entry_printable e = true ->
  (forall n, (tick w0 <= n)%nat ->
             delta_ok (Entry_time_at (reading w0 n) e) = true) ->
  later w0 w ->
  exists line w',
    Entry_str e w = (Ok line, w')
    /\ entry_line_of e line /\ later w0 w'.
Proof.
  intros Hp Hd Hw.
  destruct (Entry_time_run e w) as [w' [E Hw']].
  assert (Hok : delta_ok (Entry_time_at (reading w (tick w)) e) = true).
  { rewrite (reading_later w0 w) by exact Hw. apply Hd. apply Hw. }
  unfold entry_printable in Hp. apply andb_true_iff in Hp.
  destruct Hp as [Hp _]. apply andb_true_iff in Hp. destruct Hp as [_ Hst].
  eexists. exists w'. split; [|split].
  - unfold Entry_str, bind. rewrite E. unfold ret.
    rewrite Entry_str_line by exact Hst. reflexivity.
  - eexists. split; [|reflexivity]. apply is_total_fmt_delta. exact Hok.
  - apply (later_trans w0 w w'); assumption.
Qed.

(** Rendering a list of records, one line each. *)
Lemma mapM_lines {A} (f : A -> M World str) (R : A -> str -> Prop)
  (I : World -> Prop) : forall l,
  (forall a w, In a l -> I w ->
     exists line w', f a w = (Ok line, w') /\ R a line /\ I w') ->
  forall w, I w ->
  exists lines w', mapM f l w = (Ok lines, w') /\ Forall2 R l lines /\ I w'.
Proof.
  induction l as [|a l IH]; intros H w Hw.
  - exists [], w. repeat split; auto.
  - destruct (H a w (or_introl eq_refl) Hw) as [line [w1 [E1 [R1 I1]]]].
    destruct (IH (fun a' w' Hin => H a' w' (or_intror Hin)) w1 I1)
      as [lines [w2 [E2 [R2 I2]]]].
    exists (line :: lines), w2. repeat split; auto.
    simpl. unfold bind. rewrite E1, E2. reflexivity.
Qed.

(* ================================================================== *)
(** * The text of a document *)
(* ================================================================== *)

Lemma join_blank_end : forall ls,
  join [NL] (ls ++ [[]]) = concat (map add_nl ls).
Proof.
  induction ls as [|l ls IH]; [reflexivity|].
  destruct ls as [|x xs].
  - simpl. unfold add_nl. rewrite app_nil_r. reflexivity.
  - change ((l :: x :: xs) ++ [[]]) with (l :: x :: (xs ++ [[]])).
    rewrite join_cons2.
    change (x :: xs ++ [[]]) with ((x :: xs) ++ [[]]). rewrite IH.
    cbn [map concat]. unfold add_nl. rewrite <- !app_assoc.
    reflexivity.
Qed.

Lemma universal_newlines_id : forall s,
  no_cr s = true -> universal_newlines s = s.
Proof.
  induction s as [|c s IH]; [reflexivity|]. unfold no_cr. cbn [forallb].
  intros H. apply andb_true_iff in H. destruct H as [Hc H].
  apply negb_true_iff in Hc. cbn [universal_newlines]. rewrite Hc.
  f_equal. apply IH. exact H.
Qed.

Lemma readlines_line l rest :
  no_nl l = true -> readlines (l ++ NL :: rest) = add_nl l :: readlines rest.
Proof.
  induction l as [|c l IH]; intros H.
  - reflexivity.
  - unfold no_nl in H. cbn [forallb] in H. apply andb_true_iff in H.
    destruct H as [Hc H]. apply negb_true_iff in Hc.
    rewrite <- app_comm_cons. cbn [readlines]. rewrite Hc, IH by exact H.
    reflexivity.
Qed.

Lemma readlines_concat : forall ls,
  forallb no_nl ls = true ->
  readlines (concat (map add_nl ls)) = map add_nl ls.
Proof.
  induction ls as [|l ls IH]; [reflexivity|]. cbn [forallb]. intros H.
  apply andb_true_iff in H. destruct H as [Hl H].
  cbn [map concat]. unfold add_nl at 1. rewrite <- app_assoc.
  cbn [app]. rewrite readlines_line, IH; auto.
Qed.

Lemma filter_long : forall ls,
  forallb (fun l => (2 <=? length l)%nat) ls = true ->
  filter (fun line => (2 <? length line)%nat) (map add_nl ls) = map add_nl ls.
Proof.
  induction ls as [|l ls IH]; [reflexivity|]. cbn [forallb]. intros H.
  apply andb_true_iff in H. destruct H as [Hl H].
  cbn [map filter]. unfold add_nl at 1. rewrite length_app. cbn [length].
  apply Nat.leb_le in Hl.
  assert ((2 <? length l + 1)%nat = true) as -> by (apply Nat.ltb_lt; lia).
  rewrite IH by exact H. reflexivity.
Qed.

(** Characters of the lines. *)
Lemma plain_no_nl s : forallb plain_char s = true -> no_nl s = true.
Proof.
  unfold no_nl. rewrite !forallb_forall. intros H x Hx.
  specialize (H x Hx). unfold plain_char in H.
  apply andb_true_iff in H. tauto.
Qed.

Lemma plain_no_cr s : forallb plain_char s = true -> no_cr s = true.
Proof.
  unfold no_cr. rewrite !forallb_forall. intros H x Hx.
  specialize (H x Hx). unfold plain_char in H.
  apply andb_true_iff in H. tauto.
Qed.

Lemma tagchar_plain a : is_tagchar a = true -> plain_char a = true.
Proof.
  intros H. unfold plain_char.
  destruct (Ascii.eqb a NL) eqn:E1;
    [apply Ascii.eqb_eq in E1; subst a; discriminate H|].
  destruct (Ascii.eqb a CR) eqn:E2;
    [apply Ascii.eqb_eq in E2; subst a; discriminate H|].
  reflexivity.
Qed.

Lemma digit_plain a : is_digit a = true -> plain_char a = true.
Proof.
  intros H. apply tagchar_plain, word_is_tagchar, digit_is_word. exact H.
Qed.

Lemma tagchars_plain s :
  forallb is_tagchar s = true -> forallb plain_char s = true.
Proof.
  rewrite !forallb_forall. intros H x Hx. apply tagchar_plain. auto.
Qed.

Lemma spaces_plain n : forallb plain_char (repeat " "%char n) = true.
Proof. apply forallb_repeat. reflexivity. Qed.

Lemma stamp_plain t : stamp_ok t = true -> forallb plain_char (fmt_time t) = true.
Proof.
  intros H.
  destruct (fmt_time_shape t H)
    as (a1 & a2 & b1 & b2 & h1 & h2 & n1 & n2 & E & D1 & D2 & D3 & D4 & D5 & D6 & D7 & D8).
  rewrite E. cbn [forallb].
  rewrite (digit_plain a1 D1), (digit_plain a2 D2), (digit_plain b1 D3),
    (digit_plain b2 D4), (digit_plain h1 D5), (digit_plain h2 D6),
    (digit_plain n1 D7), (digit_plain n2 D8).
  reflexivity.
Qed.

Lemma total_plain total : is_total total -> forallb plain_char total = true.
Proof.
  intros (h1 & h2 & m1 & m2 & -> & D1 & D2 & D3 & D4). cbn [forallb].
  rewrite (digit_plain h1 D1), (digit_plain h2 D2), (digit_plain m1 D3),
    (digit_plain m2 D4).
  reflexivity.
Qed.

Lemma task_line_plain t line :
  task_printable t = true -> task_line_of t line ->
  forallb plain_char line = true.
Proof.
  intros Hp [total [Htot ->]]. unfold task_printable in Hp.
  apply andb_true_iff in Hp. destruct Hp as [Hp Hdl].
  apply andb_true_iff in Hp. destruct Hp as [Hname Htags].
  unfold Task_line, deadline_part, tags_part.
  rewrite !forallb_app, (total_plain total Htot).
  rewrite (tagchars_plain _ (name_chars _ Hname)).
  change (forallb plain_char (L "   ")) with true.
  destruct (deadline t) as [d|]; destruct (tags t) as [|tg ts];
    rewrite ?forallb_app, ?spaces_plain; cbn [forallb andb];
    rewrite ?(stamp_plain d Hdl);
    rewrite ?(tagchars_plain _ (join_tags_chars _ Htags)); reflexivity.
Qed.

Lemma entry_line_plain e line :
  entry_printable e = true -> entry_line_of e line ->
  forallb plain_char line = true.
Proof.
  intros Hp [total [Htot ->]]. unfold entry_printable in Hp.
  apply andb_true_iff in Hp. destruct Hp as [Hp Hend].
  apply andb_true_iff in Hp. destruct Hp as [Hname Hst].
  unfold Entry_line.
  rewrite !forallb_app, (total_plain total Htot).
  rewrite (tagchars_plain _ (name_chars _ Hname)), spaces_plain.
  rewrite (stamp_plain _ Hst).
  change (forallb plain_char (L "   ")) with true.
  destruct (end_ e) as [t|]; [rewrite (stamp_plain t Hend)|]; reflexivity.
Qed.

Lemma total_length total : is_total total -> length total = 7%nat.
Proof. intros (h1 & h2 & m1 & m2 & -> & _). reflexivity. Qed.

Lemma task_line_long t line :
  task_line_of t line -> (2 <=? length line)%nat = true.
Proof.
  intros [total [Htot ->]]. apply Nat.leb_le. unfold Task_line.
  rewrite length_app, (total_length total Htot). lia.
Qed.

Lemma entry_line_long e line :
  entry_line_of e line -> (2 <=? length line)%nat = true.
Proof.
  intros [total [Htot ->]]. apply Nat.leb_le. unfold Entry_line.
  rewrite length_app, (total_length total Htot). lia.
Qed.

(** A line that starts with a parenthesis is no header. *)
Lemma header_no_match word total rest :
  is_total total -> re_match (re_header word) (total ++ rest) = None.
Proof. intros (h1 & h2 & m1 & m2 & -> & _). reflexivity. Qed.

(* ================================================================== *)
(** * Reading the sections back *)
(* ================================================================== *)

Lemma task_row_reads t line w bw :
  task_row t line ->
  re_match (re_header bw) (add_nl line) = None
  /\ Task_from_string (add_nl line) w = (Ok t, w).
Proof.
  intros [Hp [total [Htot ->]]]. split.
  - unfold add_nl, Task_line. rewrite <- app_assoc.
    apply header_no_match. exact Htot.
  - destruct Htot as (h1 & h2 & m1 & m2 & -> & D1 & D2 & D3 & D4).
    unfold task_printable in Hp.
    apply andb_true_iff in Hp. destruct Hp as [Hp Hdl].
    apply andb_true_iff in Hp. destruct Hp as [Hname Htags].
    apply Task_from_string_line; auto.
    intros d E. rewrite E in Hdl. exact Hdl.
Qed.

Lemma entry_row_reads e line w bw :
  entry_row e line ->
  re_match (re_header bw) (add_nl line) = None
  /\ Entry_from_string (add_nl line) w = (Ok e, w).
Proof.
  intros [[Hp Hord] [total [Htot ->]]]. split.
  - unfold add_nl, Entry_line. rewrite <- app_assoc.
    apply header_no_match. exact Htot.
  - destruct Htot as (h1 & h2 & m1 & m2 & -> & D1 & D2 & D3 & D4).
    unfold entry_printable in Hp.
    apply andb_true_iff in Hp. destruct Hp as [Hp Hend].
    apply andb_true_iff in Hp. destruct Hp as [Hname Hst].
    apply Entry_from_string_line; auto.
    intros t E. rewrite E in Hend. exact Hend.
Qed.

Section ParseRecords.
Context {A : Type}.
Variable from_string : str -> M World A.
Variable R : A -> str -> Prop.
Variable bw : option str.
Hypothesis Hline : forall a line w,
  R a line ->
  re_match (re_header (show_break_word bw)) (add_nl line) = None
  /\ from_string (add_nl line) w = (Ok a, w).

(** Up to the header of the next section. *)
Lemma parse_to_header hdr rl :
  (exists m, re_match (re_header (show_break_word bw)) hdr = Some m) ->
  (exists m, re_match re_rule rl = Some m) ->
  forall recs lines, Forall2 R recs lines ->
  forall rest w,
    parse from_string bw (map add_nl lines ++ hdr :: rl :: rest) w
    = (Ok (recs, rest), w).
Proof.
  intros [mh Hh] [mr Hr] recs lines F.
  induction F as [|a line recs lines Ha F IH]; intros rest w.
  - cbn [map app parse]. rewrite Hh. unfold bind, assert_match.
    rewrite Hr. reflexivity.
  - destruct (Hline a line w Ha) as [Hn Hf].
    cbn [map app parse]. rewrite Hn. unfold bind. rewrite Hf.
    fold (@bind World). unfold bind. rewrite IH. reflexivity.
Qed.

(** Up to the end of the file, for the last section. *)
Lemma parse_to_end :
  bw = None ->
  forall recs lines, Forall2 R recs lines ->
  forall w, parse from_string bw (map add_nl lines) w = (Ok (recs, []), w).
Proof.
  intros Hb recs lines F.
  induction F as [|a line recs lines Ha F IH]; intros w.
  - cbn [map parse]. rewrite Hb. reflexivity.
  - destruct (Hline a line w Ha) as [Hn Hf].
    cbn [map parse]. rewrite Hn. unfold bind. rewrite Hf, IH. reflexivity.
Qed.
End ParseRecords.

Lemma keyed_values (d : OrderedDict Task) :
  keyed_by_name d = true -> map (fun t => (name t, t)) (od_values d) = d.
Proof.
  unfold keyed_by_name, od_values. induction d as [|[k t] d IH];
    [reflexivity|].
  cbn [forallb map fst snd]. intros H. apply andb_true_iff in H.
  destruct H as [Hk H]. apply str_eqb_eq in Hk. rewrite <- Hk, IH by exact H.
  reflexivity.
Qed.

Lemma Forall2_in_l {A B} (R : A -> B -> Prop) l l' :
  Forall2 R l l' -> forall b, In b l' -> exists a, In a l /\ R a b.
Proof.
  induction 1 as [|a b l l' Hab F IH]; intros x Hx; [destruct Hx|].
  destruct Hx as [<-|Hx].
  - exists a. split; [left; reflexivity | exact Hab].
  - destruct (IH x Hx) as [a' [Ha' Hr]]. exists a'. split; [right|]; auto.
Qed.

Lemma forallb_Forall2 {A B} (R : A -> B -> Prop) (q : B -> bool) l l' :
  Forall2 R l l' -> (forall a b, R a b -> q b = true) -> forallb q l' = true.
Proof.
  intros F H. apply forallb_forall. intros b Hb.
  destruct (Forall2_in_l R l l' F b Hb) as [a [_ Hr]]. eauto.
Qed.

(* ================================================================== *)
(** * The round trip *)
(* ================================================================== *)

Lemma assert_match_ok {St} r line msg (s : St) :
  (exists m, re_match r line = Some m) ->
  assert_match r line msg s = (Ok tt, s).
Proof. intros [m H]. unfold assert_match. rewrite H. reflexivity. Qed.

Lemma header_matches word :
  word = L "Todo" \/ word = L "Time" \/ word = L "Done" ->
  exists m, re_match (re_header word) (add_nl (center 70 word)) = Some m.
Proof.
  intros [-> | [-> | ->]]; eexists; vm_compute; reflexivity.
Qed.

Lemma rule_matches : exists m, re_match re_rule (add_nl rule) = Some m.
Proof. eexists. vm_compute. reflexivity. Qed.

Lemma header_plain word :
  word = L "Todo" \/ word = L "Time" \/ word = L "Done" ->
  forallb plain_char (center 70 word) = true.
Proof. intros [-> | [-> | ->]]; vm_compute; reflexivity. Qed.

Lemma rule_plain : forallb plain_char rule = true.
Proof. vm_compute. reflexivity. Qed.

Lemma no_cr_concat : forall ls,
  forallb (forallb plain_char) ls = true ->
  no_cr (concat (map add_nl ls)) = true.
Proof.
  induction ls as [|l ls IH]; [reflexivity|]. cbn [forallb]. intros H.
  apply andb_true_iff in H. destruct H as [Hl H].
  assert (A1 := plain_no_cr l Hl). assert (A2 := IH H).
  cbn [map concat]. unfold add_nl at 1. unfold no_cr in *.
  rewrite !forallb_app, A1, A2. reflexivity.
Qed.

Lemma all_no_nl : forall ls,
  forallb (forallb plain_char) ls = true -> forallb no_nl ls = true.
Proof.
  intros ls H. rewrite forallb_forall in *. intros l Hl.
  apply plain_no_nl. auto.
Qed.

Lemma task_rows_plain tasks lines :
  Forall2 task_row tasks lines -> forallb (forallb plain_char) lines = true.
Proof.
  intros F. apply (forallb_Forall2 task_row _ tasks lines F).
  intros t line [Hp Hl]. apply (task_line_plain t); assumption.
Qed.

Lemma entry_rows_plain entries lines :
  Forall2 entry_row entries lines ->
  forallb (forallb plain_char) lines = true.
Proof.
  intros F. apply (forallb_Forall2 entry_row _ entries lines F).
  intros e line [[Hp _] Hl]. apply (entry_line_plain e); assumption.
Qed.

Lemma task_rows_long tasks lines :
  Forall2 task_row tasks lines ->
  forallb (fun l => (2 <=? length l)%nat) lines = true.
Proof.
  intros F. apply (forallb_Forall2 task_row _ tasks lines F).
  intros t line [_ Hl]. apply (task_line_long t). exact Hl.
Qed.

Lemma entry_rows_long entries lines :
  Forall2 entry_row entries lines ->
  forallb (fun l => (2 <=? length l)%nat) lines = true.
Proof.
  intros F. apply (forallb_Forall2 entry_row _ entries lines F).
  intros e line [_ Hl]. apply (entry_line_long e). exact Hl.
Qed.

Lemma filter_cons_long l ls :
  (2 <=? length l)%nat = true ->
  filter (fun line => (2 <? length line)%nat) (map add_nl (l :: ls))
  = add_nl l :: filter (fun line => (2 <? length line)%nat) (map add_nl ls).
Proof.
  intros H. apply Nat.leb_le in H. cbn [map filter].
  unfold add_nl at 1. rewrite length_app. cbn [length].
  assert ((2 <? length l + 1)%nat = true) as -> by (apply Nat.ltb_lt; lia).
  reflexivity.
Qed.

Lemma header_long title :
  title = L "Todo" \/ title = L "Time" \/ title = L "Done" ->
  (2 <=? length (center 70 title))%nat = true.
Proof. intros [-> | [-> | ->]]; reflexivity. Qed.

(** The lines of a section that the reader keeps. *)
Lemma kept_section title lines :
  title = L "Todo" \/ title = L "Time" \/ title = L "Done" ->
  forallb (fun l => (2 <=? length l)%nat) lines = true ->
  filter (fun line => (2 <? length line)%nat)
         (map add_nl (center 70 title :: rule :: lines ++ [[]]))
  = add_nl (center 70 title) :: add_nl rule :: map add_nl lines.
Proof.
  intros Ht Hl.
  rewrite filter_cons_long by (apply header_long; exact Ht).
  rewrite filter_cons_long by reflexivity.
  rewrite map_app, filter_app, filter_long by exact Hl.
  simpl. rewrite app_nil_r. reflexivity.
Qed.

Lemma kept_last_section title lines :
  title = L "Todo" \/ title = L "Time" \/ title = L "Done" ->
  forallb (fun l => (2 <=? length l)%nat) lines = true ->
  filter (fun line => (2 <? length line)%nat)
         (map add_nl (center 70 title :: rule :: lines))
  = add_nl (center 70 title) :: add_nl rule :: map add_nl lines.
Proof.
  intros Ht Hl.
  rewrite filter_cons_long by (apply header_long; exact Ht).
  rewrite filter_cons_long by reflexivity.
  rewrite filter_long by exact Hl. reflexivity.
Qed.

(** Reading the text of three sections gives their records back. *)
Lemma read_document tl el dl tasks entries dones w :
  Forall2 task_row tasks tl -> Forall2 entry_row entries el ->
  Forall2 task_row dones dl ->
  read_sections
    (join [NL] (section (L "Todo") tl ++ section (L "Time") el
                ++ section (L "Done") dl)) w
  = (Ok (map (fun t => (name t, t)) tasks, entries,
         map (fun t => (name t, t)) dones), w).
Proof.
  intros Ft Fe Fd.
  set (S1 := center 70 (L "Todo") :: rule :: tl ++ [[]]).
  set (S2 := center 70 (L "Time") :: rule :: el ++ [[]]).
  set (S3 := center 70 (L "Done") :: rule :: dl).
  assert (Etext : section (L "Todo") tl ++ section (L "Time") el
                  ++ section (L "Done") dl = (S1 ++ S2 ++ S3) ++ [[]]).
  { unfold section, S1, S2, S3. fold rule.
    repeat (cbn [app]; rewrite <- ?app_assoc, <- ?app_comm_cons).
    reflexivity. }
  assert (Pt := task_rows_plain _ _ Ft).
  assert (Pe := entry_rows_plain _ _ Fe).
  assert (Pd := task_rows_plain _ _ Fd).
  assert (Hplain : forallb (forallb plain_char) (S1 ++ S2 ++ S3) = true).
  { unfold S1, S2, S3.
    repeat (rewrite ?forallb_app; cbn [forallb]).
    repeat (apply andb_true_iff; split);
      first [ exact Pt | exact Pe | exact Pd | exact rule_plain
            | reflexivity | apply header_plain; auto ]. }
  unfold read_sections.
  rewrite Etext, join_blank_end.
  rewrite universal_newlines_id by (apply no_cr_concat; exact Hplain).
  rewrite readlines_concat by (apply all_no_nl; exact Hplain).
  rewrite !map_app, !filter_app.
  unfold S1, S2.
  rewrite (kept_section (L "Todo"))
    by (auto; apply (task_rows_long tasks); exact Ft).
  rewrite (kept_section (L "Time"))
    by (auto; apply (entry_rows_long entries); exact Fe).
  unfold S3.
  rewrite kept_last_section
    by (auto; apply (task_rows_long dones); exact Fd).
  cbn [app]. unfold bind at 1. cbn [next_line]. unfold ret at 1.
  cbn [fst snd].
  unfold bind at 1. rewrite assert_match_ok by (apply header_matches; auto).
  unfold bind at 1. cbn [next_line]. unfold ret at 1. cbn [fst snd].
  unfold bind at 1. rewrite assert_match_ok by apply rule_matches.
  unfold bind at 1.
  rewrite (parse_to_header Task_from_string task_row (Some (L "Time")))
    with (recs := tasks);
    [ | intros; apply task_row_reads; assumption
      | apply header_matches; auto | apply rule_matches | exact Ft ].
  cbn [fst snd]. unfold bind at 1.
  rewrite (parse_to_header Entry_from_string entry_row (Some (L "Done")))
    with (recs := entries);
    [ | intros; apply entry_row_reads; assumption
      | apply (header_matches (L "Done")); auto | apply rule_matches
      | exact Fe ].
  cbn [fst snd]. unfold bind at 1.
  rewrite (parse_to_end Task_from_string task_row None) with (recs := dones);
    [ | intros; apply task_row_reads; assumption | reflexivity | exact Fd ].
  reflexivity.
Qed.

Lemma forallb_In {A} (p : A -> bool) l a :
  forallb p l = true -> In a l -> p a = true.
Proof. intros H. rewrite forallb_forall in H. auto. Qed.

(** C1, amended.  For every sheet that satisfies the global invariants
    and that the text format can carry -- every task filed under its own
    name; names made of words of letters, digits and underscores
    separated by single blanks, two characters at least; tags that are
    such words; timestamps on a whole minute of the year 2000 other than
    29 February; every duration shown between 00:00 and 99:59 at any
    later reading of the clock -- [TymeSheet.__str__] produces a text from which [TymeSheet.from_file]
    reads the same sheet: todo, time and done are identical, in the same
    order. *)
Theorem round_trip (sheet : TymeSheet) (w : World) :
  od_ok (todo sheet) -> od_ok (done sheet) ->
  sheet_invariants sheet = true ->
  printable sheet = true ->
  durations_ok sheet w ->
  exists text w',
    TymeSheet_str sheet w = (Ok text, w')
    /\ from_file text w' = (Ok sheet, w').
Proof.
  intros Hokt Hokd Hinv Hpr Hdur.
  unfold sheet_invariants in Hinv.
  apply andb_true_iff in Hinv. destruct Hinv as [Hinv _].
  apply andb_true_iff in Hinv. destruct Hinv as [Hopen Hord].
  unfold printable in Hpr.
  apply andb_true_iff in Hpr. destruct Hpr as [Hpr Hpe].
  apply andb_true_iff in Hpr. destruct Hpr as [Hpr Hpd].
  apply andb_true_iff in Hpr. destruct Hpr as [Hpr Hpt].
  apply andb_true_iff in Hpr. destruct Hpr as [Hkt Hkd].
  set (I := fun w' : World => later w w').
  assert (Htask : forall t w1,
            In t (od_values (todo sheet) ++ od_values (done sheet)) ->
            task_printable t = true -> I w1 ->
            exists line w', Task_to_string t sheet w1 = (Ok line, w')
                            /\ task_row t line /\ I w').
  { intros t w1 Hin Hp Hw1.
    destruct (Task_to_string_run t sheet w w1) as [line [w' [E [Hl Hw']]]];
      [ exact Hopen | exact Hp
      | intros n Hn; apply (Hdur n Hn); exact Hin | exact Hw1 | ].
    exists line, w'. split; [exact E|]. split; [|exact Hw'].
    split; assumption. }
  destruct (mapM_lines (fun t => Task_to_string t sheet) task_row I
              (od_values (todo sheet))) with (w := w)
    as [tl [w1 [E1 [F1 I1]]]].
  { intros t w0 Hin Hw0. apply Htask; auto.
    - apply in_or_app. left. exact Hin.
    - apply (forallb_In _ _ _ Hpt Hin). }
  { apply later_refl. }
  destruct (mapM_lines Entry_str entry_row I (time sheet)) with (w := w1)
    as [el [w2 [E2 [F2 I2]]]].
  { intros e w0 Hin Hw0.
    assert (Hp := forallb_In _ _ _ Hpe Hin).
    destruct (Entry_str_run e w w0) as [line [w' [E [Hl Hw']]]];
      [ exact Hp | intros n Hn; apply (Hdur n Hn); exact Hin | exact Hw0 | ].
    exists line, w'. split; [exact E|]. split; [|exact Hw'].
    split; [split|]; auto. apply (forallb_In _ _ _ Hord Hin). }
  { exact I1. }
  destruct (mapM_lines (fun t => Task_to_string t sheet) task_row I
              (od_values (done sheet))) with (w := w2)
    as [dl [w3 [E3 [F3 I3]]]].
  { intros t w0 Hin Hw0. apply Htask; auto.
    - apply in_or_app. right. exact Hin.
    - apply (forallb_In _ _ _ Hpd Hin). }
  { exact I2. }
  exists (join [NL] (section (L "Todo") tl ++ section (L "Time") el
                     ++ section (L "Done") dl)), w3.
  split.
  - unfold TymeSheet_str, bind. rewrite E1, E2, E3. reflexivity.
  - unfold from_file, bind at 1.
    rewrite (read_document tl el dl _ _ _ w3 F1 F2 F3).
    cbn [fst snd]. unfold TymeSheet_init.
    rewrite !keyed_values by assumption.
    rewrite !od_of_pairs_id by assumption.
    unfold bind. rewrite validate_pass by exact Hopen.
    destruct sheet. reflexivity.
Qed.

Lemma round_trip_witness :
  exists text w',
    TymeSheet_str tidy noon = (Ok text, w')
    /\ from_file text w' = (Ok tidy, w').
Proof.
  apply (round_trip tidy noon).
  - unfold od_ok. simpl. constructor; [simpl; tauto | constructor].
  - unfold od_ok. simpl. constructor; [simpl; tauto | constructor].
  - reflexivity.
  - reflexivity.
  - intros n _. split.
    + intros e [<- | [<- | []]]; reflexivity.
    + intros t [<- | [<- | []]]; reflexivity.
Defined.

(** Outside these conditions the text may not even parse: a duration of
    a hundred hours or more is written with three digits, which the line
    patterns do not accept; [strptime] rejects 29 February, for want of a
    year; a name of one letter is no name to [Task.regex]. *)
Lemma long_haul_unreadable :
  sheet_invariants long_haul = true
  /\ exists msg, fst (there_and_back long_haul noon) = Raise (ParseError msg).
Proof. split; [reflexivity|]. eexists. vm_compute. reflexivity. Qed.

Lemma leap_day_unreadable :
  sheet_invariants leap_day = true
  /\ exists msg, fst (there_and_back leap_day noon) = Raise (ValueError msg).
Proof. split; [reflexivity|]. eexists. vm_compute. reflexivity. Qed.

Lemma one_letter_unreadable :
  sheet_invariants one_letter = true
  /\ exists msg, fst (there_and_back one_letter noon) = Raise (ParseError msg).
Proof. split; [reflexivity|]. eexists. vm_compute. reflexivity. Qed.

(* ================================================================== *)
(** * The operations, further *)
(* ================================================================== *)

Lemma list_last_cases {A} (l : list A) :
  l = [] \/ exists init x, l = init ++ [x].
Proof.
  destruct l as [|a l]; [left; reflexivity | right].
  destruct (@exists_last _ (a :: l)) as [init [x E]]; [discriminate|].
  exists init, x. exact E.
Qed.

Lemma current_entry_last sheet init e :
  time sheet = init ++ [e] ->
  current_entry sheet = match end_ e with
                        | None => Some e
                        | Some _ => None
                        end.
Proof. intros H. unfold current_entry. rewrite H, rev_unit. reflexivity. Qed.

Lemma removelast_snoc {A} (l : list A) (x : A) : removelast (l ++ [x]) = l.
Proof. apply removelast_last. Qed.

(** With nothing open, every entry of a well-formed log is closed. *)
Lemma all_closed sheet :
  open_only_last sheet = true -> current_entry sheet = None ->
  forallb (fun e => is_some (end_ e)) (time sheet) = true.
Proof.
  unfold open_only_last. intros Ho Hc.
  destruct (list_last_cases (time sheet)) as [E | [init [e E]]].
  - rewrite E. reflexivity.
  - rewrite (current_entry_last _ _ _ E) in Hc.
    rewrite E in *. rewrite removelast_snoc in Ho.
    rewrite forallb_app, Ho. simpl.
    destruct (end_ e); [reflexivity | discriminate Hc].
Qed.

(** What a call does to the time log: nothing; or it closes the open
    entry, and may append a new open one; or, with nothing open, it
    appends an open entry. *)
Lemma run_time_cases (c : call) (s : Store) :
  time (self (after c s)) = time (self s)
  \/ (exists e t,
        current_entry (self s) = Some e /\ closes_at c (world s) = Some t
        /\ (time (self (after c s)) = set_last_end t (time (self s))
            \/ exists n,
                 time (self (after c s)) =
                 set_last_end t (time (self s)) ++ [mkEntry n t None]))
  \/ (current_entry (self s) = None
      /\ exists n t, time (self (after c s)) = time (self s) ++ [mkEntry n t None]).
Proof.
  unfold after. destruct c as [n tg | n tm | tm | n tm]; simpl run.
  - left. destruct (od_mem n (todo (self s))) eqn:E.
    + rewrite (add_task_present n tg s E). reflexivity.
    + rewrite (add_task_absent n tg s E). reflexivity.
  - rewrite clock_in_run. simpl.
    destruct (current_entry (self s)) as [e|] eqn:E.
    + right; left. exists e, (instant tm (world s)).
      repeat split. right. eexists; reflexivity.
    + right; right. split; [reflexivity|]. eexists _, _; reflexivity.
  - unfold bind. destruct (current_entry (self s)) as [e|] eqn:E.
    + rewrite (clock_out_open tm s e E). simpl.
      right; left. exists e, (instant tm (world s)). repeat split. left; reflexivity.
    + rewrite (clock_out_closed tm s E). left; reflexivity.
  - destruct (od_get n (todo (self s))) as [tk|] eqn:G.
    + rewrite (complete_task_present n tm s tk G). simpl.
      destruct (current_entry (self s)) as [e|] eqn:E; [|left; reflexivity].
      destruct (str_eqb (task e) n); [|left; reflexivity].
      right; left. exists e, (instant tm (world s)). repeat split. left; reflexivity.
    + apply od_get_None in G. rewrite (complete_task_missing n tm s G).
      left; reflexivity.
Qed.

(** X1.  Whatever the call ([add_task], [clock_in], [clock_out] or
    [complete_task], failing or not), a log in which only the last entry
    may be open is left as such a log. *)
Theorem open_only_last_kept (c : call) (s : Store) :
  open_only_last (self s) = true ->
  open_only_last (self (after c s)) = true.
Proof.
  intros Ho.
  destruct (run_time_cases c s) as [E | [[e [t [Hc [_ H]]]] | [Hc [n [t E]]]]].
  - unfold open_only_last. rewrite E. exact Ho.
  - apply current_entry_Some in Hc. destruct Hc as [init [Ht He]].
    unfold open_only_last in *. rewrite Ht in *.
    rewrite set_last_end_app in H. rewrite removelast_snoc in Ho.
    destruct H as [E | [n E]]; rewrite E.
    + rewrite removelast_snoc. exact Ho.
    + rewrite removelast_snoc, forallb_app, Ho. reflexivity.
  - unfold open_only_last at 1. rewrite E, removelast_snoc.
    apply all_closed; assumption.
Qed.

Lemma open_only_last_kept_witness :
  open_only_last (self (after (ClockIn (L "file taxes") None) clocked_in)) = true.
Proof. apply (open_only_last_kept (ClockIn (L "file taxes") None) clocked_in). reflexivity. Defined.

(** X2.  A call keeps every closed entry ending no earlier than it
    begins, provided the instant it would close the open entry at is not
    before that entry's start. *)
Theorem ends_after_starts_kept (c : call) (s : Store) :
  ends_after_starts (self s) = true ->
  (forall e t, current_entry (self s) = Some e ->
     closes_at c (world s) = Some t -> dt_ltb t (start e) = false) ->
  ends_after_starts (self (after c s)) = true.
Proof.
  intros Hk Hpre. unfold ends_after_starts in *.
  destruct (run_time_cases c s) as [E | [[e [t [Hc [Ht H]]]] | [Hc [n [t E]]]]].
  - rewrite E. exact Hk.
  - assert (Hlt := Hpre e t Hc Ht).
    apply current_entry_Some in Hc. destruct Hc as [init [Hl He]].
    rewrite Hl in *. rewrite set_last_end_app in H.
    rewrite forallb_app in Hk. apply andb_true_iff in Hk. destruct Hk as [Hi _].
    assert (Hnew : forallb entry_ok (init ++ [set_end t e]) = true).
    { rewrite forallb_app, Hi. simpl. unfold entry_ok. simpl.
      rewrite Hlt. reflexivity. }
    destruct H as [E | [n E]]; rewrite E; [exact Hnew|].
    rewrite forallb_app, Hnew. reflexivity.
  - rewrite E, forallb_app, Hk. reflexivity.
Qed.

Lemma ends_after_starts_kept_witness :
  ends_after_starts
    (self (after (ClockOut (Some (at_ 3 5 10 45))) clocked_in)) = true.
Proof.
  apply (ends_after_starts_kept (ClockOut (Some (at_ 3 5 10 45))) clocked_in).
  - reflexivity.
  - intros e t He Ht. injection He as <-. injection Ht as <-. reflexivity.
Defined.

Lemma od_mem_set {V} (k n : str) (v : V) (d : OrderedDict V) :
  od_mem k (od_set n v d) = str_eqb k n || od_mem k d.
Proof.
  induction d as [|[k0 v0] d IH]; simpl.
  - rewrite orb_false_r. reflexivity.
  - destruct (str_eqb n k0) eqn:E; simpl.
    + str_eqb_hyps. subst k0.
      destruct (str_eqb k n); reflexivity.
    + rewrite IH. destruct (str_eqb k n), (str_eqb k k0); reflexivity.
Qed.

Lemma disjoint_spec sheet :
  todo_done_disjoint sheet = true <->
  forall k, od_mem k (todo sheet) = true -> od_mem k (done sheet) = false.
Proof.
  unfold todo_done_disjoint. rewrite forallb_forall. split.
  - intros H k Hk. apply od_mem_In in Hk. apply H in Hk.
    apply negb_true_iff in Hk. exact Hk.
  - intros H k Hk. apply od_mem_In in Hk. rewrite (H k Hk). reflexivity.
Qed.

(** X3.  No operation but [add_task] can put a name in both [todo] and
    [done]: the two stay disjoint under [clock_in], [clock_out] and
    [complete_task], and under [add_task] of a name that [done] does not
    hold. *)
Theorem todo_done_disjoint_kept (c : call) (s : Store) :
  todo_done_disjoint (self s) = true ->
  (forall n tg, c = AddTask n tg -> od_mem n (done (self s)) = false) ->
  todo_done_disjoint (self (after c s)) = true.
Proof.
  intros Hd Hpre. rewrite disjoint_spec in *. unfold after.
  destruct c as [n tg | n tm | tm | n tm]; simpl run.
  - destruct (od_mem n (todo (self s))) eqn:E.
    + rewrite (add_task_present n tg s E). exact Hd.
    + rewrite (add_task_absent n tg s E). simpl. intros k Hk.
      unfold od_mem in Hk. rewrite existsb_app in Hk. simpl in Hk.
      rewrite orb_false_r in Hk. apply orb_true_iff in Hk.
      destruct Hk as [Hk | Hk]; [apply Hd; exact Hk|].
      str_eqb_hyps. subst k. apply (Hpre n tg eq_refl).
  - rewrite clock_in_run. exact Hd.
  - unfold bind. destruct (current_entry (self s)) as [e|] eqn:E.
    + rewrite (clock_out_open tm s e E). exact Hd.
    + rewrite (clock_out_closed tm s E). exact Hd.
  - destruct (od_get n (todo (self s))) as [tk|] eqn:G.
    + rewrite (complete_task_present n tm s tk G). simpl. intros k Hk.
      rewrite od_mem_del in Hk. apply andb_true_iff in Hk.
      destruct Hk as [Hne Hk]. rewrite od_mem_set, (Hd k Hk), orb_false_r.
      apply negb_true_iff in Hne. str_eqb_hyps. apply str_eqb_neq. congruence.
    + apply od_get_None in G. rewrite (complete_task_missing n tm s G).
      exact Hd.
Qed.

Lemma todo_done_disjoint_kept_witness :
  todo_done_disjoint
    (self (after (CompleteTask (L "write report") None) clocked_in)) = true.
Proof.
  apply (todo_done_disjoint_kept (CompleteTask (L "write report") None)
           clocked_in).
  - reflexivity.
  - intros n tg H. discriminate H.
Defined.

(** X4.  [clock_out] raises TymeError ("Not clocked in.") and changes
    nothing when no entry is open.  With an open entry it returns that
    entry's task name and writes the instant as its end, leaving [todo]
    and [done] alone; after that nothing is open, so clocking out a second
    time raises. *)
Theorem clock_out_spec (tm : option datetime) (s : Store) :
  (current_entry (self s) = None ->
     clock_out tm s = (Raise (TymeError (L "Not clocked in.")), s))
  /\ (forall e, current_entry (self s) = Some e ->
        exists init s',
          time (self s) = init ++ [e]
          /\ clock_out tm s = (Ok (task e), s')
          /\ todo (self s') = todo (self s)
          /\ done (self s') = done (self s)
          /\ time (self s') =
             init ++ [mkEntry (task e) (start e) (Some (instant tm (world s)))]
          /\ current_entry (self s') = None
          /\ forall tm',
               clock_out tm' s' = (Raise (TymeError (L "Not clocked in.")), s')).
Proof.
  split; [apply clock_out_closed|].
  intros e He. destruct (proj1 (current_entry_Some _ _) He) as [init [Hl Hend]].
  exists init. eexists. split; [exact Hl|].
  split; [apply (clock_out_open tm s e He)|]. simpl.
  rewrite Hl, set_last_end_app.
  assert (Hc : current_entry
                 (mkSheet (todo (self s)) (init ++ [set_end (instant tm (world s)) e])
                          (done (self s))) = None).
  { rewrite (current_entry_last _ init (set_end (instant tm (world s)) e));
      reflexivity. }
  repeat split; try exact Hc.
  intros tm'. apply clock_out_closed. exact Hc.
Qed.

Lemma clock_out_spec_witness :
  clock_out None at_rest = (Raise (TymeError (L "Not clocked in.")), at_rest)
  /\ exists init s',
       time (self clocked_in) = init ++ [mkEntry (L "write report") (at_ 3 5 10 0) None]
       /\ clock_out (Some (at_ 3 5 10 45)) clocked_in = (Ok (L "write report"), s')
       /\ current_entry (self s') = None.
Proof.
  split.
  - apply (clock_out_spec None at_rest). reflexivity.
  - destruct (proj2 (clock_out_spec (Some (at_ 3 5 10 45)) clocked_in)
                (mkEntry (L "write report") (at_ 3 5 10 0) None) eq_refl)
      as [init [s' [H1 [H2 [_ [_ [_ [H3 _]]]]]]]].
    exists init, s'. auto.
Defined.

(* ================================================================== *)
(** * Sessions *)
(* ================================================================== *)

(** The durations of closed entries do not depend on the clock. *)
Lemma mapM_Entry_time_closed (nw : datetime) : forall l w,
  forallb (fun e => is_some (end_ e)) l = true ->
  mapM Entry_time l w = (Ok (map (Entry_time_at nw) l), w).
Proof.
  induction l as [|e l IH]; intros w H; [reflexivity|].
  simpl in H. apply andb_true_iff in H. destruct H as [He Hl].
  destruct (end_ e) as [t|] eqn:E; [|discriminate He].
  simpl. unfold bind. rewrite (Entry_time_closed e w t E nw), (IH w Hl).
  reflexivity.
Qed.

Lemma Task_time_closed (nw : datetime) tk sheet w :
  forallb (fun e => is_some (end_ e)) (time sheet) = true ->
  Task_time tk sheet w = (Ok (Task_time_at nw tk sheet), w).
Proof.
  intros H. unfold Task_time, Task_time_at, bind.
  rewrite (mapM_Entry_time_closed nw); [reflexivity|].
  unfold Task_entries. apply forallb_filter. exact H.
Qed.

Lemma fold_add_snoc (l : list Z) (x : Z) :
  fold_left Z.add (l ++ [x]) 0 = fold_left Z.add l 0 + x.
Proof. rewrite fold_left_app. reflexivity. Qed.

(** X5.  A session on a sheet with nothing open: clocking in on [n] at
    [t1] and out at [t2] appends the one closed entry ([n], [t1], [t2]),
    and the total [Task.time] reports grows by [t2 - t1] for a task named
    [n] and stays as it was for every other task. *)
Theorem session_time (n : str) (t1 t2 : datetime) (s : Store) (tk : Task) :
  open_only_last (self s) = true -> current_entry (self s) = None ->
  exists s1 s2 d,
    clock_in n (Some t1) s = (Ok tt, s1)
    /\ clock_out (Some t2) s1 = (Ok n, s2)
    /\ time (self s2) = time (self s) ++ [mkEntry n t1 (Some t2)]
    /\ world s2 = world s
    /\ forall w,
         Task_time tk (self s) w = (Ok d, w)
         /\ Task_time tk (self s2) w = (Ok (d + share n t1 t2 tk), w).
Proof.
  intros Ho Hc.
  assert (Hall := all_closed _ Ho Hc).
  set (s1 := mkStore (mkSheet (todo (self s))
                              (time (self s) ++ [mkEntry n t1 None])
                              (done (self s))) (world s)).
  assert (E1 : clock_in n (Some t1) s = (Ok tt, s1)).
  { rewrite clock_in_run, Hc. reflexivity. }
  assert (Hc1 : current_entry (self s1) = Some (mkEntry n t1 None)).
  { apply current_entry_Some. exists (time (self s)). split; reflexivity. }
  exists s1. eexists. exists (Task_time_at t1 tk (self s)).
  split; [exact E1|].
  split; [apply (clock_out_open (Some t2) s1 _ Hc1)|].
  simpl. rewrite set_last_end_app. repeat split.
  - apply Task_time_closed. exact Hall.
  - rewrite (Task_time_closed t1).
    + f_equal. f_equal. unfold Task_time_at, Task_entries, share. simpl.
      rewrite filter_app. simpl.
      destruct (str_eqb n (name tk)).
      * rewrite map_app. simpl. rewrite fold_add_snoc. reflexivity.
      * rewrite app_nil_r. lia.
    + simpl. rewrite forallb_app, Hall. reflexivity.
Qed.

Lemma session_time_witness :
  exists s1 s2 d,
    clock_in (L "write report") (Some (at_ 3 5 11 0)) at_rest = (Ok tt, s1)
    /\ clock_out (Some (at_ 3 5 11 45)) s1 = (Ok (L "write report"), s2)
    /\ time (self s2) =
       time (self at_rest)
       ++ [mkEntry (L "write report") (at_ 3 5 11 0) (Some (at_ 3 5 11 45))]
    /\ world s2 = world at_rest
    /\ forall w,
         Task_time report (self at_rest) w = (Ok d, w)
         /\ Task_time report (self s2) w =
            (Ok (d + share (L "write report") (at_ 3 5 11 0) (at_ 3 5 11 45)
                       report), w).
Proof.
  apply (session_time (L "write report") (at_ 3 5 11 0) (at_ 3 5 11 45)
           at_rest report); reflexivity.
Defined.

Lemma od_del_fresh {V} (n : str) (v : V) (d : OrderedDict V) :
  od_mem n d = false -> od_del n (d ++ [(n, v)]) = d.
Proof.
  intros H. unfold od_del. rewrite filter_app. simpl.
  rewrite str_eqb_refl. simpl. rewrite app_nil_r.
  induction d as [|[k0 v0] d IH]; [reflexivity|].
  simpl in *. apply orb_false_iff in H. destruct H as [H1 H2].
  rewrite H1. simpl. rewrite IH; auto.
Qed.

Lemma od_get_fresh {V} (n : str) (v : V) (d : OrderedDict V) :
  od_mem n d = false -> od_get n (d ++ [(n, v)]) = Some v.
Proof.
  intros H. induction d as [|[k0 v0] d IH]; simpl in *.
  - rewrite str_eqb_refl. reflexivity.
  - apply orb_false_iff in H. destruct H as [H1 H2]. rewrite H1. auto.
Qed.

(** X6.  Adding a task under a name [todo] does not hold and then
    completing it puts [todo] back exactly as it was, and leaves the task
    in [done] with the tags it was given and the instant of completion as
    its deadline. *)
Theorem add_then_complete (n : str) (tg : list str) (tm : option datetime)
  (s : Store) :
  od_mem n (todo (self s)) = false ->
  exists s1 s2,
    add_task n tg None s = (Ok tt, s1)
    /\ complete_task n tm s1 = (Ok tt, s2)
    /\ todo (self s2) = todo (self s)
    /\ od_get n (done (self s2)) =
       Some (mkTask n tg (Some (instant tm (world s))))
    /\ (forall k, str_eqb k n = false ->
          od_get k (done (self s2)) = od_get k (done (self s))).
Proof.
  intros H. eexists. eexists.
  split; [apply (add_task_absent n tg s H)|].
  split.
  - apply (complete_task_present n tm _ (mkTask n tg None)).
    simpl. apply od_get_fresh. exact H.
  - simpl. repeat split.
    + apply od_del_fresh. exact H.
    + apply od_get_set_same.
    + intros k Hk. generalize (done (self s)) as d.
      induction d as [|[k0 v0] d IH]; simpl.
      * rewrite Hk. reflexivity.
      * destruct (str_eqb n k0) eqn:E; simpl.
        -- str_eqb_hyps. subst k0. apply str_eqb_neq in Hk. rewrite Hk.
           reflexivity.
        -- rewrite IH. reflexivity.
Qed.

Lemma add_then_complete_witness :
  exists s1 s2,
    add_task (L "call home") [L "home"] None clocked_in = (Ok tt, s1)
    /\ complete_task (L "call home") (Some (at_ 3 5 11 0)) s1 = (Ok tt, s2)
    /\ todo (self s2) = todo (self clocked_in)
    /\ od_get (L "call home") (done (self s2)) =
       Some (mkTask (L "call home") [L "home"] (Some (at_ 3 5 11 0)))
    /\ (forall k, str_eqb k (L "call home") = false ->
          od_get k (done (self s2)) = od_get k (done (self clocked_in))).
Proof.
  apply (add_then_complete (L "call home") [L "home"] (Some (at_ 3 5 11 0))
           clocked_in).
  reflexivity.
Defined.

(** X7.  Neither [add_task] nor [complete_task] can be repeated: whatever
    the sheet and whatever the first call did, the same call made again
    for the same name raises TymeError and changes nothing. *)
Theorem second_call_raises (n : str) (s : Store) :
  (forall tg tg',
     let s1 := snd (add_task n tg None s) in
     add_task n tg' None s1 =
     (Raise (TymeError (L "That task already exists.")), s1))
  /\ (forall tm tm',
        let s1 := snd (complete_task n tm s) in
        complete_task n tm' s1 = (Raise (TymeError (L "No such task.")), s1)).
Proof.
  split; cbv zeta.
  - intros tg tg'. apply add_task_present.
    destruct (od_mem n (todo (self s))) eqn:E.
    + rewrite (add_task_present n tg s E). exact E.
    + rewrite (add_task_absent n tg s E). simpl.
      unfold od_mem. rewrite existsb_app. simpl.
      rewrite str_eqb_refl, orb_true_r. reflexivity.
  - intros tm tm'. apply complete_task_missing.
    destruct (od_get n (todo (self s))) as [tk|] eqn:G.
    + rewrite (complete_task_present n tm s tk G). simpl.
      rewrite od_mem_del, str_eqb_refl. reflexivity.
    + apply od_get_None in G. rewrite (complete_task_missing n tm s G).
      exact G.
Qed.

(* ================================================================== *)
(** * Filtering by tags, further *)
(* ================================================================== *)

Lemma tag_filter_run (a : list str) (sheet : TymeSheet) :
  a <> [] -> od_ok (todo sheet) -> od_ok (done sheet) ->
  tag_filter a sheet =
  Fresh (mkSheet (filter (has_tags a) (todo sheet))
                 (filter (fun e =>
                            od_mem (task e) (filter (has_tags a) (todo sheet))
                            || od_mem (task e) (filter (has_tags a) (done sheet)))
                         (time sheet))
                 (filter (has_tags a) (done sheet))).
Proof.
  intros Ha Ht Hd. destruct a as [|x a]; [congruence|].
  unfold tag_filter, TymeSheet_init.
  rewrite !(od_of_pairs_id (filter (has_tags (x :: a)) (todo sheet)))
    by (apply od_ok_filter, Ht).
  rewrite !(od_of_pairs_id (filter (has_tags (x :: a)) (done sheet)))
    by (apply od_ok_filter, Hd).
  reflexivity.
Qed.

Lemma od_mem_filter {V} (p : str * V -> bool) (k : str) (d : OrderedDict V) :
  od_mem k (filter p d) = true -> od_mem k d = true.
Proof.
  unfold od_mem. rewrite !existsb_exists.
  intros [kv [Hin Hk]]. apply filter_In in Hin. exists kv. tauto.
Qed.

Lemma od_mem_filter_mono {V} (p q : str * V -> bool) (k : str)
  (d : OrderedDict V) :
  (forall x, p x = true -> q x = true) ->
  od_mem k (filter p d) = true -> od_mem k (filter q d) = true.
Proof.
  intros Hpq. unfold od_mem. rewrite !existsb_exists.
  intros [kv [Hin Hk]]. apply filter_In in Hin. exists kv.
  split; [|exact Hk]. apply filter_In. split; [tauto|]. apply Hpq; tauto.
Qed.

Lemma filter_and {A} (p q : A -> bool) (l : list A) :
  filter q (filter p l) = filter (fun x => p x && q x) l.
Proof.
  induction l as [|x l IH]; [reflexivity|]. simpl.
  destruct (p x) eqn:E; simpl; [destruct (q x)|]; rewrite IH; reflexivity.
Qed.

Lemma filter_implied {A} (p q : A -> bool) (l : list A) :
  (forall x, q x = true -> p x = true) ->
  filter q (filter p l) = filter q l.
Proof.
  intros H. rewrite filter_and. apply filter_ext.
  intros x. destruct (q x) eqn:E; [rewrite (H x E)|rewrite andb_false_r];
    reflexivity.
Qed.

Lemma has_tags_app (a b : list str) (nt : str * Task) :
  has_tags (a ++ b) nt = has_tags a nt && has_tags b nt.
Proof. unfold has_tags, subset. apply forallb_app. Qed.

(** X8.  The sheet [tag_filter] builds for a non-empty tag list is again
    well formed: each of the three invariants of the receiver carries
    over, the keys stay unique, and every entry it keeps names a task of
    its [todo] or [done], also when the receiver had entries for tasks
    that exist nowhere. *)
Theorem tag_filter_well_formed (a : list str) (sheet sheet' : TymeSheet) :
  od_ok (todo sheet) -> od_ok (done sheet) ->
  tag_filter a sheet = Fresh sheet' ->
  (open_only_last sheet = true -> open_only_last sheet' = true)
  /\ (ends_after_starts sheet = true -> ends_after_starts sheet' = true)
  /\ (todo_done_disjoint sheet = true -> todo_done_disjoint sheet' = true)
  /\ od_ok (todo sheet') /\ od_ok (done sheet')
  /\ (forall e, In e (time sheet') ->
        od_mem (task e) (todo sheet') || od_mem (task e) (done sheet') = true).
Proof.
  intros Ht Hd E.
  assert (Ha : a <> []) by (intros ->; discriminate E).
  rewrite (tag_filter_run a sheet Ha Ht Hd) in E. injection E as <-.
  simpl. repeat split.
  - unfold open_only_last. simpl. apply removelast_filter.
  - unfold ends_after_starts. simpl. apply forallb_filter.
  - rewrite !disjoint_spec. simpl. intros H k Hk.
    apply od_mem_filter in Hk. apply H in Hk.
    destruct (od_mem k (filter (has_tags a) (done sheet))) eqn:F;
      [|reflexivity].
    apply od_mem_filter in F. congruence.
  - apply od_ok_filter, Ht.
  - apply od_ok_filter, Hd.
  - intros e He. apply filter_In in He. tauto.
Qed.

Lemma tag_filter_well_formed_witness :
  exists sheet',
    tag_filter [L "work"] (self clocked_in) = Fresh sheet'
    /\ open_only_last sheet' = true
    /\ forall e, In e (time sheet') ->
         od_mem (task e) (todo sheet') || od_mem (task e) (done sheet') = true.
Proof.
  eexists. split; [reflexivity|].
  refine ((fun H => conj (proj1 H eq_refl)
                         (proj2 (proj2 (proj2 (proj2 (proj2 H))))))
            (tag_filter_well_formed [L "work"] (self clocked_in) _ _ _ eq_refl)).
  - unfold od_ok. simpl. constructor; [simpl; tauto | constructor].
  - unfold od_ok. simpl. constructor; [simpl; tauto | constructor].
Defined.

(** X9.  Filters compose: filtering by [a] and then the result by [b]
    gives the sheet that filtering by all of [a ++ b] at once gives, so
    the order of the two filters does not matter. *)
Theorem tag_filter_compose (a b : list str) (sheet sa : TymeSheet) :
  a <> [] -> b <> [] -> od_ok (todo sheet) -> od_ok (done sheet) ->
  tag_filter a sheet = Fresh sa ->
  tag_filter b sa = tag_filter (a ++ b) sheet
  /\ tag_filter (a ++ b) sheet = tag_filter (b ++ a) sheet.
Proof.
  intros Ha Hb Ht Hd E.
  assert (Hab : a ++ b <> []) by (destruct a; [congruence | discriminate]).
  assert (Hba : b ++ a <> []) by (destruct b; [congruence | discriminate]).
  rewrite (tag_filter_run a sheet Ha Ht Hd) in E. injection E as <-.
  assert (F : forall d : OrderedDict Task,
             filter (has_tags b) (filter (has_tags a) d)
             = filter (has_tags (a ++ b)) d).
  { intros d. rewrite filter_and. apply filter_ext.
    intros x. symmetry. apply has_tags_app. }
  assert (G : forall d : OrderedDict Task,
             filter (has_tags (a ++ b)) d = filter (has_tags (b ++ a)) d).
  { intros d. apply filter_ext. intros x.
    rewrite !has_tags_app. apply andb_comm. }
  split.
  - rewrite (tag_filter_run b _ Hb); simpl;
      [| apply od_ok_filter, Ht | apply od_ok_filter, Hd].
    rewrite (tag_filter_run (a ++ b) sheet Hab Ht Hd).
    rewrite !F. f_equal. f_equal.
    apply filter_implied. intros e He.
    apply orb_true_iff in He. apply orb_true_iff.
    destruct He as [He | He]; [left | right];
      (eapply od_mem_filter_mono; [|exact He]);
      intros x Hx; rewrite has_tags_app in Hx;
      apply andb_true_iff in Hx; tauto.
  - rewrite (tag_filter_run (a ++ b) sheet Hab Ht Hd).
    rewrite (tag_filter_run (b ++ a) sheet Hba Ht Hd).
    rewrite !G. reflexivity.
Qed.

Lemma tag_filter_compose_witness :
  tag_filter [L "home"]
    (mkSheet [(L "write report", report)]
             [mkEntry (L "write report") (at_ 3 5 10 0) None] [])
  = tag_filter [L "work"; L "home"] (self clocked_in)
  /\ tag_filter [L "work"; L "home"] (self clocked_in)
     = tag_filter [L "home"; L "work"] (self clocked_in).
Proof.
  apply (tag_filter_compose [L "work"] [L "home"] (self clocked_in)).
  - discriminate.
  - discriminate.
  - unfold od_ok. simpl. constructor; [simpl; tauto | constructor].
  - unfold od_ok. simpl. constructor; [simpl; tauto | constructor].
  - reflexivity.
Defined.

(* ================================================================== *)
(** * Reading times *)
(* ================================================================== *)

Lemma strptime_whole_minute r s d :
  strptime r s = Ok d -> second d = 0 /\ microsecond d = 0.
Proof.
  unfold strptime. destruct (re_match r s) as [m|]; [|discriminate].
  destruct (negb _); [discriminate|].
  destruct (valid_datetime _); [|discriminate].
  intros H. injection H as <-. split; reflexivity.
Qed.

(** Whatever [parse_time] reads is a whole minute of the year 2000. *)
Lemma parse_time_whole_minute s w t w' :
  parse_time s w = (Ok t, w') -> whole_minute t = true.
Proof.
  unfold parse_time, whole_minute.
  destruct (strptime re_TIME_FMT (strip s)) as [d|e] eqn:E.
  - intros H. injection H as <- <-.
    destruct (strptime_whole_minute _ _ _ E) as [H1 H2]. simpl.
    rewrite H1, H2. reflexivity.
  - destruct e; try discriminate.
    unfold bind, now.
    destruct (strptime re_HM (strip s)) as [d|e] eqn:F; [|discriminate].
    intros H. injection H as <- <-.
    destruct (strptime_whole_minute _ _ _ F) as [H1 H2]. simpl.
    rewrite H1, H2. reflexivity.
Qed.

Lemma clock_text_table :
  forallb (fun h => forallb (fun m => clock_text_ok (Z.of_nat h) (Z.of_nat m))
                            (seq 0 60)) (seq 0 24) = true.
Proof. vm_compute. reflexivity. Qed.

Lemma leap_text_table :
  forallb (fun h => forallb (fun m => leap_text_fails (Z.of_nat h) (Z.of_nat m))
                            (seq 0 60)) (seq 0 24) = true.
Proof. vm_compute. reflexivity. Qed.

Lemma table_entry (f : Z -> Z -> bool) (h m : Z) :
  forallb (fun h => forallb (fun m => f (Z.of_nat h) (Z.of_nat m))
                            (seq 0 60)) (seq 0 24) = true ->
  0 <= h < 24 -> 0 <= m < 60 -> f h m = true.
Proof.
  intros T Hh Hm. rewrite forallb_forall in T.
  assert (T1 := T (Z.to_nat h)). rewrite forallb_forall in T1.
  assert (T2 := T1 ltac:(apply in_seq; lia) (Z.to_nat m)
                   ltac:(apply in_seq; lia)).
  rewrite !Z2Nat.id in T2 by lia. exact T2.
Qed.

(** X10.  A time of day typed as [HH:MM] is read as that time of today:
    [parse_time] finds no date in it, reads the clock once, and answers
    with the month and the day of that reading, in the year 2000. *)
Theorem parse_time_of_day (h m : Z) (w : World) :
  0 <= h < 24 -> 0 <= m < 60 ->
  parse_time (clock_text h m) w =
  (Ok (mkDT 2000 (month (wall_clock w (tick w))) (day (wall_clock w (tick w)))
            h m 0 0),
   mkWorld (wall_clock w) (S (tick w))).
Proof.
  intros Hh Hm.
  assert (T := table_entry clock_text_ok h m clock_text_table Hh Hm).
  unfold clock_text_ok in T. unfold parse_time.
  destruct (strptime re_TIME_FMT (strip (clock_text h m))) as [d0|e];
    [discriminate T|].
  destruct e; try discriminate T.
  destruct (strptime re_HM (strip (clock_text h m))) as [d|e];
    [|discriminate T].
  repeat (apply andb_true_iff in T; destruct T as [T ?]).
  unfold bind, now, ret, replace_month_day, replace_year. simpl.
  destruct d as [y mo dy hr mi sc us]. simpl in *.
  repeat match goal with H : (_ =? _) = true |- _ => apply Z.eqb_eq in H end.
  subst. reflexivity.
Qed.

Lemma parse_time_of_day_witness :
  parse_time (clock_text 9 30) noon =
  (Ok (mkDT 2000 3 5 9 30 0 0), mkWorld (wall_clock noon) 1).
Proof. apply (parse_time_of_day 9 30 noon); lia. Defined.

Lemma days_in_month_1900 (mo : Z) :
  1 <= mo <= 12 -> mo <> 2 -> days_in_month 1900 mo = days_in_month 2000 mo.
Proof.
  intros H N. enum_Z mo 1%nat 12%nat; try reflexivity. congruence.
Qed.

Lemma valid_1900 t :
  valid_datetime t = true -> year t = 2000 ->
  valid_datetime (replace_year 1900 t) = false -> month t = 2 /\ day t = 29.
Proof.
  unfold valid_datetime, replace_year.
  cbn [year month day hour minute second microsecond].
  intros V Y F. rewrite Y in V.
  rewrite !andb_true_iff, ?Z.leb_le, ?Z.ltb_lt in V.
  rewrite !andb_false_iff, ?Z.leb_gt, ?Z.ltb_ge in F.
  destruct (Z.eq_dec (month t) 2) as [E2|N2].
  - rewrite E2 in *.
    change (days_in_month 2000 2) with 29 in V.
    change (days_in_month 1900 2) with 28 in F. lia.
  - exfalso.
    assert (D : days_in_month 1900 (month t) = days_in_month 2000 (month t)).
    { apply days_in_month_1900; [lia | exact N2]. }
    rewrite D in F. lia.
Qed.

(** X11.  Writing a timestamp with [fmt_time] and reading it back with
    [parse_time] gives the same timestamp, without a look at the clock,
    exactly for the whole minutes of the year 2000 other than those of
    29 February; for every other valid timestamp the reading is another
    time or an error. *)
Theorem fmt_time_round_trip (t : datetime) (w : World) :
  valid_datetime t = true ->
  (stamp_ok t = true -> parse_time (fmt_time t) w = (Ok t, w))
  /\ (stamp_ok t = false ->
      forall w', parse_time (fmt_time t) w <> (Ok t, w')).
Proof.
  intros V. split.
  - intros H. apply (parse_time_stamp 0 t w H).
  - intros H w' E.
    assert (W := parse_time_whole_minute _ _ _ _ E).
    unfold whole_minute in W.
    repeat (apply andb_true_iff in W; destruct W as [W ?]).
    repeat match goal with H : (_ =? _) = true |- _ => apply Z.eqb_eq in H end.
    unfold stamp_ok in H.
    repeat match goal with
           | H : ?x = ?v |- _ =>
               match goal with
               | G : context [x =? v] |- _ => rewrite H, Z.eqb_refl in G
               end
           end.
    simpl in H.
    destruct (valid_1900 t V W H) as [Em Ed].
    assert (Hh : 0 <= hour t < 24 /\ 0 <= minute t < 60).
    { unfold valid_datetime in V.
      rewrite !andb_true_iff, ?Z.leb_le, ?Z.ltb_lt in V. lia. }
    assert (T := table_entry leap_text_fails (hour t) (minute t)
                   leap_text_table (proj1 Hh) (proj2 Hh)).
    assert (Et : t = mkDT 2000 2 29 (hour t) (minute t) 0 0).
    { destruct t; simpl in *; congruence. }
    rewrite Et in E at 1. unfold leap_text_fails in T.
    unfold parse_time in E.
    destruct (strptime re_TIME_FMT _) as [d|e]; [discriminate T|].
    destruct (strptime re_HM _) as [d|e']; [discriminate T|].
    destruct e; discriminate E.
Qed.

Lemma fmt_time_round_trip_witness :
  parse_time (fmt_time (at_ 3 5 10 0)) noon = (Ok (at_ 3 5 10 0), noon)
  /\ forall w',
       parse_time (fmt_time (mkDT 2000 3 5 12 0 30 250)) noon
       <> (Ok (mkDT 2000 3 5 12 0 30 250), w').
Proof.
  split.
  - apply (fmt_time_round_trip (at_ 3 5 10 0) noon); reflexivity.
  - apply (fmt_time_round_trip (mkDT 2000 3 5 12 0 30 250) noon); reflexivity.
Defined.

(* ================================================================== *)
(** * Lines of the document, there and back *)
(* ================================================================== *)

(** X12.  The line [Task.to_string] writes for a task, read as a line of
    the file by [Task.from_string], gives the task back: name, tags and
    deadline.  It holds for a task of the shapes the format carries, on a
    sheet where the total shown stays below a hundred hours. *)
Theorem Task_line_round_trip (t : Task) (sheet : TymeSheet) (w : World) :
  open_only_last sheet = true -> task_printable t = true ->
  (forall n, (tick w <= n)%nat ->
     delta_ok (Task_time_at (reading w n) t sheet) = true) ->
  exists line w',
    Task_to_string t sheet w = (Ok line, w')
    /\ forall w'', Task_from_string (add_nl line) w'' = (Ok t, w'').
Proof.
  intros Ho Hp Hd.
  destruct (Task_to_string_run t sheet w w Ho Hp Hd (later_refl w))
    as [line [w' [E [Hl _]]]].
  exists line, w'. split; [exact E|].
  intros w''. apply (task_row_reads t line w'' []). split; assumption.
Qed.

Lemma Task_line_round_trip_witness :
  exists line w',
    Task_to_string filed (self at_rest) noon = (Ok line, w')
    /\ forall w'', Task_from_string (add_nl line) w'' = (Ok filed, w'').
Proof.
  apply (Task_line_round_trip filed (self at_rest) noon);
    [reflexivity | reflexivity | intros n _; reflexivity].
Defined.

(** X13.  The line [Entry.__str__] writes for an entry, read as a line of
    the file by [Entry.from_string], gives the entry back, open or
    closed, provided its name and times are of the shapes the format
    carries, it does not end before it begins, and the duration shown
    stays below a hundred hours. *)
Theorem Entry_line_round_trip (e : Entry) (w : World) :
  entry_printable e = true -> entry_ok e = true ->
  (forall n, (tick w <= n)%nat ->
     delta_ok (Entry_time_at (reading w n) e) = true) ->
  exists line w',
    Entry_str e w = (Ok line, w')
    /\ forall w'', Entry_from_string (add_nl line) w'' = (Ok e, w'').
Proof.
  intros Hp Ho Hd.
  destruct (Entry_str_run e w w Hp Hd (later_refl w))
    as [line [w' [E [Hl _]]]].
  exists line, w'. split; [exact E|].
  intros w''. apply (entry_row_reads e line w'' []).
  split; [split|]; assumption.
Qed.

Lemma Entry_line_round_trip_witness :
  exists line w',
    Entry_str (mkEntry (L "write report") (at_ 3 5 10 0) None) noon
    = (Ok line, w')
    /\ forall w'',
         Entry_from_string (add_nl line) w''
         = (Ok (mkEntry (L "write report") (at_ 3 5 10 0) None), w'').
Proof.
  apply (Entry_line_round_trip
           (mkEntry (L "write report") (at_ 3 5 10 0) None) noon);
    [reflexivity | reflexivity | intros n _; reflexivity].
Defined.

(** X14.  The total [fmt_delta] shows for a duration from zero up to a
    hundred hours is two decimal digits of hours and two of minutes,
    which read as the duration in whole minutes, rounded down: the hours
    are not wrapped at a day. *)
Theorem fmt_delta_reads (d : timedelta) :
  delta_ok d = true ->
  exists h1 h2 m1 m2,
    fmt_delta d = ["("; h1; h2; ":"; m1; m2; ")"]%char
    /\ is_digit h1 = true /\ is_digit h2 = true
    /\ is_digit m1 = true /\ is_digit m2 = true
    /\ int_of_str [h1; h2] = d / (3600 * 1000000)
    /\ int_of_str [m1; m2] = (d / (60 * 1000000)) mod 60
    /\ int_of_str [m1; m2] < 60
    /\ int_of_str [h1; h2] * 60 + int_of_str [m1; m2] = d / (60 * 1000000).
Proof.
  unfold delta_ok. intros H. apply andb_true_iff in H. destruct H as [H0 H1].
  apply Z.leb_le in H0. apply Z.ltb_lt in H1.
  assert (Hq : d / (3600 * 1000000) = d / (60 * 1000000) / 60).
  { rewrite Z.div_div by lia. reflexivity. }
  assert (Hh : 0 <= d / (3600 * 1000000) < 100).
  { split; [apply Z.div_pos; lia | apply Z.div_lt_upper_bound; lia]. }
  assert (Hm : 0 <= (d / (60 * 1000000)) mod 60 < 60)
    by (apply Z.mod_pos_bound; lia).
  destruct (pad2_digits _ Hh) as [a [b [Eh [Da [Db Ih]]]]].
  destruct (pad2_digits ((d / (60 * 1000000)) mod 60))
    as [a' [b' [Em [Da' [Db' Im]]]]]; [lia|].
  exists a, b, a', b'. unfold fmt_delta. cbv zeta.
  rewrite Eh, Em, Ih, Im.
  split; [reflexivity|]. repeat (split; [assumption|]).
  split; [reflexivity|]. split; [reflexivity|]. split; [lia|].
  rewrite Hq.
  rewrite (Z.div_mod (d / (60 * 1000000)) 60) at 3 by lia. lia.
Qed.

Lemma fmt_delta_reads_witness :
  exists h1 h2 m1 m2,
    fmt_delta (dt_sub (at_ 3 6 11 15) (at_ 3 5 9 0))
    = ["("; h1; h2; ":"; m1; m2; ")"]%char
    /\ is_digit h1 = true /\ is_digit h2 = true
    /\ is_digit m1 = true /\ is_digit m2 = true
    /\ int_of_str [h1; h2] = dt_sub (at_ 3 6 11 15) (at_ 3 5 9 0) / (3600 * 1000000)
    /\ int_of_str [m1; m2]
       = (dt_sub (at_ 3 6 11 15) (at_ 3 5 9 0) / (60 * 1000000)) mod 60
    /\ int_of_str [m1; m2] < 60
    /\ int_of_str [h1; h2] * 60 + int_of_str [m1; m2]
       = dt_sub (at_ 3 6 11 15) (at_ 3 5 9 0) / (60 * 1000000).
Proof.
  apply (fmt_delta_reads (dt_sub (at_ 3 6 11 15) (at_ 3 5 9 0))). reflexivity.
Defined.

(* ================================================================== *)
(** * What a parsed document is *)
(* ================================================================== *)

Lemma bind_Ok {St A B} (c : M St A) (f : A -> M St B) s b s' :
  bind c f s = (Ok b, s') ->
  exists a s1, c s = (Ok a, s1) /\ f a s1 = (Ok b, s').
Proof. unfold bind. destruct (c s) as [[a|e] s1]; [eauto | discriminate]. Qed.

(** The records [parse] yields are results of [from_string]. *)
Lemma parse_Forall {A} (from_string : str -> M World A) (P : A -> Prop) :
  (forall line w r w', from_string line w = (Ok r, w') -> P r) ->
  forall bw file w recs rest w',
    parse from_string bw file w = (Ok (recs, rest), w') -> Forall P recs.
Proof.
  intros HP bw. induction file as [|line file IH]; intros w recs rest w' H.
  - cbn [parse] in H. destruct bw; [discriminate|].
    injection H as <- <- <-. constructor.
  - cbn [parse] in H.
    destruct (re_match (re_header (show_break_word bw)) line).
    + destruct file as [|rl file'']; [discriminate|].
      apply bind_Ok in H. destruct H as [[] [s1 [_ H]]].
      injection H as <- <- <-. constructor.
    + apply bind_Ok in H. destruct H as [r [s1 [H1 H]]].
      apply bind_Ok in H. destruct H as [[rs rest'] [s2 [H2 H]]].
      injection H as <- <- <-. constructor; eauto.
Qed.

Lemma Entry_init_Ok {St} n st en (s s' : St) e :
  Entry_init n st en s = (Ok e, s') ->
  e = mkEntry n st en /\ entry_ok e = true.
Proof.
  unfold Entry_init, entry_ok. destruct en as [t|].
  - destruct (dt_ltb t st) eqn:E; [discriminate|].
    intros H. injection H as <- <-. simpl. rewrite E. auto.
  - intros H. injection H as <- <-. auto.
Qed.

(** An entry read from a line does not end before it begins, and its
    times are whole minutes. *)
Lemma Entry_from_string_Ok line w e w' :
  Entry_from_string line w = (Ok e, w') ->
  entry_ok e = true
  /\ whole_minute (start e) && opt_whole_minute (end_ e) = true.
Proof.
  unfold Entry_from_string.
  destruct (re_match Entry_regex line) as [m|]; [|discriminate].
  intros H. apply bind_Ok in H. destruct H as [st [w1 [H1 H]]].
  apply bind_Ok in H. destruct H as [en [w2 [H2 H]]].
  apply Entry_init_Ok in H. destruct H as [-> Hok].
  split; [exact Hok|]. simpl.
  rewrite (parse_time_whole_minute _ _ _ _ H1). simpl.
  destruct (str_eqb _ (L "--")).
  - injection H2 as <- <-. reflexivity.
  - apply bind_Ok in H2. destruct H2 as [t [w3 [H3 H2]]].
    injection H2 as <- <-. simpl.
    apply (parse_time_whole_minute _ _ _ _ H3).
Qed.

(** A task read from a line has a whole minute as its deadline, if any. *)
Lemma Task_from_string_Ok line w t w' :
  Task_from_string line w = (Ok t, w') ->
  opt_whole_minute (deadline t) = true.
Proof.
  unfold Task_from_string.
  destruct (re_match Task_regex line) as [m|]; [|discriminate].
  intros H. apply bind_Ok in H. destruct H as [dl [w1 [H1 H]]].
  injection H as <- <-. simpl.
  destruct (group line m 2) as [[|c g]|].
  - injection H1 as <- <-. reflexivity.
  - apply bind_Ok in H1. destruct H1 as [d [w2 [H2 H1]]].
    injection H1 as <- <-. simpl.
    apply (parse_time_whole_minute _ _ _ _ H2).
  - injection H1 as <- <-. reflexivity.
Qed.

Section OfPairs.
Context {V : Type}.
Implicit Types (d : OrderedDict V) (k : str) (v : V).

(** A property of the empty dictionary that every assignment of a pair
    keeps holds of [OrderedDict(pairs)]. *)
Lemma od_of_pairs_ind (P : OrderedDict V -> Prop) (pairs : list (str * V)) :
  P [] ->
  (forall d k v, P d -> In (k, v) pairs -> P (od_set k v d)) ->
  P (od_of_pairs pairs).
Proof.
  intros H0 Hs. unfold od_of_pairs.
  assert (G : forall l acc,
             (forall kv, In kv l -> In kv pairs) -> P acc ->
             P (fold_left (fun d kv => od_set (fst kv) (snd kv) d) l acc)).
  { induction l as [|[k v] l IH]; intros acc Hl Ha; [exact Ha|].
    simpl. apply IH.
    - intros kv Hkv. apply Hl. right. exact Hkv.
    - apply Hs; [exact Ha|]. apply Hl. left. reflexivity. }
  apply G; auto.
Qed.

Lemma od_keys_set k v d :
  od_keys (od_set k v d) = if od_mem k d then od_keys d else od_keys d ++ [k].
Proof.
  induction d as [|[k0 v0] d IH]; [reflexivity|]. simpl.
  destruct (str_eqb k k0) eqn:E; simpl; [reflexivity|].
  rewrite IH. destruct (od_mem k d); reflexivity.
Qed.

Lemma NoDup_snoc (l : list str) (k : str) :
  NoDup l -> ~ In k l -> NoDup (l ++ [k]).
Proof.
  intros Hl Hk. rewrite <- (rev_involutive l).
  change (rev (rev l) ++ [k]) with (rev (k :: rev l)).
  apply NoDup_rev. constructor.
  - rewrite <- in_rev. exact Hk.
  - apply NoDup_rev. exact Hl.
Qed.

Lemma od_ok_set k v d : od_ok d -> od_ok (od_set k v d).
Proof.
  unfold od_ok. intros H. rewrite od_keys_set.
  destruct (od_mem k d) eqn:E; [exact H|].
  apply NoDup_snoc; [exact H|]. apply od_mem_false. exact E.
Qed.

(** [OrderedDict(pairs)] holds each key once. *)
Lemma od_ok_of_pairs (pairs : list (str * V)) : od_ok (od_of_pairs pairs).
Proof.
  apply od_of_pairs_ind; [constructor|].
  intros d k v H _. apply od_ok_set. exact H.
Qed.

Lemma forallb_od_set (p : str * V -> bool) k v d :
  forallb p d = true -> p (k, v) = true -> forallb p (od_set k v d) = true.
Proof.
  intros Hd Hp. induction d as [|[k0 v0] d IH]; simpl in *.
  - rewrite Hp. reflexivity.
  - apply andb_true_iff in Hd. destruct Hd as [H0 Hd].
    destruct (str_eqb k k0) eqn:E; simpl.
    + str_eqb_hyps. subst k0. rewrite Hp, Hd. reflexivity.
    + rewrite H0, IH; auto.
Qed.

(** A test that every pair passes is passed by every item of
    [OrderedDict(pairs)]. *)
Lemma forallb_of_pairs (p : str * V -> bool) (pairs : list (str * V)) :
  forallb p pairs = true -> forallb p (od_of_pairs pairs) = true.
Proof.
  intros H. apply od_of_pairs_ind; [reflexivity|].
  intros d k v Hd Hin. apply forallb_od_set; [exact Hd|].
  rewrite forallb_forall in H. apply H. exact Hin.
Qed.
End OfPairs.

Lemma Forall_forallb_map {A B} (P : A -> Prop) (p : B -> bool) (f : A -> B)
  (l : list A) :
  (forall a, P a -> p (f a) = true) -> Forall P l ->
  forallb p (map f l) = true.
Proof.
  intros H F. induction F as [|a l Pa F IH]; [reflexivity|].
  simpl. rewrite (H a Pa), IH. reflexivity.
Qed.

Lemma forallb_values {V} (p : V -> bool) (d : OrderedDict V) :
  forallb (fun kv => p (snd kv)) d = forallb p (od_values d).
Proof.
  unfold od_values. induction d as [|kv d IH]; [reflexivity|].
  simpl. rewrite IH. reflexivity.
Qed.

(** What [from_file] has done when it returns a sheet. *)
Lemma from_file_Ok text w sheet w' :
  from_file text w = (Ok sheet, w') ->
  exists tds ents dns,
    sheet = TymeSheet_init (map (fun t => (name t, t)) tds) ents
                           (map (fun t => (name t, t)) dns)
    /\ Forall (fun t => opt_whole_minute (deadline t) = true) tds
    /\ Forall (fun t => opt_whole_minute (deadline t) = true) dns
    /\ Forall (fun e => entry_ok e = true
                        /\ whole_minute (start e) && opt_whole_minute (end_ e)
                           = true) ents
    /\ open_only_last sheet = true.
Proof.
  unfold from_file. intros H.
  apply bind_Ok in H. destruct H as [[[tds ents] dns] [w1 [R H]]].
  cbn [fst snd] in H.
  apply bind_Ok in H. destruct H as [[] [w2 [Hv H]]].
  injection H as <- <-.
  unfold read_sections in R.
  apply bind_Ok in R. destruct R as [h [w3 [_ R]]].
  apply bind_Ok in R. destruct R as [[] [w4 [_ R]]].
  apply bind_Ok in R. destruct R as [r [w5 [_ R]]].
  apply bind_Ok in R. destruct R as [[] [w6 [_ R]]].
  apply bind_Ok in R. destruct R as [[t1 rest1] [w7 [P1 R]]].
  apply bind_Ok in R. destruct R as [[t2 rest2] [w8 [P2 R]]].
  apply bind_Ok in R. destruct R as [[t3 rest3] [w9 [P3 R]]].
  cbn [fst snd] in *. injection R as <- <- <- <-.
  exists t1, t2, t3. split; [reflexivity|].
  split; [|split; [|split]].
  - apply (parse_Forall Task_from_string _ Task_from_string_Ok _ _ _ _ _ _ P1).
  - apply (parse_Forall Task_from_string _ Task_from_string_Ok _ _ _ _ _ _ P3).
  - apply (parse_Forall Entry_from_string _ Entry_from_string_Ok _ _ _ _ _ _ P2).
  - unfold open_only_last.
    destruct (forallb (fun e => is_some (end_ e))
                (removelast (time (TymeSheet_init
                   (map (fun t => (name t, t)) t1) t2
                   (map (fun t => (name t, t)) t3))))) eqn:E; [reflexivity|].
    rewrite (validate_open_nonfinal _ _ E) in Hv. discriminate Hv.
Qed.

(** X15.  Every sheet that [from_file] returns is well formed: only its
    last entry may be open, no entry ends before it begins, each of
    [todo] and [done] holds a name once, and holds every task under the
    task's own name. *)
Theorem from_file_well_formed (text : str) (w w' : World)
  (sheet : TymeSheet) :
  from_file text w = (Ok sheet, w') ->
  open_only_last sheet = true /\ ends_after_starts sheet = true
  /\ od_ok (todo sheet) /\ od_ok (done sheet)
  /\ keyed_by_name (todo sheet) = true /\ keyed_by_name (done sheet) = true.
Proof.
  intros H. apply from_file_Ok in H.
  destruct H as [tds [ents [dns [-> [_ [_ [He Ho]]]]]]].
  split; [exact Ho|]. unfold TymeSheet_init. simpl.
  assert (K : forall l : list Task,
             keyed_by_name (od_of_pairs (map (fun t => (name t, t)) l)) = true).
  { intros l. apply forallb_of_pairs.
    apply (Forall_forallb_map (fun _ => True)); [|apply Forall_forall; auto].
    intros t _. apply str_eqb_refl. }
  repeat split; try apply od_ok_of_pairs; try apply K.
  unfold ends_after_starts. simpl. apply forallb_forall.
  rewrite Forall_forall in He. intros e Hin. apply (He e Hin).
Qed.

Lemma from_file_well_formed_witness :
  open_only_last (TymeSheet_init
                    [(L "write report", mkTask (L "write report") [] None)]
                    [mkEntry (L "write report") (at_ 3 5 10 0)
                             (Some (at_ 3 5 10 30));
                     mkEntry (L "write report") (at_ 3 5 11 0) None] [])
  = true.
Proof.
  refine (proj1 (from_file_well_formed doc_open_last noon noon _ _)).
  vm_compute. reflexivity.
Defined.

(** X16.  Every time in a sheet that [from_file] returns -- deadline,
    start or end -- is a whole minute of the year 2000: the document
    carries no year and no seconds. *)
Theorem from_file_whole_minutes (text : str) (w w' : World)
  (sheet : TymeSheet) :
  from_file text w = (Ok sheet, w') -> whole_minutes sheet = true.
Proof.
  intros H. apply from_file_Ok in H.
  destruct H as [tds [ents [dns [-> [Ht [Hd [He _]]]]]]].
  unfold whole_minutes, TymeSheet_init. simpl.
  assert (K : forall l : list Task,
             Forall (fun t => opt_whole_minute (deadline t) = true) l ->
             forallb (fun t => opt_whole_minute (deadline t))
               (od_values (od_of_pairs (map (fun t => (name t, t)) l))) = true).
  { intros l F. rewrite <- forallb_values. apply forallb_of_pairs.
    apply (Forall_forallb_map
             (fun t => opt_whole_minute (deadline t) = true)
             (fun kv : str * Task => opt_whole_minute (deadline (snd kv)))
             (fun t => (name t, t)) l (fun t Pt => Pt) F). }
  rewrite (K _ Ht), (K _ Hd). simpl.
  apply forallb_forall. rewrite Forall_forall in He.
  intros e Hin. apply (He e Hin).
Qed.

Lemma from_file_whole_minutes_witness :
  whole_minutes (TymeSheet_init
                   [(L "write report", mkTask (L "write report") [] None)]
                   [mkEntry (L "write report") (at_ 3 5 10 0)
                            (Some (at_ 3 5 10 30));
                    mkEntry (L "write report") (at_ 3 5 11 0) None] [])
  = true.
Proof.
  refine (from_file_whole_minutes doc_open_last noon noon _ _).
  vm_compute. reflexivity.
Defined.

(* ================================================================== *)
(** * Documents that do not parse *)
(* ================================================================== *)

Lemma filter_short (ls : list str) :
  forallb (fun line => (length line <=? 2)%nat) ls = true ->
  filter (fun line => (2 <? length line)%nat) ls = [].
Proof.
  induction ls as [|l ls IH]; [reflexivity|]. cbn [forallb filter].
  intros H. apply andb_true_iff in H. destruct H as [Hl H].
  apply Nat.leb_le in Hl.
  assert ((2 <? length l)%nat = false) as -> by (apply Nat.ltb_ge; lia).
  apply IH. exact H.
Qed.

(** X17.  A file with no line of more than two characters, the empty file
    among them, has no first line for [from_file]: the call ends with
    [StopIteration], which is no TymeError. *)
Theorem from_file_no_lines (text : str) (w : World) :
  forallb (fun line => (length line <=? 2)%nat)
          (readlines (universal_newlines text)) = true ->
  from_file text w = (Raise StopIteration, w)
  /\ is_TymeError StopIteration = false.
Proof.
  intros H. split; [|reflexivity].
  unfold from_file, read_sections. rewrite (filter_short _ H). reflexivity.
Qed.

Lemma from_file_no_lines_witness :
  from_file [NL; " "%char; NL; NL] noon = (Raise StopIteration, noon)
  /\ is_TymeError StopIteration = false.
Proof. apply (from_file_no_lines [NL; " "%char; NL; NL] noon). reflexivity. Defined.

Section ParseMissing.
Context {A : Type}.
Variable from_string : str -> M World A.
Variable R : A -> str -> Prop.
Variable word : str.
Hypothesis Hline : forall a line w,
  R a line ->
  re_match (re_header word) (add_nl line) = None
  /\ from_string (add_nl line) w = (Ok a, w).

(** The file ends before the header of the next section. *)
Lemma parse_missing :
  forall recs lines, Forall2 R recs lines ->
  forall w,
    parse from_string (Some word) (map add_nl lines) w
    = (Raise (ParseError (L "Missing section: " ++ word)), w).
Proof.
  intros recs lines F. induction F as [|a line recs lines Ha F IH]; intros w.
  - reflexivity.
  - cbn [map parse show_break_word].
    destruct (Hline a line w Ha) as [H1 H2]. rewrite H1.
    unfold bind at 1. rewrite H2. unfold bind at 1. rewrite IH. reflexivity.
Qed.
End ParseMissing.

(** X18.  A document cut short raises ParseError: with the Todo section
    alone the message is "Missing section: Time", with the Todo and Time
    sections but no Done header it is "Missing section: Done", also when
    the sections present are in order. *)
Theorem from_file_missing_section (tasks : list Task) (tl : list str)
  (entries : list Entry) (el : list str) (w : World) :
  Forall2 task_row tasks tl -> Forall2 entry_row entries el ->
  from_file (join [NL] (section (L "Todo") tl)) w
  = (Raise (ParseError (L "Missing section: Time")), w)
  /\ from_file (join [NL] (section (L "Todo") tl ++ section (L "Time") el)) w
     = (Raise (ParseError (L "Missing section: Done")), w).
Proof.
  intros Ft Fe.
  assert (Pt := task_rows_plain _ _ Ft).
  assert (Pe := entry_rows_plain _ _ Fe).
  assert (Lt := task_rows_long _ _ Ft).
  assert (Le := entry_rows_long _ _ Fe).
  assert (Hfrom : forall text e,
            read_sections text w = (Raise e, w) ->
            from_file text w = (Raise e, w)).
  { intros text e H. unfold from_file. unfold bind at 1. rewrite H.
    reflexivity. }
  split; apply Hfrom.
  - set (S1 := center 70 (L "Todo") :: rule :: tl).
    assert (Etext : section (L "Todo") tl = S1 ++ [[]]) by reflexivity.
    assert (Hplain : forallb (forallb plain_char) S1 = true).
    { unfold S1. cbn [forallb]. rewrite Pt, rule_plain.
      rewrite (header_plain (L "Todo")) by auto. reflexivity. }
    unfold read_sections.
    rewrite Etext, join_blank_end.
    rewrite universal_newlines_id by (apply no_cr_concat; exact Hplain).
    rewrite readlines_concat by (apply all_no_nl; exact Hplain).
    unfold S1. rewrite kept_last_section by auto.
    unfold bind at 1. cbn [next_line]. unfold ret at 1. cbn [fst snd].
    unfold bind at 1. rewrite assert_match_ok by (apply header_matches; auto).
    unfold bind at 1. cbn [next_line]. unfold ret at 1. cbn [fst snd].
    unfold bind at 1. rewrite assert_match_ok by apply rule_matches.
    unfold bind at 1.
    rewrite (parse_missing Task_from_string task_row (L "Time"))
      with (recs := tasks);
      [ | intros; apply task_row_reads; assumption | exact Ft ].
    reflexivity.
  - set (S1 := center 70 (L "Todo") :: rule :: tl ++ [[]]).
    set (S2 := center 70 (L "Time") :: rule :: el).
    assert (Etext : section (L "Todo") tl ++ section (L "Time") el
                    = (S1 ++ S2) ++ [[]]).
    { unfold section, S1, S2. fold rule.
      repeat (cbn [app]; rewrite <- ?app_assoc, <- ?app_comm_cons).
      reflexivity. }
    assert (Hplain : forallb (forallb plain_char) (S1 ++ S2) = true).
    { unfold S1, S2.
      repeat (rewrite ?forallb_app; cbn [forallb]).
      repeat (apply andb_true_iff; split);
        first [ exact Pt | exact Pe | exact rule_plain
              | reflexivity | apply header_plain; auto ]. }
    unfold read_sections.
    rewrite Etext, join_blank_end.
    rewrite universal_newlines_id by (apply no_cr_concat; exact Hplain).
    rewrite readlines_concat by (apply all_no_nl; exact Hplain).
    rewrite !map_app, !filter_app.
    unfold S1, S2.
    rewrite (kept_section (L "Todo")) by auto.
    rewrite (kept_last_section (L "Time")) by auto.
    cbn [app].
    unfold bind at 1. cbn [next_line]. unfold ret at 1. cbn [fst snd].
    unfold bind at 1. rewrite assert_match_ok by (apply header_matches; auto).
    unfold bind at 1. cbn [next_line]. unfold ret at 1. cbn [fst snd].
    unfold bind at 1. rewrite assert_match_ok by apply rule_matches.
    unfold bind at 1.
    rewrite (parse_to_header Task_from_string task_row (Some (L "Time")))
      with (recs := tasks);
      [ | intros; apply task_row_reads; assumption
        | apply header_matches; auto | apply rule_matches | exact Ft ].
    cbn [fst snd]. unfold bind at 1.
    rewrite (parse_missing Entry_from_string entry_row (L "Done"))
      with (recs := entries);
      [ | intros; apply entry_row_reads; assumption | exact Fe ].
    reflexivity.
Qed.

Lemma from_file_missing_section_witness :
  from_file (join [NL] (section (L "Todo") [Task_line (L "(00:30)") report]))
            noon
  = (Raise (ParseError (L "Missing section: Time")), noon)
  /\ from_file (join [NL] (section (L "Todo") [Task_line (L "(00:30)") report]
                           ++ section (L "Time") [])) noon
     = (Raise (ParseError (L "Missing section: Done")), noon).
Proof.
  apply (from_file_missing_section [report] [Task_line (L "(00:30)") report]
           [] [] noon).
  - constructor; [|constructor]. split; [reflexivity|].
    exists (L "(00:30)"). split; [|reflexivity].
    exists "0"%char, "0"%char, "3"%char, "0"%char.
    repeat split; reflexivity.
  - constructor.
Defined.

(* ================================================================== *)
(** * Switching tasks *)
(* ================================================================== *)

Lemma clock_ins_open : forall l n0 t0 init s,
  time (self s) = init ++ [mkEntry n0 t0 None] ->
  exists s',
    clock_ins l s = (Ok tt, s')
    /\ time (self s') = init ++ timeline ((n0, t0) :: l)
    /\ todo (self s') = todo (self s) /\ done (self s') = done (self s)
    /\ world s' = world s.
Proof.
  induction l as [|[n t] l IH]; intros n0 t0 init s Ht.
  - exists s. simpl. auto.
  - cbn [clock_ins]. unfold bind at 1. rewrite clock_in_run.
    assert (Hc : current_entry (self s) = Some (mkEntry n0 t0 None)).
    { apply current_entry_Some. exists init. auto. }
    rewrite Hc, Ht, set_last_end_app. cbn [instant clock_after].
    match goal with
    | |- context [clock_ins l ?s1] =>
        destruct (IH n t (init ++ [set_end t (mkEntry n0 t0 None)]) s1)
          as [s' [E [H1 [H2 [H3 H4]]]]]; [reflexivity|]
    end.
    exists s'. split; [exact E|]. simpl in H2, H3, H4.
    repeat split; try assumption.
    rewrite H1, <- app_assoc. reflexivity.
Qed.

(** X19.  A run of task switches on a sheet with nothing open leaves a
    gapless timeline: the log grows by one entry per [clock_in], each
    entry ends exactly when the next one begins, only the last one is
    open, and [todo], [done] and the clock are as before. *)
Theorem clock_ins_timeline (l : list (str * datetime)) (s : Store) :
  current_entry (self s) = None ->
  exists s',
    clock_ins l s = (Ok tt, s')
    /\ time (self s') = time (self s) ++ timeline l
    /\ todo (self s') = todo (self s) /\ done (self s') = done (self s)
    /\ world s' = world s.
Proof.
  intros Hc. destruct l as [|[n t] l].
  - exists s. simpl. rewrite app_nil_r. auto.
  - cbn [clock_ins]. unfold bind at 1. rewrite clock_in_run, Hc.
    cbn [instant clock_after].
    match goal with
    | |- context [clock_ins l ?s1] =>
        destruct (clock_ins_open l n t (time (self s)) s1)
          as [s' [E [H1 [H2 [H3 H4]]]]]; [reflexivity|]
    end.
    exists s'. split; [exact E|]. simpl in H2, H3, H4. auto.
Qed.

Lemma clock_ins_timeline_witness :
  exists s',
    clock_ins [(L "write report", at_ 3 5 11 0); (L "file taxes", at_ 3 5 11 45);
               (L "write report", at_ 3 5 13 0)] at_rest = (Ok tt, s')
    /\ time (self s') =
       time (self at_rest)
       ++ [mkEntry (L "write report") (at_ 3 5 11 0) (Some (at_ 3 5 11 45));
           mkEntry (L "file taxes") (at_ 3 5 11 45) (Some (at_ 3 5 13 0));
           mkEntry (L "write report") (at_ 3 5 13 0) None]
    /\ todo (self s') = todo (self at_rest)
    /\ done (self s') = done (self at_rest)
    /\ world s' = world at_rest.
Proof.
  apply (clock_ins_timeline
           [(L "write report", at_ 3 5 11 0); (L "file taxes", at_ 3 5 11 45);
            (L "write report", at_ 3 5 13 0)] at_rest).
  reflexivity.
Defined.

(* ================================================================== *)
(** * Documents, names and sets *)
(* ================================================================== *)



Lemma name_tail_app (wd rest : str) :
  forallb is_word wd = true -> name_tail_ok rest = true ->
  name_tail_ok (wd ++ rest) = true.
Proof.
  intros Hw Hr. induction wd as [|c wd IH]; [exact Hr|].
  cbn [forallb] in Hw. apply andb_true_iff in Hw. destruct Hw as [Hc Hw].
  cbn [app name_tail_ok]. rewrite Hc. apply IH. exact Hw.
Qed.

Lemma join_blank_cons (wd : str) (words : list str) :
  join (L " ") (wd :: words)
  = wd ++ match words with
          | [] => []
          | _ :: _ => L " " ++ join (L " ") words
          end.
Proof. destruct words; [simpl; rewrite app_nil_r|]; reflexivity. Qed.

Lemma name_tail_join : forall words,
  forallb is_tag words = true ->
  name_tail_ok (match words with
                | [] => []
                | _ :: _ => L " " ++ join (L " ") words
                end) = true.
Proof.
  induction words as [|wd words IH]; [reflexivity|].
  cbn [forallb]. intros H. apply andb_true_iff in H. destruct H as [Hw H].
  specialize (IH H).
  unfold is_tag in Hw. apply andb_true_iff in Hw. destruct Hw as [Hlen Hw].
  destruct wd as [|c wd]; [discriminate Hlen|].
  cbn [forallb] in Hw. apply andb_true_iff in Hw. destruct Hw as [Hc Hw].
  rewrite join_blank_cons. rewrite <- app_comm_cons.
  change (L " " ++ c :: ?x) with (" "%char :: c :: x).
  cbn [name_tail_ok]. change (is_word " ") with false. cbn [Ascii.eqb].
  rewrite Hc. simpl. apply name_tail_app; assumption.
Qed.

(** X21.  A task name put together from the words of a command line, each
    a run of letters, digits and underscores, is a name the document
    carries -- [REGEX['task']] matches the whole of it -- as soon as it
    has two characters. *)
Theorem task_argument_is_read (words : list str) :
  forallb is_tag words = true ->
  (2 <= length (task_argument words))%nat ->
  is_name (task_argument words) = true
  /\ re_match re_task (task_argument words)
     = Some (length (task_argument words), []).
Proof.
  intros Hw Hlen.
  assert (Hn : is_name (task_argument words) = true).
  { unfold task_argument in *.
    destruct words as [|wd words]; [simpl in Hlen; lia|].
    assert (Ht := name_tail_join (wd :: words) Hw).
    cbn [forallb] in Hw. apply andb_true_iff in Hw. destruct Hw as [Hwd H].
    unfold is_tag in Hwd. apply andb_true_iff in Hwd.
    destruct Hwd as [Hl Hwd].
    destruct wd as [|c wd]; [discriminate Hl|].
    cbn [forallb] in Hwd. apply andb_true_iff in Hwd.
    destruct Hwd as [Hc Hwd].
    rewrite join_blank_cons in *. rewrite <- app_comm_cons in *.
    cbn [is_name]. rewrite Hc. cbn [length] in Hlen.
    assert ((length (wd ++ match words with
                           | [] => []
                           | _ :: _ => L " " ++ join (L " ") words
                           end) =? 0)%nat = false) as ->
      by (apply Nat.eqb_neq; lia).
    cbn [negb andb].
    apply name_tail_app; [exact Hwd|].
    apply name_tail_join. exact H. }
  split; [exact Hn|].
  unfold re_match.
  rewrite <- (app_nil_r (task_argument words)) at 1.
  apply re_task_name; [exact Hn | exact I | reflexivity].
Qed.

Lemma task_argument_is_read_witness :
  is_name (task_argument [L "leave"; L "my"; L "house"]) = true
  /\ re_match re_task (task_argument [L "leave"; L "my"; L "house"])
     = Some (length (task_argument [L "leave"; L "my"; L "house"]), []).
Proof.
  apply (task_argument_is_read [L "leave"; L "my"; L "house"]).
  - reflexivity.
  - simpl. lia.
Defined.

(* ================================================================== *)
(** * Dictionaries built from pairs *)
(* ================================================================== *)

Section FromPairs.
Context {V : Type}.
Implicit Types (d : OrderedDict V) (k : str) (v : V).

Lemma od_get_set k k' v d :
  od_get k (od_set k' v d) = if str_eqb k k' then Some v else od_get k d.
Proof.
  induction d as [|[k0 v0] d IH]; simpl.
  - destruct (str_eqb k k'); reflexivity.
  - destruct (str_eqb k' k0) eqn:E; simpl.
    + str_eqb_hyps. subst k0. destruct (str_eqb k k'); reflexivity.
    + rewrite IH. destruct (str_eqb k k0) eqn:F; [|reflexivity].
      destruct (str_eqb k k') eqn:G; [|reflexivity].
      str_eqb_hyps. congruence.
Qed.

Lemma od_get_app k d d' :
  od_get k (d ++ d') = match od_get k d with
                       | Some v => Some v
                       | None => od_get k d'
                       end.
Proof.
  induction d as [|[k0 v0] d IH]; [reflexivity|]. simpl.
  destruct (str_eqb k k0); [reflexivity | exact IH].
Qed.

Lemma od_get_fold k : forall (l : list (str * V)) (acc : OrderedDict V),
  od_get k (fold_left (fun d kv => od_set (fst kv) (snd kv) d) l acc)
  = match od_get k (rev l) with
    | Some v => Some v
    | None => od_get k acc
    end.
Proof.
  induction l as [|[k' v] l IH]; intros acc; [reflexivity|].
  cbn [fold_left rev fst snd]. rewrite IH, od_get_app, od_get_set.
  destruct (od_get k (rev l)); [reflexivity|]. simpl.
  destruct (str_eqb k k'); reflexivity.
Qed.

Lemma od_mem_fold k : forall (l : list (str * V)) (acc : OrderedDict V),
  od_mem k (fold_left (fun d kv => od_set (fst kv) (snd kv) d) l acc)
  = od_mem k l || od_mem k acc.
Proof.
  induction l as [|[k' v] l IH]; intros acc; [reflexivity|].
  cbn [fold_left fst snd]. rewrite IH, od_mem_set. simpl.
  destruct (str_eqb k k'), (od_mem k l), (od_mem k acc); reflexivity.
Qed.
End FromPairs.

(** X22.  When the pairs given to [TymeSheet] name a task more than once,
    as the lines of a document can, the sheet holds the name once and
    under it the record that came last; the names held are those of the
    pairs, and the log is the list given. *)
Theorem TymeSheet_init_last_wins (td : list (str * Task)) (tm : list Entry)
  (dn : list (str * Task)) :
  let sheet := TymeSheet_init td tm dn in
  od_ok (todo sheet) /\ od_ok (done sheet) /\ time sheet = tm
  /\ forall k,
       od_get k (todo sheet) = od_get k (rev td)
       /\ od_get k (done sheet) = od_get k (rev dn)
       /\ od_mem k (todo sheet) = od_mem k td
       /\ od_mem k (done sheet) = od_mem k dn.
Proof.
  cbv zeta. unfold TymeSheet_init. simpl.
  split; [apply od_ok_of_pairs|]. split; [apply od_ok_of_pairs|].
  split; [reflexivity|]. intros k. unfold od_of_pairs.
  rewrite !od_get_fold, !od_mem_fold. simpl. rewrite !orb_false_r.
  repeat split; match goal with |- context [od_get k ?l] =>
                                  destruct (od_get k l); reflexivity end.
Qed.

(** X23.  An [OrderedSet] made from a list holds the elements of the
    list, each once.  [add] raises ValueError and changes nothing exactly
    when the element is present; otherwise it puts the element last, and
    the elements stay distinct. *)
Theorem OrderedSet_add_spec (elts : list str) (elt : str) :
  let s := OrderedSet_init elts in
  od_ok s
  /\ (forall x, In x (od_keys s) <-> In x elts)
  /\ (In elt elts ->
        OrderedSet_add elt s
        = (Raise (ValueError (L "Element already in set.")), s))
  /\ (~ In elt elts ->
        OrderedSet_add elt s = (Ok tt, s ++ [(elt, tt)])
        /\ od_ok (s ++ [(elt, tt)])).
Proof.
  cbv zeta. unfold OrderedSet_init.
  set (pairs := map (fun x : str => (x, tt)) elts).
  assert (Hmem : forall x, od_mem x (od_of_pairs pairs) = true <-> In x elts).
  { intros x. unfold od_of_pairs. rewrite od_mem_fold. simpl.
    rewrite orb_false_r, od_mem_In. unfold od_keys, pairs.
    rewrite map_map. simpl. rewrite map_id. reflexivity. }
  split; [apply od_ok_of_pairs|].
  split; [intros x; rewrite <- od_mem_In; apply Hmem|].
  split.
  - intros Hin. apply Hmem in Hin.
    unfold OrderedSet_add, bind, gets. rewrite Hin. reflexivity.
  - intros Hn.
    assert (Hf : od_mem elt (od_of_pairs pairs) = false).
    { destruct (od_mem elt (od_of_pairs pairs)) eqn:E; [|reflexivity].
      apply Hmem in E. contradiction. }
    split.
    + unfold OrderedSet_add, bind, gets, modify. rewrite Hf.
      rewrite od_set_fresh by exact Hf. reflexivity.
    + rewrite <- (od_set_fresh elt tt _ Hf). apply od_ok_set.
      apply od_ok_of_pairs.
Qed.

Lemma OrderedSet_add_spec_witness :
  OrderedSet_add (L "work") (OrderedSet_init [L "work"; L "home"; L "work"])
  = (Raise (ValueError (L "Element already in set.")),
     OrderedSet_init [L "work"; L "home"; L "work"])
  /\ OrderedSet_add (L "bed") (OrderedSet_init [L "work"; L "home"; L "work"])
     = (Ok tt, OrderedSet_init [L "work"; L "home"; L "work"] ++ [(L "bed", tt)]).
Proof.
  destruct (OrderedSet_add_spec [L "work"; L "home"; L "work"] (L "work"))
    as [_ [_ [H1 _]]].
  destruct (OrderedSet_add_spec [L "work"; L "home"; L "work"] (L "bed"))
    as [_ [_ [_ H2]]].
  split.
  - apply H1. left. reflexivity.
  - apply H2. intros [H | [H | [H | []]]]; discriminate H.
Defined.

(* ================================================================== *)
(** * Sheets the document carries *)
(* ================================================================== *)

Lemma od_get_In {V} (k : str) (v : V) (d : OrderedDict V) :
  od_get k d = Some v -> In (k, v) d.
Proof.
  induction d as [|[k0 v0] d IH]; [discriminate|]. simpl.
  destruct (str_eqb k k0) eqn:E.
  - intros H. injection H as <-. str_eqb_hyps. subst k0. left. reflexivity.
  - intros H. right. apply IH. exact H.
Qed.

Lemma forallb_set_last_end (t : datetime) : forall l,
  stamp_ok t = true -> forallb entry_printable l = true ->
  forallb entry_printable (set_last_end t l) = true.
Proof.
  intros l Ht. induction l as [|e l IH]; [reflexivity|].
  cbn [forallb]. intros H. apply andb_true_iff in H. destruct H as [He H].
  destruct l as [|e' l'].
  - simpl. unfold entry_printable in *. simpl.
    apply andb_true_iff in He. destruct He as [He _]. rewrite He, Ht.
    reflexivity.
  - change (set_last_end t (e :: e' :: l'))
      with (e :: set_last_end t (e' :: l')).
    cbn [forallb]. rewrite He, IH by exact H. reflexivity.
Qed.

(** X24.  A sheet the document carries stays one under every call whose
    arguments are of the shapes the document carries: a task name of
    words separated by single blanks, tags that are words, and an instant
    on a whole minute of the year 2000 (not 29 February). *)
Theorem printable_kept (c : call) (s : Store) :
  printable (self s) = true -> call_printable c (world s) = true ->
  printable (self (after c s)) = true.
Proof.
  unfold printable. intros Hp Hc.
  apply andb_true_iff in Hp. destruct Hp as [Hp Pe].
  apply andb_true_iff in Hp. destruct Hp as [Hp Pd].
  apply andb_true_iff in Hp. destruct Hp as [Hp Pt].
  apply andb_true_iff in Hp. destruct Hp as [Kt Kd].
  unfold after. destruct c as [n tg | n tm | tm | n tm];
    cbn [run call_printable] in *.
  - destruct (od_mem n (todo (self s))) eqn:E.
    + rewrite (add_task_present n tg s E). simpl.
      rewrite Kt, Kd, Pt, Pd, Pe. reflexivity.
    + rewrite (add_task_absent n tg s E). simpl.
      apply andb_true_iff in Hc. destruct Hc as [Hn Htg].
      unfold keyed_by_name, od_values in *.
      rewrite map_app, !forallb_app, Kt, Kd, Pt, Pd, Pe. simpl.
      unfold task_printable. simpl.
      rewrite str_eqb_refl, Hn, Htg. reflexivity.
  - apply andb_true_iff in Hc. destruct Hc as [Hn Ht].
    rewrite clock_in_run. simpl. rewrite Kt, Kd, Pt, Pd. simpl.
    rewrite forallb_app. simpl. unfold entry_printable at 2. simpl.
    rewrite Hn, Ht. simpl. rewrite andb_true_r.
    destruct (current_entry (self s)); [|exact Pe].
    apply forallb_set_last_end; assumption.
  - unfold bind. destruct (current_entry (self s)) as [e|] eqn:E.
    + rewrite (clock_out_open tm s e E). simpl.
      rewrite Kt, Kd, Pt, Pd. simpl.
      apply forallb_set_last_end; assumption.
    + rewrite (clock_out_closed tm s E). simpl.
      rewrite Kt, Kd, Pt, Pd, Pe. reflexivity.
  - destruct (od_get n (todo (self s))) as [tk|] eqn:G.
    + rewrite (complete_task_present n tm s tk G). simpl.
      assert (Hin := od_get_In _ _ _ G).
      assert (Hk : str_eqb n (name tk) = true).
      { unfold keyed_by_name in Kt. rewrite forallb_forall in Kt.
        apply (Kt _ Hin). }
      assert (Htk : task_printable tk = true).
      { rewrite forallb_forall in Pt. apply Pt.
        unfold od_values. apply in_map_iff. exists (n, tk). auto. }
      repeat (apply andb_true_iff; split).
      * unfold keyed_by_name, od_del. apply forallb_filter. exact Kt.
      * unfold keyed_by_name. apply forallb_od_set; [exact Kd | exact Hk].
      * rewrite <- forallb_values. unfold od_del. apply forallb_filter.
        rewrite forallb_values. exact Pt.
      * rewrite <- forallb_values. apply forallb_od_set.
        -- rewrite forallb_values. exact Pd.
        -- simpl. unfold task_printable in *. simpl.
           apply andb_true_iff in Htk. destruct Htk as [Htk _].
           rewrite Htk, Hc. reflexivity.
      * destruct (current_entry (self s)); [|exact Pe].
        destruct (str_eqb (task e) n); [|exact Pe].
        apply forallb_set_last_end; assumption.
    + apply od_get_None in G. rewrite (complete_task_missing n tm s G).
      simpl. rewrite Kt, Kd, Pt, Pd, Pe. reflexivity.
Qed.

Lemma printable_kept_witness :
  printable
    (self (after (ClockIn (L "file taxes") (Some (at_ 3 5 11 0))) clocked_in))
  = true.
Proof.
  apply (printable_kept (ClockIn (L "file taxes") (Some (at_ 3 5 11 0)))
           clocked_in); reflexivity.
Defined.

(* ================================================================== *)
(** * What the operations never do *)
(* ================================================================== *)

Lemma same_record_refl : forall l, Forall2 same_record l l.
Proof.
  induction l as [|e l IH]; constructor; [|exact IH].
  repeat split.
Qed.

Lemma same_record_last (t : datetime) (init : list Entry) (e : Entry) :
  end_ e = None ->
  Forall2 same_record (init ++ [e]) (init ++ [set_end t e]).
Proof.
  intros He. apply Forall2_app; [apply same_record_refl|].
  constructor; [|constructor]. repeat split. congruence.
Qed.

(** X25.  No operation rewrites the log: after any call the log is the
    old one, entry for entry with the same task and start, followed by at
    most one new entry; a closed entry is never changed, and no entry is
    ever removed. *)
Theorem log_is_append_only (c : call) (s : Store) :
  exists kept tail,
    time (self (after c s)) = kept ++ tail
    /\ Forall2 same_record (time (self s)) kept
    /\ (length tail <= 1)%nat.
Proof.
  destruct (run_time_cases c s) as [E | [[e [t [Hc [_ H]]]] | [Hc [n [t E]]]]].
  - exists (time (self s)), []. rewrite app_nil_r.
    split; [exact E|]. split; [apply same_record_refl | simpl; lia].
  - apply current_entry_Some in Hc. destruct Hc as [init [Hl He]].
    rewrite Hl in *. rewrite set_last_end_app in H.
    destruct H as [E | [n E]].
    + exists (init ++ [set_end t e]), []. rewrite app_nil_r.
      split; [exact E|].
      split; [apply same_record_last; exact He | simpl; lia].
    + exists (init ++ [set_end t e]), [mkEntry n t None].
      split; [exact E|].
      split; [apply same_record_last; exact He | simpl; lia].
  - exists (time (self s)), [mkEntry n t None].
    split; [exact E|]. split; [apply same_record_refl | simpl; lia].
Qed.

(** X26.  No operation loses a task: a name that is a key of [todo] or of
    [done] before a call is a key of one of them after it, and a name in
    [done] stays in [done]. *)
Theorem tasks_are_kept (c : call) (s : Store) (k : str) :
  (od_mem k (todo (self s)) || od_mem k (done (self s)) = true ->
   od_mem k (todo (self (after c s))) || od_mem k (done (self (after c s)))
   = true)
  /\ (od_mem k (done (self s)) = true ->
      od_mem k (done (self (after c s))) = true).
Proof.
  unfold after. destruct c as [n tg | n tm | tm | n tm]; simpl run.
  - destruct (od_mem n (todo (self s))) eqn:E.
    + rewrite (add_task_present n tg s E). auto.
    + rewrite (add_task_absent n tg s E). simpl. split; [|auto].
      unfold od_mem at 3. rewrite existsb_app. fold (od_mem k (todo (self s))).
      intros H. apply orb_true_iff in H. destruct H as [H | H];
        rewrite H; rewrite ?orb_true_r; reflexivity.
  - rewrite clock_in_run. auto.
  - unfold bind. destruct (current_entry (self s)) as [e|] eqn:E.
    + rewrite (clock_out_open tm s e E). auto.
    + rewrite (clock_out_closed tm s E). auto.
  - destruct (od_get n (todo (self s))) as [tk|] eqn:G.
    + rewrite (complete_task_present n tm s tk G). simpl.
      rewrite od_mem_del, od_mem_set. split.
      * intros H. destruct (str_eqb k n) eqn:F.
        -- rewrite orb_true_r. reflexivity.
        -- assert (Fn : str_eqb n k = false)
             by (str_eqb_hyps; apply str_eqb_neq; congruence).
           rewrite Fn. exact H.
      * intros H. rewrite H, orb_true_r. reflexivity.
    + apply od_get_None in G. rewrite (complete_task_missing n tm s G). auto.
Qed.

Lemma tasks_are_kept_witness :
  od_mem (L "write report")
    (todo (self (after (CompleteTask (L "write report") None) clocked_in)))
  || od_mem (L "write report")
       (done (self (after (CompleteTask (L "write report") None) clocked_in)))
  = true.
Proof.
  apply (proj1 (tasks_are_kept (CompleteTask (L "write report") None)
                  clocked_in (L "write report"))).
  reflexivity.
Defined.
